(** * OAuth 2.1 authorization server and MCP gateway: model and properties

    A shallow embedding of
      - [backend/app/services/oauth_server_service.py]
      - [backend/app/models/oauth_server.py]
      - [backend/app/routes/oauth_server.py] (metadata, consent approval,
        token endpoint, client routes)
      - [backend/app/routes/mcp.py] (auth dispatcher, JSON-RPC gateway,
        GET endpoints)

    Conventions.
      - A Python [str] is modelled by the [string] of its UTF-8 bytes, so
        [s.encode()] is the identity; [startswith], [==] and the slice
        [auth_header[7:]] after an ASCII prefix agree on both views.
      - A naive [datetime] is a [Z] (microseconds), a [timedelta] likewise.
      - [datetime.utcnow()] and [secrets.token_urlsafe] read two oracles kept
        in the world; every call consumes one reading.
      - The SQLAlchemy session is a pending copy of the tables which
        [commit] validates against the unique indexes of the models. *)

From Stdlib Require Import ZArith List String Ascii Bool Lia Arith.
Import ListNotations.
Open Scope string_scope.
Open Scope list_scope.
Open Scope Z_scope.

Set Implicit Arguments.

(* ================================================================== *)
(** * hashlib.sha256 (FIPS 180-4), on 32-bit words held in [Z]         *)
(* ================================================================== *)

Module Sha256.

Definition word_mod : Z := 2 ^ 32.

Definition wrap (x : Z) : Z := x mod word_mod.

Definition add32 (x y : Z) : Z := wrap (x + y).

Definition rotr (n x : Z) : Z :=
  Z.lor (Z.shiftr x n) (wrap (Z.shiftl x (32 - n))).

Definition not32 (x : Z) : Z := Z.lxor x (word_mod - 1).

Definition Ch (x y z : Z) : Z := Z.lxor (Z.land x y) (Z.land (not32 x) z).

Definition Maj (x y z : Z) : Z :=
  Z.lxor (Z.lxor (Z.land x y) (Z.land x z)) (Z.land y z).

Definition Sigma0 (x : Z) : Z := Z.lxor (Z.lxor (rotr 2 x) (rotr 13 x)) (rotr 22 x).
Definition Sigma1 (x : Z) : Z := Z.lxor (Z.lxor (rotr 6 x) (rotr 11 x)) (rotr 25 x).
Definition sigma0 (x : Z) : Z := Z.lxor (Z.lxor (rotr 7 x) (rotr 18 x)) (Z.shiftr x 3).
Definition sigma1 (x : Z) : Z := Z.lxor (Z.lxor (rotr 17 x) (rotr 19 x)) (Z.shiftr x 10).

(** The constants are not tabulated but derived as FIPS 180-4 defines
    them: the first thirty-two bits of the fractional parts of the cube
    roots of the first sixty-four primes (the round constants) and of the
    square roots of the first eight (the initial hash value). *)
Fixpoint root_bits (k n : Z) (bits : nat) (acc : Z) : Z :=
  match bits with
  | O => acc
  | S b =>
      let cand := acc + 2 ^ Z.of_nat b in
      if cand ^ k <=? n then root_bits k n b cand else root_bits k n b acc
  end.

(** [floor (2^32 * p^(1/k)) mod 2^32]. *)
Definition frac_root (k p : Z) : Z := wrap (root_bits k (p * 2 ^ (32 * k)) 40 0).

(** Trial division by 2 .. sqrt n. *)
Definition is_prime (n : Z) : bool :=
  forallb (fun d => negb (n mod Z.of_nat d =? 0)) (seq 2 (Z.to_nat (Z.sqrt n) - 1)).

Definition primes (count : nat) : list Z :=
  firstn count (filter is_prime (map Z.of_nat (seq 2 310))).

Definition K : list Z := Eval cbv in map (frac_root 3) (primes 64).

(** The eight working variables a..h, also the chaining value. *)
Record state := mk_state
  { sa : Z; sb : Z; sc : Z; sd : Z; se : Z; sf : Z; sg : Z; sh : Z }.

Definition H0 : state :=
  Eval cbv in
    (let h := fun i : nat => nth i (map (frac_root 2) (primes 8)) 0 in
     mk_state (h 0%nat) (h 1%nat) (h 2%nat) (h 3%nat)
              (h 4%nat) (h 5%nat) (h 6%nat) (h 7%nat)).

(** Message padding: a 1 bit, zeros up to 56 mod 64, the bit length on
    eight bytes, big endian. *)
Definition be_bytes (count : nat) (x : Z) : list Z :=
  map (fun i => Z.shiftr x (8 * Z.of_nat i) mod 256) (rev (seq 0 count)).

Definition pad (msg : list Z) : list Z :=
  let len := Z.of_nat (List.length msg) in
  let zeros := Z.to_nat ((55 - len) mod 64) in
  msg ++ [0x80] ++ repeat 0 zeros ++ be_bytes 8 (8 * len).

Definition be_word (b0 b1 b2 b3 : Z) : Z :=
  Z.lor (Z.lor (Z.shiftl b0 24) (Z.shiftl b1 16)) (Z.lor (Z.shiftl b2 8) b3).

Fixpoint words_of (bytes : list Z) : list Z :=
  match bytes with
  | b0 :: b1 :: b2 :: b3 :: rest => be_word b0 b1 b2 b3 :: words_of rest
  | _ => []
  end.

(** Message schedule, kept newest first: [extend n w] adds [n] words to a
    reversed window [w] whose head is W(t-1). *)
Fixpoint extend (n : nat) (w : list Z) : list Z :=
  match n with
  | O => w
  | S n' =>
      let wt := add32 (add32 (sigma1 (nth 1 w 0)) (nth 6 w 0))
                      (add32 (sigma0 (nth 14 w 0)) (nth 15 w 0)) in
      extend n' (wt :: w)
  end.

Definition schedule (block : list Z) : list Z := rev (extend 48 (rev block)).

Definition round (s : state) (kw : Z * Z) : state :=
  let (k, w) := kw in
  let t1 := add32 (add32 (add32 (sh s) (Sigma1 (se s))) (Ch (se s) (sf s) (sg s)))
                  (add32 k w) in
  let t2 := add32 (Sigma0 (sa s)) (Maj (sa s) (sb s) (sc s)) in
  mk_state (add32 t1 t2) (sa s) (sb s) (sc s) (add32 (sd s) t1) (se s) (sf s) (sg s).

Definition compress (h : state) (block : list Z) : state :=
  let s := fold_left round (combine K (schedule block)) h in
  mk_state (add32 (sa h) (sa s)) (add32 (sb h) (sb s)) (add32 (sc h) (sc s))
           (add32 (sd h) (sd s)) (add32 (se h) (se s)) (add32 (sf h) (sf s))
           (add32 (sg h) (sg s)) (add32 (sh h) (sh s)).

(** Blocks of sixteen words; [fuel] bounds the number of blocks. *)
Fixpoint blocks (fuel : nat) (h : state) (ws : list Z) : state :=
  match fuel with
  | O => h
  | S fuel' =>
      match ws with
      | [] => h
      | _ => blocks fuel' (compress h (firstn 16 ws)) (skipn 16 ws)
      end
  end.

Definition state_bytes (s : state) : list Z :=
  flat_map (be_bytes 4) [sa s; sb s; sc s; sd s; se s; sf s; sg s; sh s].

(** [hashlib.sha256(msg).digest()]: the 32 bytes of the digest. *)
Definition digest (msg : list Z) : list Z :=
  let ws := words_of (pad msg) in
  state_bytes (blocks (S (List.length ws)) H0 ws).

End Sha256.

(* ================================================================== *)
(** * Bytes and strings                                                *)
(* ================================================================== *)

Definition byte_of_ascii (c : ascii) : Z := Z.of_N (N_of_ascii c).
Definition ascii_of_byte (b : Z) : ascii := ascii_of_N (Z.to_N b).

(** [s.encode()] on the UTF-8 view of a [str]. *)
Definition encode (s : string) : list Z := map byte_of_ascii (list_ascii_of_string s).

(** [bytes.decode()] for ASCII output. *)
Definition decode (bs : list Z) : string := string_of_list_ascii (map ascii_of_byte bs).

Definition hex_digit (d : Z) : ascii :=
  nth (Z.to_nat d) (list_ascii_of_string "0123456789abcdef") "0"%char.

(** [.hexdigest()]: two lowercase hex digits per byte. *)
Definition hexlify (bs : list Z) : string :=
  string_of_list_ascii (flat_map (fun b => [hex_digit (b / 16); hex_digit (b mod 16)]) bs).

(** [bytes.rstrip(c)] for a one-character strip set: drops the trailing run
    of [c]. *)
Fixpoint rstrip (c : Z) (bs : list Z) : list Z :=
  match bs with
  | [] => []
  | b :: rest =>
      match rstrip c rest with
      | [] => if b =? c then [] else [b]
      | rest' => b :: rest'
      end
  end.

(** [str.startswith(prefix)]. *)
Definition startswith (s p : string) : bool := String.prefix p s.

(* ================================================================== *)
(** * base64.urlsafe_b64encode                                         *)
(* ================================================================== *)

Module Base64.

Definition urlsafe_alphabet : list ascii :=
  list_ascii_of_string "ABCDEFGHIJKLMNOPQRSTUVWXYZabcdefghijklmnopqrstuvwxyz0123456789-_".

(** The character of a 6-bit value, as a byte. *)
Definition sextet (v : Z) : Z :=
  byte_of_ascii (nth (Z.to_nat (v mod 64)) urlsafe_alphabet "A"%char).

Definition pad_char : Z := 61.  (* "=" *)

Definition enc3 (a b c : Z) : list Z :=
  let n := a * 65536 + b * 256 + c in
  [sextet (n / 262144); sextet (n / 4096); sextet (n / 64); sextet n].

Definition enc2 (a b : Z) : list Z :=
  let n := a * 65536 + b * 256 in
  [sextet (n / 262144); sextet (n / 4096); sextet (n / 64)].

Definition enc1 (a : Z) : list Z :=
  let n := a * 65536 in
  [sextet (n / 262144); sextet (n / 4096)].

(** [base64.urlsafe_b64encode]: groups of three bytes, the last group
    padded with "=" to four characters. *)
Fixpoint urlsafe_b64encode (bs : list Z) : list Z :=
  match bs with
  | a :: b :: c :: rest => enc3 a b c ++ urlsafe_b64encode rest
  | [a; b] => enc2 a b ++ [pad_char]
  | [a] => enc1 a ++ [pad_char; pad_char]
  | [] => []
  end.

(** Base64url without padding, as RFC 7636 appendix A words it: the same
    groups, no "=" emitted. Used as the specification of the PKCE
    challenge. *)
Fixpoint b64url_nopad (bs : list Z) : list Z :=
  match bs with
  | a :: b :: c :: rest => enc3 a b c ++ b64url_nopad rest
  | [a; b] => enc2 a b
  | [a] => enc1 a
  | [] => []
  end.

End Base64.

(* ================================================================== *)
(** * Crypto helpers of oauth_server_service.py                        *)
(* ================================================================== *)

Definition ACCESS_TOKEN_PREFIX : string := "bow_oauth_".
Definition REFRESH_TOKEN_PREFIX : string := "bow_rt_".

(** [_hash]: [hashlib.sha256(value.encode()).hexdigest()]. *)
Definition _hash (value : string) : string :=
  hexlify (Sha256.digest (encode value)).

(** [_verify_pkce_s256]. *)
Definition _verify_pkce_s256 (code_verifier code_challenge : string) : bool :=
  let digest := Sha256.digest (encode code_verifier) in
  let computed := decode (rstrip Base64.pad_char (Base64.urlsafe_b64encode digest)) in
  String.eqb computed code_challenge.

(* ================================================================== *)
(** * Time, constants                                                  *)
(* ================================================================== *)

Definition datetime := Z.
Definition timedelta := Z.

Definition microseconds_per_second : Z := 1000000.
Definition timedelta_minutes (m : Z) : timedelta := m * 60 * microseconds_per_second.
Definition timedelta_hours (h : Z) : timedelta := h * 3600 * microseconds_per_second.
Definition timedelta_days (d : Z) : timedelta := d * 86400 * microseconds_per_second.

(** [int(td.total_seconds())]. *)
Definition total_seconds (td : timedelta) : Z := td / microseconds_per_second.

Definition ACCESS_TOKEN_LIFETIME : timedelta := timedelta_hours 1.
Definition REFRESH_TOKEN_LIFETIME : timedelta := timedelta_days 30.
Definition AUTHORIZATION_CODE_LIFETIME : timedelta := timedelta_minutes 5.

Definition CLAUDE_REDIRECT_URIS : list string :=
  [ "https://claude.ai/api/mcp/auth_callback";
    "https://claude.com/api/mcp/auth_callback";
    "http://localhost:6274/oauth/callback";
    "http://localhost:6274/oauth/callback/debug" ].

(* ================================================================== *)
(** * models/oauth_server.py                                           *)
(* ================================================================== *)

(** The [Text] column [redirect_uris] holds [json.dumps] of a list of
    strings; [json_loads] reads the list back. *)
Inductive json_text : Type := json_dumps_uris (uris : list string).

Definition json_loads (t : json_text) : list string :=
  match t with json_dumps_uris uris => uris end.

(** Modelled from the spec: [BaseSchema] (app/models/base.py) is not among
    the sources; the migration gives every table an [id] primary key and a
    nullable [deleted_at]. Only the client's [id] is read by the service;
    rows of the other two tables are named by their position. *)
Record OAuthMCPClient := mkClient
  { cl_id : string;
    cl_organization_id : string;
    cl_client_id : string;            (* unique *)
    cl_client_secret_hash : string;
    cl_name : string;
    cl_redirect_uris : json_text;
    cl_scopes : string;
    cl_deleted_at : option datetime }.

Record OAuthMCPAuthorizationCode := mkCode
  { ac_code : string;                 (* unique *)
    ac_client_id : string;
    ac_user_id : string;
    ac_organization_id : string;
    ac_redirect_uri : string;
    ac_scope : string;
    ac_code_challenge : string;
    ac_expires_at : datetime;
    ac_deleted_at : option datetime }.

Record OAuthMCPAccessToken := mkToken
  { tk_token_hash : string;           (* unique *)
    tk_client_id : string;
    tk_user_id : string;
    tk_organization_id : string;
    tk_scope : string;
    tk_expires_at : datetime;
    tk_refresh_token_hash : option string;   (* nullable, unique *)
    tk_refresh_expires_at : option datetime;
    tk_deleted_at : option datetime }.

(** External collaborators, referenced by id. [org_settings] is
    [organization.settings], then [get_config("mcp_enabled")], then its
    [value]. *)
Record User := mkUser { user_id : string; user_name : string }.

Record Organization := mkOrg
  { org_id : string;
    org_settings : option (option bool) }.

Definition set_client_deleted_at (t : datetime) (c : OAuthMCPClient) : OAuthMCPClient :=
  mkClient (cl_id c) (cl_organization_id c) (cl_client_id c) (cl_client_secret_hash c)
           (cl_name c) (cl_redirect_uris c) (cl_scopes c) (Some t).

Definition set_client_secret_hash (h : string) (c : OAuthMCPClient) : OAuthMCPClient :=
  mkClient (cl_id c) (cl_organization_id c) (cl_client_id c) h
           (cl_name c) (cl_redirect_uris c) (cl_scopes c) (cl_deleted_at c).

Definition set_code_deleted_at (t : datetime) (a : OAuthMCPAuthorizationCode)
  : OAuthMCPAuthorizationCode :=
  mkCode (ac_code a) (ac_client_id a) (ac_user_id a) (ac_organization_id a)
         (ac_redirect_uri a) (ac_scope a) (ac_code_challenge a) (ac_expires_at a) (Some t).

Definition set_token_deleted_at (t : datetime) (k : OAuthMCPAccessToken)
  : OAuthMCPAccessToken :=
  mkToken (tk_token_hash k) (tk_client_id k) (tk_user_id k) (tk_organization_id k)
          (tk_scope k) (tk_expires_at k) (tk_refresh_token_hash k)
          (tk_refresh_expires_at k) (Some t).

(* ================================================================== *)
(** * The database, the session and the oracles                        *)
(* ================================================================== *)

(** The three OAuth tables in insertion order; the user and organization
    tables are read by primary key only. *)
Record Db := mkDb
  { clients : list OAuthMCPClient;
    codes : list OAuthMCPAuthorizationCode;
    tokens : list OAuthMCPAccessToken;
    users : string -> option User;
    organizations : string -> option Organization }.

Definition with_clients (l : list OAuthMCPClient) (d : Db) : Db :=
  mkDb l (codes d) (tokens d) (users d) (organizations d).
Definition with_codes (l : list OAuthMCPAuthorizationCode) (d : Db) : Db :=
  mkDb (clients d) l (tokens d) (users d) (organizations d).
Definition with_tokens (l : list OAuthMCPAccessToken) (d : Db) : Db :=
  mkDb (clients d) (codes d) l (users d) (organizations d).

(** [committed] is what the store holds, [session] what the current
    AsyncSession sees (pending changes included). [clock] and [entropy] are
    the successive results of [datetime.utcnow()] and of the CSPRNG. *)
Record World := mkWorld
  { committed : Db;
    session : Db;
    clock : nat -> datetime;
    ticks : nat;
    entropy : nat -> string;
    draws : nat }.

Definition with_session (d : Db) (w : World) : World :=
  mkWorld (committed w) d (clock w) (ticks w) (entropy w) (draws w).

Inductive PyExc : Type :=
| IntegrityError          (* a unique index refused the flush *)
| MultipleResultsFound    (* scalar_one_or_none saw two rows *)
| AttributeError.         (* an attribute the object does not have *)

Inductive outcome (A : Type) : Type :=
| Return (a : A)
| Raise (e : PyExc).
Arguments Return {A} a.
Arguments Raise {A} e.

Definition M (A : Type) : Type := World -> outcome A * World.

Definition ret {A} (a : A) : M A := fun w => (Return a, w).
Definition raise {A} (e : PyExc) : M A := fun w => (Raise e, w).
(** A computation that touches neither store nor oracles. *)
Definition lift {A} (o : outcome A) : M A := fun w => (o, w).
Definition bind {A B} (m : M A) (k : A -> M B) : M B :=
  fun w => match m w with
           | (Return a, w') => k a w'
           | (Raise e, w') => (Raise e, w')
           end.

Declare Scope py_scope.
Delimit Scope py_scope with py.
Notation "x <- m ;; k" := (bind m (fun x => k))
  (at level 100, m at next level, right associativity) : py_scope.
Notation "' p <- m ;; k" := (bind m (fun p => k))
  (at level 100, p pattern, m at next level, right associativity) : py_scope.
Notation "m ;;; k" := (bind m (fun _ => k))
  (at level 100, right associativity) : py_scope.
Open Scope py_scope.

(** [datetime.utcnow()]. *)
Definition utcnow : M datetime :=
  fun w => (Return (clock w (ticks w)),
            mkWorld (committed w) (session w) (clock w) (S (ticks w)) (entropy w) (draws w)).

(** [secrets.token_urlsafe(nbytes)]: the next word of the oracle. *)
Definition token_urlsafe (nbytes : nat) : M string :=
  fun w => (Return (entropy w (draws w)),
            mkWorld (committed w) (session w) (clock w) (ticks w) (entropy w) (S (draws w))).

(** Modelled from the spec: the default of the [id] primary key comes from
    [BaseSchema], which is not among the sources; an opaque identifier is
    drawn when the row is built. *)
Definition new_row_id : M string := token_urlsafe 16.

Fixpoint mem_string (x : string) (l : list string) : bool :=
  match l with
  | [] => false
  | y :: l' => String.eqb x y || mem_string x l'
  end.

Fixpoint distinct (l : list string) : bool :=
  match l with
  | [] => true
  | x :: l' => negb (mem_string x l') && distinct l'
  end.

Definition non_null (l : list (option string)) : list string :=
  flat_map (fun o => match o with Some s => [s] | None => [] end) l.

(** The unique indexes of the three models. *)
Definition unique_ok (d : Db) : bool :=
  distinct (map cl_id (clients d))
  && distinct (map cl_client_id (clients d))
  && distinct (map ac_code (codes d))
  && distinct (map tk_token_hash (tokens d))
  && distinct (non_null (map tk_refresh_token_hash (tokens d))).

(** [await db.commit()]: flush the session; a refused flush rolls it back. *)
Definition commit : M unit :=
  fun w => if unique_ok (session w)
           then (Return tt, mkWorld (session w) (session w) (clock w) (ticks w) (entropy w) (draws w))
           else (Raise IntegrityError,
                 mkWorld (committed w) (committed w) (clock w) (ticks w) (entropy w) (draws w)).

Definition read {A} (f : Db -> A) : M A := fun w => (Return (f (session w)), w).
Definition modify (f : Db -> Db) : M unit := fun w => (Return tt, with_session (f (session w)) w).

Definition enumerate {A} (l : list A) : list (nat * A) := combine (seq 0 (List.length l)) l.

(** [select(T).where(...)]: the matching rows with their positions. *)
Definition select_where {R} (table : Db -> list R) (cond : R -> bool) : M (list (nat * R)) :=
  read (fun d => filter (fun ir => cond (snd ir)) (enumerate (table d))).

(** [result.scalar_one_or_none()]. *)
Definition scalar_one_or_none {R} (rows : list (nat * R)) : M (option (nat * R)) :=
  match rows with
  | [] => ret None
  | [r] => ret (Some r)
  | _ => raise MultipleResultsFound
  end.

Fixpoint update_nth {A} (i : nat) (f : A -> A) (l : list A) : list A :=
  match l, i with
  | [], _ => []
  | x :: l', O => f x :: l'
  | x :: l', S i' => x :: update_nth i' f l'
  end.

Definition is_none {A} (o : option A) : bool :=
  match o with None => true | Some _ => false end.

(* ================================================================== *)
(** * class OAuthServerService                                         *)
(* ================================================================== *)

(** [_generate_token]. *)
Definition _generate_token (prefix : string) : M (string * string) :=
  raw <- token_urlsafe 32 ;;
  let full := (prefix ++ raw)%string in
  ret (full, _hash full).

Record ClientCreated := mkClientCreated
  { cc_id : string;
    cc_client_id : string;
    cc_client_secret : string;
    cc_name : string;
    cc_redirect_uris : list string }.

Definition create_client (organization_id name : string)
    (redirect_uris : option (list string)) : M ClientCreated :=
  let redirect_uris :=
    match redirect_uris with
    | None => CLAUDE_REDIRECT_URIS
    | Some l => l
    end in
  r1 <- token_urlsafe 16 ;;
  let client_id := ("bow_client_" ++ r1)%string in
  r2 <- token_urlsafe 32 ;;
  let client_secret := ("bow_secret_" ++ r2)%string in
  let secret_hash := _hash client_secret in
  id <- new_row_id ;;
  let client := mkClient id organization_id client_id secret_hash name
                         (json_dumps_uris redirect_uris) "mcp" None in
  modify (fun d => with_clients (clients d ++ [client]) d) ;;;
  commit ;;;
  ret (mkClientCreated (cl_id client) (cl_client_id client) client_secret
                       (cl_name client) redirect_uris).

Definition delete_client (client_db_id organization_id : string) : M bool :=
  rows <- select_where clients
            (fun c => String.eqb (cl_id c) client_db_id
                      && String.eqb (cl_organization_id c) organization_id
                      && is_none (cl_deleted_at c)) ;;
  client <- scalar_one_or_none rows ;;
  match client with
  | None => ret false
  | Some (i, _) =>
      now <- utcnow ;;
      modify (fun d => with_clients (update_nth i (set_client_deleted_at now) (clients d)) d) ;;;
      commit ;;;
      ret true
  end.

Record SecretRotated := mkSecretRotated
  { sr_id : string;
    sr_client_id : string;
    sr_client_secret : string;
    sr_name : string }.

Definition rotate_client_secret (client_db_id organization_id : string)
  : M (option SecretRotated) :=
  rows <- select_where clients
            (fun c => String.eqb (cl_id c) client_db_id
                      && String.eqb (cl_organization_id c) organization_id
                      && is_none (cl_deleted_at c)) ;;
  client <- scalar_one_or_none rows ;;
  match client with
  | None => ret None
  | Some (i, c) =>
      r <- token_urlsafe 32 ;;
      let new_secret := ("bow_secret_" ++ r)%string in
      modify (fun d => with_clients
                (update_nth i (set_client_secret_hash (_hash new_secret)) (clients d)) d) ;;;
      commit ;;;
      ret (Some (mkSecretRotated (cl_id c) (cl_client_id c) new_secret (cl_name c)))
  end.

Definition validate_client (client_id : string) (client_secret : option string)
  : M (option OAuthMCPClient) :=
  rows <- select_where clients
            (fun c => String.eqb (cl_client_id c) client_id && is_none (cl_deleted_at c)) ;;
  client <- scalar_one_or_none rows ;;
  match client with
  | None => ret None
  | Some (_, c) =>
      match client_secret with
      | Some secret =>
          if negb (String.eqb (_hash secret) (cl_client_secret_hash c))
          then ret None
          else ret (Some c)
      | None => ret (Some c)
      end
  end.

Definition validate_redirect_uri (client : OAuthMCPClient) (redirect_uri : string) : bool :=
  let allowed := json_loads (cl_redirect_uris client) in
  mem_string redirect_uri allowed.

Definition create_authorization_code
    (client_id user_id organization_id redirect_uri scope code_challenge : string)
  : M string :=
  code <- token_urlsafe 32 ;;
  now <- utcnow ;;
  let auth_code := mkCode code client_id user_id organization_id redirect_uri scope
                          code_challenge (now + AUTHORIZATION_CODE_LIFETIME) None in
  modify (fun d => with_codes (codes d ++ [auth_code]) d) ;;;
  commit ;;;
  ret code.

Record TokenResponse := mkTokenResponse
  { access_token : string;
    token_type : string;
    expires_in : Z;
    refresh_token : string;
    scope : string }.

Definition exchange_code (code client_id : string) (client_secret : option string)
    (code_verifier redirect_uri : string) : M (option TokenResponse) :=
  (* Validate client *)
  client <- validate_client client_id client_secret ;;
  match client with
  | None => ret None
  | Some _ =>
  (* Look up the authorization code *)
  rows <- select_where codes
            (fun a => String.eqb (ac_code a) code
                      && String.eqb (ac_client_id a) client_id
                      && is_none (ac_deleted_at a)) ;;
  auth_code <- scalar_one_or_none rows ;;
  match auth_code with
  | None => ret None
  | Some (i, auth_code) =>
  (* Check expiration *)
  now <- utcnow ;;
  if ac_expires_at auth_code <? now then
    t <- utcnow ;;
    modify (fun d => with_codes (update_nth i (set_code_deleted_at t) (codes d)) d) ;;;
    commit ;;;
    ret None
  else
  (* Verify PKCE *)
  if negb (_verify_pkce_s256 code_verifier (ac_code_challenge auth_code)) then ret None
  else
  (* Verify redirect_uri matches *)
  if negb (String.eqb (ac_redirect_uri auth_code) redirect_uri) then ret None
  else
  (* Consume the code (one-time use) *)
  t <- utcnow ;;
  modify (fun d => with_codes (update_nth i (set_code_deleted_at t) (codes d)) d) ;;;
  (* Issue tokens *)
  '(access_token, access_hash) <- _generate_token ACCESS_TOKEN_PREFIX ;;
  '(refresh_token, refresh_hash) <- _generate_token REFRESH_TOKEN_PREFIX ;;
  t1 <- utcnow ;;
  t2 <- utcnow ;;
  let token_record :=
    mkToken access_hash client_id (ac_user_id auth_code) (ac_organization_id auth_code)
            (ac_scope auth_code) (t1 + ACCESS_TOKEN_LIFETIME)
            (Some refresh_hash) (Some (t2 + REFRESH_TOKEN_LIFETIME)) None in
  modify (fun d => with_tokens (tokens d ++ [token_record]) d) ;;;
  commit ;;;
  ret (Some (mkTokenResponse access_token "Bearer" (total_seconds ACCESS_TOKEN_LIFETIME)
                             refresh_token (ac_scope auth_code)))
  end
  end.

Definition refresh_access_token (refresh_token client_id : string)
    (client_secret : option string) : M (option TokenResponse) :=
  (* Validate client *)
  client <- validate_client client_id client_secret ;;
  match client with
  | None => ret None
  | Some _ =>
  let refresh_hash := _hash refresh_token in
  rows <- select_where tokens
            (fun k => match tk_refresh_token_hash k with
                      | Some h => String.eqb h refresh_hash
                      | None => false
                      end
                      && String.eqb (tk_client_id k) client_id
                      && is_none (tk_deleted_at k)) ;;
  token_record <- scalar_one_or_none rows ;;
  match token_record with
  | None => ret None
  | Some (i, token_record) =>
  (* Check refresh token expiration *)
  expired <- match tk_refresh_expires_at token_record with
             | Some e => now <- utcnow ;; ret (e <? now)
             | None => ret false
             end ;;
  if (expired : bool) then ret None
  else
  (* Invalidate old access token *)
  t <- utcnow ;;
  modify (fun d => with_tokens (update_nth i (set_token_deleted_at t) (tokens d)) d) ;;;
  (* Issue new tokens *)
  '(new_access, new_access_hash) <- _generate_token ACCESS_TOKEN_PREFIX ;;
  '(new_refresh, new_refresh_hash) <- _generate_token REFRESH_TOKEN_PREFIX ;;
  t1 <- utcnow ;;
  t2 <- utcnow ;;
  let new_record :=
    mkToken new_access_hash client_id (tk_user_id token_record)
            (tk_organization_id token_record) (tk_scope token_record)
            (t1 + ACCESS_TOKEN_LIFETIME)
            (Some new_refresh_hash) (Some (t2 + REFRESH_TOKEN_LIFETIME)) None in
  modify (fun d => with_tokens (tokens d ++ [new_record]) d) ;;;
  commit ;;;
  ret (Some (mkTokenResponse new_access "Bearer" (total_seconds ACCESS_TOKEN_LIFETIME)
                             new_refresh (tk_scope token_record)))
  end
  end.

Definition validate_access_token (token : string) : M (option (User * Organization)) :=
  if negb (startswith token ACCESS_TOKEN_PREFIX) then ret None
  else
  let token_hash := _hash token in
  rows <- select_where tokens
            (fun k => String.eqb (tk_token_hash k) token_hash && is_none (tk_deleted_at k)) ;;
  token_record <- scalar_one_or_none rows ;;
  match token_record with
  | None => ret None
  | Some (_, token_record) =>
  now <- utcnow ;;
  if tk_expires_at token_record <? now then ret None
  else
  (* Load user and organization *)
  user <- read (fun d => users d (tk_user_id token_record)) ;;
  match user with
  | None => ret None
  | Some user =>
  org <- read (fun d => organizations d (tk_organization_id token_record)) ;;
  match org with
  | None => ret None
  | Some org => ret (Some (user, org))
  end
  end
  end.

(* ================================================================== *)
(** * routes/oauth_server.py: the token endpoint                       *)
(* ================================================================== *)

Inductive TokenBody : Type :=
| ErrorBody (error : string) (error_description : option string)
| TokenOk (r : TokenResponse).

Record JSONResponse := mkJSONResponse
  { status_code : Z;
    content : TokenBody }.

(** [not x] for an optional form field. *)
Definition missing (o : option string) : bool :=
  match o with
  | None => true
  | Some s => String.eqb s ""
  end.

Definition field (o : option string) : string :=
  match o with Some s => s | None => "" end.

Definition token_endpoint (grant_type : string) (code redirect_uri : option string)
    (client_id : string) (client_secret code_verifier refresh_token : option string)
  : M JSONResponse :=
  if String.eqb grant_type "authorization_code" then
    if missing code || missing code_verifier || missing redirect_uri then
      ret (mkJSONResponse 400
             (ErrorBody "invalid_request"
                        (Some "Missing code, code_verifier, or redirect_uri")))
    else
      result <- exchange_code (field code) client_id client_secret
                              (field code_verifier) (field redirect_uri) ;;
      match result with
      | None =>
          ret (mkJSONResponse 400
                 (ErrorBody "invalid_grant" (Some "Invalid or expired authorization code")))
      | Some r => ret (mkJSONResponse 200 (TokenOk r))
      end
  else if String.eqb grant_type "refresh_token" then
    if missing refresh_token then
      ret (mkJSONResponse 400 (ErrorBody "invalid_request" (Some "Missing refresh_token")))
    else
      result <- refresh_access_token (field refresh_token) client_id client_secret ;;
      match result with
      | None =>
          ret (mkJSONResponse 400
                 (ErrorBody "invalid_grant" (Some "Invalid or expired refresh token")))
      | Some r => ret (mkJSONResponse 200 (TokenOk r))
      end
  else
    ret (mkJSONResponse 400 (ErrorBody "unsupported_grant_type" None)).

(* ================================================================== *)
(** * Python values and json.dumps                                     *)
(* ================================================================== *)

(** The values that travel through the JSON-RPC gateway. [PyObject] stands
    for an object of a type the JSON encoder does not know ([bytes], [set],
    [datetime], ...), named by its type. *)
#[local] Unset Elimination Schemes.
Inductive PyVal : Type :=
| PyNone
| PyBool (b : bool)
| PyInt (z : Z)
| PyStr (s : string)
| PyList (l : list PyVal)
| PyDict (items : list (string * PyVal))
| PyObject (type_name : string).
#[local] Set Elimination Schemes.

Module Json.

Definition hex4 (n : Z) : list Z :=
  map byte_of_ascii
      [hex_digit (n / 4096 mod 16); hex_digit (n / 256 mod 16);
       hex_digit (n / 16 mod 16); hex_digit (n mod 16)].

Definition backslash : Z := 92.

Definition u_escape (n : Z) : list Z := [backslash; 117] ++ hex4 n.

(** One code point under [ensure_ascii]: the short escapes, printable
    ASCII as it is, [\uXXXX] otherwise (a surrogate pair above the BMP). *)
Definition escape_cp (n : Z) : list Z :=
  if n =? 34 then [backslash; 34]
  else if n =? 92 then [backslash; backslash]
  else if n =? 10 then [backslash; 110]
  else if n =? 13 then [backslash; 114]
  else if n =? 9 then [backslash; 116]
  else if n =? 8 then [backslash; 98]
  else if n =? 12 then [backslash; 102]
  else if (32 <=? n) && (n <=? 126) then [n]
  else if n <? 65536 then u_escape n
  else
    let m := n - 65536 in
    u_escape (Z.lor 55296 (Z.land (Z.shiftr m 10) 1023))
    ++ u_escape (Z.lor 56320 (Z.land m 1023)).

Definition cont (b : Z) : Z := Z.land b 63.

(** Walks the UTF-8 bytes of a [str], one code point at a time. *)
Fixpoint escape_utf8 (bs : list Z) : list Z :=
  match bs with
  | [] => []
  | b :: rest =>
      if b <? 128 then escape_cp b ++ escape_utf8 rest
      else if b <? 224 then
        match rest with
        | b1 :: rest1 =>
            escape_cp (Z.land b 31 * 64 + cont b1) ++ escape_utf8 rest1
        | [] => []
        end
      else if b <? 240 then
        match rest with
        | b1 :: b2 :: rest2 =>
            escape_cp (Z.land b 15 * 4096 + cont b1 * 64 + cont b2) ++ escape_utf8 rest2
        | _ => []
        end
      else
        match rest with
        | b1 :: b2 :: b3 :: rest3 =>
            escape_cp (Z.land b 7 * 262144 + cont b1 * 4096 + cont b2 * 64 + cont b3)
            ++ escape_utf8 rest3
        | _ => []
        end
  end.

Definition quote (s : string) : string :=
  decode ([34] ++ escape_utf8 (encode s) ++ [34]).

Fixpoint digits (fuel : nat) (n : Z) (acc : list Z) : list Z :=
  match fuel with
  | O => acc
  | S fuel' =>
      let acc' := (48 + n mod 10) :: acc in
      if n <? 10 then acc' else digits fuel' (n / 10) acc'
  end.

(** [str(int)]. *)
Definition decimal (z : Z) : string :=
  let body := digits (S (Z.to_nat (Z.log2 (Z.abs z)))) (Z.abs z) [] in
  decode (if z <? 0 then 45 :: body else body).

Fixpoint join (sep : string) (l : list string) : string :=
  match l with
  | [] => ""
  | [x] => x
  | x :: l' => (x ++ sep ++ join sep l')%string
  end.

(** The result of [json.dumps]: the text, or the message of the
    [TypeError] it raises. *)
Definition not_serializable (type_name : string) : string :=
  ("Object of type " ++ type_name ++ " is not JSON serializable")%string.

Fixpoint dumps (v : PyVal) : string + string :=
  match v with
  | PyNone => inl "null"
  | PyBool true => inl "true"
  | PyBool false => inl "false"
  | PyInt z => inl (decimal z)
  | PyStr s => inl (quote s)
  | PyList l =>
      let fix each (l : list PyVal) : list string + string :=
        match l with
        | [] => inl []
        | x :: l' =>
            match dumps x with
            | inr e => inr e
            | inl t => match each l' with
                       | inr e => inr e
                       | inl ts => inl (t :: ts)
                       end
            end
        end in
      match each l with
      | inr e => inr e
      | inl ts => inl ("[" ++ join ", " ts ++ "]")%string
      end
  | PyDict items =>
      let fix each (l : list (string * PyVal)) : list string + string :=
        match l with
        | [] => inl []
        | (k, x) :: l' =>
            match dumps x with
            | inr e => inr e
            | inl t => match each l' with
                       | inr e => inr e
                       | inl ts => inl ((quote k ++ ": " ++ t)%string :: ts)
                       end
            end
        end in
      match each items with
      | inr e => inr e
      | inl ts => inl ("{" ++ join ", " ts ++ "}")%string
      end
  | PyObject type_name => inr (not_serializable type_name)
  end.

End Json.

(* ================================================================== *)
(** * routes/mcp.py: the auth dispatcher                               *)
(* ================================================================== *)

Record HTTPException := mkHTTPException
  { exc_status_code : Z;
    exc_detail : string;
    exc_headers : list (string * string) }.

(** What the dispatcher reads of the request. [req_authorization] is the
    Authorization header when present. *)
Record Request := mkRequest
  { req_authorization : option string;
    req_url_scheme : string;
    req_url_netloc : string }.

(** What the routes read of the [settings] object of settings/config.py:
    the attribute [bow_config] and its [base_url]. [bow_config] is [None]
    when the object has no such attribute, and reading it then raises
    AttributeError. *)
Record BowConfig := mkBowConfig
  { bc_base_url : option string }.

Record Settings := mkSettings
  { bow_config : option BowConfig }.

(** The [Settings] class as settings/config.py declares it: [app_config],
    [email_client] and the project constants, no [bow_config]; [load]
    passes [app_config] only, to the subclass of the environment. A
    settings object that has the attribute is [mkSettings (Some c)]. *)
Definition declared_settings : Settings := mkSettings None.

(** [settings.bow_config.base_url]. *)
Definition bow_config_base_url (settings : Settings) : outcome (option string) :=
  match bow_config settings with
  | Some c => Return (bc_base_url c)
  | None => Raise AttributeError
  end.

(** The interfaces consumed from outside the core: the organization
    selector (which raises an HTTPException when it cannot select), the
    API-key service and the settings object. *)
Record AuthEnv := mkAuthEnv
  { get_current_organization : Request -> Db -> HTTPException + Organization;
    get_user_by_api_key : Db -> string -> option User;
    get_organization_by_api_key : Db -> string -> option Organization;
    settings : Settings }.

Definition rstrip_str (c : ascii) (s : string) : string :=
  decode (rstrip (byte_of_ascii c) (encode s)).

Definition _resource_metadata_url (env : AuthEnv) (request : Request) : outcome string :=
  match bow_config_base_url (settings env) with
  | Raise e => Raise e
  | Return configured =>
      let base :=
        match configured with
        | Some configured =>
            if negb (String.eqb configured "")
               && negb (String.eqb configured "http://0.0.0.0:3000")
            then rstrip_str "/" configured
            else (req_url_scheme request ++ "://" ++ req_url_netloc request)%string
        | None => (req_url_scheme request ++ "://" ++ req_url_netloc request)%string
        end in
      Return (base ++ "/.well-known/oauth-protected-resource")%string
  end.

(** Where a credential was read from. *)
Inductive KeySource : Type := XApiKeyHeader | BearerHeader.

(** The calls the dispatcher makes to resolve a credential, in the order
    it makes them. *)
Inductive Attempt : Type :=
| SessionOrganization (u : User)                  (* get_current_organization *)
| ApiKeyUser (src : KeySource) (key : string)     (* get_user_by_api_key *)
| ApiKeyOrganization (src : KeySource) (key : string)
| OAuthValidation (token : string).               (* validate_access_token *)

(** The scheme an attempt belongs to: 1 session, 2 API-key header,
    3 Authorization: Bearer. *)
Definition scheme_of (a : Attempt) : nat :=
  match a with
  | SessionOrganization _ => 1
  | ApiKeyUser XApiKeyHeader _ | ApiKeyOrganization XApiKeyHeader _ => 2
  | ApiKeyUser BearerHeader _ | ApiKeyOrganization BearerHeader _ => 3
  | OAuthValidation _ => 3
  end%nat.

Definition Principal : Type := User * Organization.

(** The API-key lookup written out twice in [mcp_auth] (steps 2 and 3b). *)
Definition api_key_lookup (env : AuthEnv) (src : KeySource) (key : string)
  : M (option Principal * list Attempt) :=
  user <- read (fun d => get_user_by_api_key env d key) ;;
  match user with
  | Some user =>
      org <- read (fun d => get_organization_by_api_key env d key) ;;
      match org with
      | Some org => ret (Some (user, org), [ApiKeyUser src key; ApiKeyOrganization src key])
      | None => ret (None, [ApiKeyUser src key; ApiKeyOrganization src key])
      end
  | None => ret (None, [ApiKeyUser src key])
  end.

Definition is_api_key (s : string) : bool :=
  startswith s "bow_" && negb (startswith s "bow_oauth_").

(** The HTTPException of the failure path, for the resource URL. *)
Definition not_authenticated (resource_url : string) : HTTPException :=
  mkHTTPException 401 "Not authenticated"
    [("WWW-Authenticate",
      ("Bearer resource_metadata=" ++ String (ascii_of_byte 34) resource_url
       ++ String (ascii_of_byte 34) "")%string)].

(** Steps 1 to 3 of [mcp_auth]: the pair (user, organization) of the first
    scheme that resolves both, or [None] when the code falls through to its
    last lines; together with the attempts made. *)
Definition mcp_auth_attempts (env : AuthEnv) (request : Request)
    (jwt_user : option User) (api_key : option string)
  : M (option Principal * list Attempt) :=
  (* 1. Try JWT *)
  '(r1, t1) <- match jwt_user with
               | Some u =>
                   org <- read (get_current_organization env request) ;;
                   match org with
                   | inr org => ret (Some (u, org), [SessionOrganization u])
                   | inl _ => ret (None, [SessionOrganization u])   (* except HTTPException: pass *)
                   end
               | None => ret (None, [])
               end ;;
  match r1 with
  | Some p => ret (Some p, t1)
  | None =>
  (* 2. Try API key from X-API-Key header *)
  '(r2, t2) <- (if negb (missing api_key) && is_api_key (field api_key)
                then api_key_lookup env XApiKeyHeader (field api_key)
                else ret (None, [])) ;;
  match r2 with
  | Some p => ret (Some p, t1 ++ t2)
  | None =>
  (* 3. Try Bearer token from Authorization header *)
  let auth_header := field (req_authorization request) in
  '(r3, t3) <- (if startswith auth_header "Bearer " then
                  let token := substring 7 (String.length auth_header - 7) auth_header in
                  (* 3a. OAuth access token *)
                  '(ra, ta) <- (if startswith token "bow_oauth_"
                                then result <- validate_access_token token ;;
                                     ret (result, [OAuthValidation token])
                                else ret (None, [])) ;;
                  match ra with
                  | Some p => ret (Some p, ta)
                  | None =>
                      (* 3b. API key via Bearer *)
                      '(rb, tb) <- (if is_api_key token
                                    then api_key_lookup env BearerHeader token
                                    else ret (None, [])) ;;
                      ret (rb, ta ++ tb)
                  end
                else ret (None, [])) ;;
  ret (r3, t1 ++ t2 ++ t3)
  end
  end.

(** [mcp_auth]: the pair (user, organization), or the 401 built from the
    resource metadata URL; reading the URL may itself raise. The attempts
    made are returned with the result. *)
Definition mcp_auth (env : AuthEnv) (request : Request)
    (jwt_user : option User) (api_key : option string)
  : M ((HTTPException + Principal) * list Attempt) :=
  '(r, trace) <- mcp_auth_attempts env request jwt_user api_key ;;
  match r with
  | Some p => ret (inr p, trace)
  | None =>
      (* No valid auth: 401 with OAuth metadata *)
      resource_url <- lift (_resource_metadata_url env request) ;;
      ret (inl (not_authenticated resource_url), trace)
  end.

(* ================================================================== *)
(** * routes/mcp.py: the JSON-RPC gateway                              *)
(* ================================================================== *)

Definition MCP_PROTOCOL_VERSION : string := "2025-06-18".

Definition mcp_disabled : HTTPException :=
  mkHTTPException 403 "MCP integration is not enabled for this organization" [].

(** [_check_mcp_enabled]: [None] when it returns, the 403 when it raises. *)
Definition _check_mcp_enabled (organization : Organization) : option HTTPException :=
  match org_settings organization with
  | None => Some mcp_disabled
  | Some mcp_config =>
      match mcp_config with
      | Some true => None
      | _ => Some mcp_disabled
      end
  end.

Record McpResponse := mkMcpResponse
  { mcp_content : PyVal;
    mcp_status_code : Z;
    mcp_headers : list (string * string) }.

Definition _mcp_response (content : PyVal) : McpResponse :=
  mkMcpResponse content 200 [("MCP-Protocol-Version", MCP_PROTOCOL_VERSION)].

Record JsonRpcRequest := mkJsonRpcRequest
  { rpc_jsonrpc : string;
    rpc_id : option (string + Z);
    rpc_method : string;
    rpc_params : option (list (string * PyVal)) }.

Definition id_value (id : option (string + Z)) : PyVal :=
  match id with
  | None => PyNone
  | Some (inl s) => PyStr s
  | Some (inr n) => PyInt n
  end.

Definition jsonrpc_response (id : PyVal) (result : PyVal) : PyVal :=
  PyDict [("jsonrpc", PyStr "2.0"); ("id", id); ("result", result)].

Definition jsonrpc_error (id : PyVal) (code : Z) (message : string) : PyVal :=
  PyDict [("jsonrpc", PyStr "2.0"); ("id", id);
          ("error", PyDict [("code", PyInt code); ("message", PyStr message)])].

(** What [raw_request.json()] and the [JsonRpcRequest] constructor make of the
    request body: either raises with a message, or the request is built. *)
Inductive ParsedBody : Type :=
| JsonFailure (str_e : string)
| ValidationFailure (str_e : string)
| Parsed (request : JsonRpcRequest).

(** What [await tool.execute(...)] does: returns a value or raises an
    [Exception] whose [str] is [str_e]. *)
Inductive ToolOutcome : Type :=
| ToolReturn (result : PyVal)
| ToolRaise (str_e : string).

Record Tool := mkTool
  { execute : PyVal -> User -> Organization -> World -> ToolOutcome * World }.

Record ToolInfo := mkToolInfo
  { tool_name : PyVal;
    tool_description : PyVal;
    tool_input_schema : PyVal }.

(** The tool registry, and [str()] as the f-strings of the gateway apply it
    to a tool name. *)
Record McpEnv := mkMcpEnv
  { get_mcp_tool : PyVal -> option Tool;
    list_mcp_tools : list ToolInfo;
    format_value : PyVal -> string }.

Fixpoint dict_get (key : string) (items : list (string * PyVal)) : option PyVal :=
  match items with
  | [] => None
  | (k, v) :: rest => if String.eqb k key then Some v else dict_get key rest
  end.

(** [not v]. *)
Definition falsy (v : PyVal) : bool :=
  match v with
  | PyNone => true
  | PyBool b => negb b
  | PyInt z => z =? 0
  | PyStr s => String.eqb s ""
  | PyList l => match l with [] => true | _ => false end
  | PyDict l => match l with [] => true | _ => false end
  | PyObject _ => false
  end.

Definition text_content (text : string) (is_error : bool) : PyVal :=
  PyDict [("content", PyList [PyDict [("type", PyStr "text"); ("text", PyStr text)]]);
          ("isError", PyBool is_error)].

Definition server_info : PyVal :=
  PyDict [("protocolVersion", PyStr MCP_PROTOCOL_VERSION);
          ("serverInfo", PyDict [("name", PyStr "bagofwords"); ("version", PyStr "1.0.0")]);
          ("capabilities", PyDict [("tools", PyDict [])])].

(** [mcp_endpoint] (POST /mcp). The result is the HTTPException of
    [_check_mcp_enabled] or the JSON response. *)
Definition mcp_endpoint (env : McpEnv) (body : ParsedBody) (auth : Principal)
  : World -> (HTTPException + McpResponse) * World :=
  fun w =>
  let (user, organization) := auth in
  match _check_mcp_enabled organization with
  | Some exc => (inl exc, w)
  | None =>
  match body with
  | JsonFailure e =>
      (inr (_mcp_response (jsonrpc_error PyNone (-32700) ("Parse error: " ++ e)%string)), w)
  | ValidationFailure e =>
      (inr (_mcp_response (jsonrpc_error PyNone (-32600) ("Invalid request: " ++ e)%string)), w)
  | Parsed request =>
      let id := id_value (rpc_id request) in
      if String.eqb (rpc_method request) "initialize" then
        (inr (_mcp_response (jsonrpc_response id server_info)), w)
      else if String.eqb (rpc_method request) "tools/list" then
        let mcp_tools :=
          map (fun tool => PyDict [("name", tool_name tool);
                                   ("description", tool_description tool);
                                   ("inputSchema", tool_input_schema tool)])
              (list_mcp_tools env) in
        (inr (_mcp_response (jsonrpc_response id (PyDict [("tools", PyList mcp_tools)]))), w)
      else if String.eqb (rpc_method request) "tools/call" then
        (* request.params or {}: None and the empty dict both give {} *)
        let params :=
          match rpc_params request with
          | Some p => p
          | None => []
          end in
        let tool_name := match dict_get "name" params with Some v => v | None => PyNone end in
        let arguments :=
          match dict_get "arguments" params with Some v => v | None => PyDict [] end in
        if falsy tool_name then
          (inr (_mcp_response (jsonrpc_error id (-32602) "Missing tool name")), w)
        else
          match get_mcp_tool env tool_name with
          | None =>
              (inr (_mcp_response
                      (jsonrpc_error id (-32602)
                         ("Unknown tool: " ++ format_value env tool_name)%string)), w)
          | Some tool =>
              (* try: *)
              match execute tool arguments user organization w with
              | (ToolReturn result, w') =>
                  match Json.dumps result with
                  | inl text =>
                      (inr (_mcp_response (jsonrpc_response id (text_content text false))), w')
                  | inr str_e =>
                      (* except Exception as e: raised by json.dumps *)
                      (inr (_mcp_response (jsonrpc_response id (text_content str_e true))), w')
                  end
              | (ToolRaise str_e, w') =>
                  (* except Exception as e: *)
                  (inr (_mcp_response (jsonrpc_response id (text_content str_e true))), w')
              end
          end
      else
        (inr (_mcp_response
                (jsonrpc_error id (-32601)
                   ("Method not found: " ++ rpc_method request)%string)), w)
  end
  end.

(* ================================================================== *)
(** * Requests, and the vocabulary of the properties                   *)
(* ================================================================== *)

(** Every request works on a session of its own (the [get_async_db]
    dependency): what was not committed is gone when it ends. *)
Definition end_request (w : World) : World := with_session (committed w) w.

(** The operations of the service a request can reach. *)
Inductive ServiceCall : Type :=
| CreateClient (organization_id name : string) (redirect_uris : option (list string))
| DeleteClient (client_db_id organization_id : string)
| RotateClientSecret (client_db_id organization_id : string)
| CreateAuthorizationCode
    (client_id user_id organization_id redirect_uri scope code_challenge : string)
| ExchangeCode (code client_id : string) (client_secret : option string)
               (code_verifier redirect_uri : string)
| RefreshAccessToken (refresh_token client_id : string) (client_secret : option string)
| ValidateAccessToken (token : string).

Definition serve (c : ServiceCall) (w : World) : World :=
  end_request
    match c with
    | CreateClient o n u => snd (create_client o n u w)
    | DeleteClient i o => snd (delete_client i o w)
    | RotateClientSecret i o => snd (rotate_client_secret i o w)
    | CreateAuthorizationCode c u o r s ch => snd (create_authorization_code c u o r s ch w)
    | ExchangeCode c cid sec v r => snd (exchange_code c cid sec v r w)
    | RefreshAccessToken rt cid sec => snd (refresh_access_token rt cid sec w)
    | ValidateAccessToken t => snd (validate_access_token t w)
    end.

Definition run (calls : list ServiceCall) (w : World) : World :=
  fold_left (fun w c => serve c w) calls w.

(** A request starts on a clean session over a store that satisfies its
    unique indexes. *)
Definition wf (w : World) : Prop :=
  unique_ok (committed w) = true /\ session w = committed w.

(** Requests in flight at once. The service is asynchronous: a request
    is suspended at each [await] (the reads through [db.execute], the
    [db.commit]) and another may run meanwhile, on a session of its own.
    [in_flight w0 w] is the world in which a request resumes that made its
    reads at [w0] while another request went from [w0] to [w] and
    committed: the store, the clock and the CSPRNG are those of [w], the
    rows the request holds are those it loaded at [w0]. *)
Definition in_flight (w0 w : World) : World :=
  mkWorld (committed w) (session w0) (clock w) (ticks w) (entropy w) (draws w).

(** Two requests started on the same store, the second having read before
    the first commits. *)
Definition race {A B} (first : M A) (second : M B) (w : World)
  : outcome A * outcome B :=
  let (o1, w1) := first w in
  (o1, fst (second (in_flight w w1))).

(** What the store holds once a request in flight has committed too: its
    writes, made on the rows it had loaded, are applied to the store as the
    other request left it. For an exchange these are the UPDATE of the
    code row by primary key and the INSERT of the token row. *)
Definition exchange_writes (i : nat) (t : datetime) (k : OAuthMCPAccessToken) (d : Db)
  : Db :=
  let d' := with_codes (update_nth i (set_code_deleted_at t) (codes d)) d in
  with_tokens (tokens d' ++ [k]) d'.

(** The code has a tombstoned record. *)
Definition consumed (d : Db) (code : string) : Prop :=
  exists a, In a (codes d) /\ ac_code a = code /\ ac_deleted_at a <> None.

(** Condition 1 of the exchange: the client is live and, when a secret is
    given, its hash matches. *)
Definition client_validates (d : Db) (client_id : string) (client_secret : option string)
  : Prop :=
  exists c, In c (clients d) /\ cl_client_id c = client_id /\ cl_deleted_at c = None
            /\ forall s, client_secret = Some s -> _hash s = cl_client_secret_hash c.

(** Condition 2: row [i] is a live record of [code] bound to [client_id]. *)
Definition live_code (d : Db) (code client_id : string) (i : nat)
    (a : OAuthMCPAuthorizationCode) : Prop :=
  nth_error (codes d) i = Some a /\ ac_code a = code /\ ac_client_id a = client_id
  /\ ac_deleted_at a = None.

(** Condition 4, in the words of the PKCE definition: the challenge is the
    unpadded base64url text of SHA-256 of the verifier. *)
Definition pkce_s256 (code_verifier code_challenge : string) : Prop :=
  decode (Base64.b64url_nopad (Sha256.digest (encode code_verifier))) = code_challenge.

(** The five conditions of the exchange at time [now], as the code tests
    them: condition 3 is that [expires_at] is not before [now]. *)
Definition exchange_conditions (d : Db) (now : datetime) (code client_id : string)
    (client_secret : option string) (code_verifier redirect_uri : string) : Prop :=
  client_validates d client_id client_secret
  /\ exists i a, live_code d code client_id i a
                 /\ now <= ac_expires_at a
                 /\ pkce_s256 code_verifier (ac_code_challenge a)
                 /\ ac_redirect_uri a = redirect_uri.

(** The five conditions in the words of the specification: condition 3
    is [now < expires_at]. *)
Definition exchange_conditions_spec (d : Db) (now : datetime) (code client_id : string)
    (client_secret : option string) (code_verifier redirect_uri : string) : Prop :=
  client_validates d client_id client_secret
  /\ exists i a, live_code d code client_id i a
                 /\ now < ac_expires_at a
                 /\ pkce_s256 code_verifier (ac_code_challenge a)
                 /\ ac_redirect_uri a = redirect_uri.

(** The two tokens the CSPRNG is about to produce are new to the store. *)
Definition fresh_tokens (w : World) : Prop :=
  mem_string (_hash (ACCESS_TOKEN_PREFIX ++ entropy w (draws w))%string)
             (map tk_token_hash (tokens (committed w))) = false
  /\ mem_string (_hash (REFRESH_TOKEN_PREFIX ++ entropy w (S (draws w)))%string)
                (non_null (map tk_refresh_token_hash (tokens (committed w)))) = false.

(** [m] keeps the invariant [I], whatever it returns or raises. *)
Definition preserves {A} (I : World -> Prop) (m : M A) : Prop :=
  forall w, I w -> I (snd (m w)).

(** The invariant behind single use: the indexes hold and the code has a
    tombstoned record, in the store and in the session. *)
Definition spent (code : string) (w : World) : Prop :=
  unique_ok (committed w) = true
  /\ consumed (committed w) code
  /\ consumed (session w) code.

(** What makes an access token valid at [now], for the pair it resolves
    to: the prefix, a live record under its hash that [now] has not passed,
    and the referenced user and organization. *)
Definition token_valid (d : Db) (now : datetime) (token : string)
    (u : User) (o : Organization) : Prop :=
  startswith token ACCESS_TOKEN_PREFIX = true
  /\ exists k, In k (tokens d)
               /\ tk_token_hash k = _hash token
               /\ tk_deleted_at k = None
               /\ now <= tk_expires_at k
               /\ users d (tk_user_id k) = Some u
               /\ organizations d (tk_organization_id k) = Some o.

(** The schemes of a trace never go back. *)
Fixpoint in_order (l : list nat) : bool :=
  match l with
  | [] => true
  | a :: l' =>
      match l' with
      | [] => true
      | b :: _ => (a <=? b)%nat && in_order l'
      end
  end.

(** An API-key lookup made for the bearer token. *)
Definition is_bearer_api_key (a : Attempt) : bool :=
  match a with
  | ApiKeyUser BearerHeader _ | ApiKeyOrganization BearerHeader _ => true
  | _ => false
  end.

(** The response of a tool invocation, written out. *)
Definition tool_result (is_error : bool) (text : string) (id : PyVal) : McpResponse :=
  mkMcpResponse
    (PyDict [("jsonrpc", PyStr "2.0"); ("id", id);
             ("result",
              PyDict [("content", PyList [PyDict [("type", PyStr "text");
                                                  ("text", PyStr text)]]);
                      ("isError", PyBool is_error)])])
    200 [("MCP-Protocol-Version", "2025-06-18")].

(** The challenge the empty verifier hashes to. *)
Definition EMPTY_VERIFIER_CHALLENGE : string :=
  "47DEQpj8HBSa-_TImW-5JCeuQeRkm5NMpJWZG3hSuFU".

Definition invalid_grant (description : string) : JSONResponse :=
  mkJSONResponse 400 (ErrorBody "invalid_grant" (Some description)).

(** The positions attached by [enumerate], from an offset. *)
Definition enum_from {A} (n : nat) (l : list A) : list (nat * A) :=
  combine (seq n (List.length l)) l.

(** ** The outcomes of [exchange_code]

    [after d dt dn w] is the world once a request has committed [d], read
    the clock [dt] times and drawn [dn] random words. *)
Definition after (d : Db) (dt dn : nat) (w : World) : World :=
  mkWorld d d (clock w) (dt + ticks w) (entropy w) (dn + draws w).

Definition issued_token (w : World) (client_id user_id organization_id scope : string) (dt : nat)
  : OAuthMCPAccessToken :=
  mkToken (_hash (ACCESS_TOKEN_PREFIX ++ entropy w (draws w))%string)
          client_id user_id organization_id scope
          (clock w (dt + ticks w) + ACCESS_TOKEN_LIFETIME)
          (Some (_hash (REFRESH_TOKEN_PREFIX ++ entropy w (S (draws w)))%string))
          (Some (clock w (S dt + ticks w) + REFRESH_TOKEN_LIFETIME))
          None.

Definition issued_response (w : World) (scope : string) : TokenResponse :=
  mkTokenResponse (ACCESS_TOKEN_PREFIX ++ entropy w (draws w))%string "Bearer"
                  (total_seconds ACCESS_TOKEN_LIFETIME)
                  (REFRESH_TOKEN_PREFIX ++ entropy w (S (draws w)))%string scope.

Definition tombstone_code (i : nat) (t : datetime) (d : Db) : Db :=
  with_codes (update_nth i (set_code_deleted_at t) (codes d)) d.

Definition exchanged_db (w : World) (client_id : string) (i : nat) (a : OAuthMCPAuthorizationCode) : Db :=
  let d := tombstone_code i (clock w (1 + ticks w)%nat) (committed w) in
  with_tokens (tokens d ++ [issued_token w client_id (ac_user_id a) (ac_organization_id a) (ac_scope a) 2]) d.

Inductive exchange_case (w : World) (code client_id : string) (client_secret : option string)
    (code_verifier redirect_uri : string)
  : outcome (option TokenResponse) -> World -> Prop :=
| ex_bad_client :
    ~ client_validates (committed w) client_id client_secret ->
    exchange_case w code client_id client_secret code_verifier redirect_uri (Return None) w
| ex_no_code :
    client_validates (committed w) client_id client_secret ->
    (forall i a, ~ live_code (committed w) code client_id i a) ->
    exchange_case w code client_id client_secret code_verifier redirect_uri (Return None) w
| ex_expired i a :
    client_validates (committed w) client_id client_secret ->
    live_code (committed w) code client_id i a ->
    ac_expires_at a < clock w (ticks w) ->
    exchange_case w code client_id client_secret code_verifier redirect_uri (Return None)
      (after (tombstone_code i (clock w (1 + ticks w)%nat) (committed w)) 2 0 w)
| ex_bad_pkce i a :
    client_validates (committed w) client_id client_secret ->
    live_code (committed w) code client_id i a ->
    clock w (ticks w) <= ac_expires_at a ->
    _verify_pkce_s256 code_verifier (ac_code_challenge a) = false ->
    exchange_case w code client_id client_secret code_verifier redirect_uri (Return None)
      (after (committed w) 1 0 w)
| ex_bad_redirect i a :
    client_validates (committed w) client_id client_secret ->
    live_code (committed w) code client_id i a ->
    clock w (ticks w) <= ac_expires_at a ->
    _verify_pkce_s256 code_verifier (ac_code_challenge a) = true ->
    ac_redirect_uri a <> redirect_uri ->
    exchange_case w code client_id client_secret code_verifier redirect_uri (Return None)
      (after (committed w) 1 0 w)
| ex_issued i a :
    client_validates (committed w) client_id client_secret ->
    live_code (committed w) code client_id i a ->
    clock w (ticks w) <= ac_expires_at a ->
    _verify_pkce_s256 code_verifier (ac_code_challenge a) = true ->
    ac_redirect_uri a = redirect_uri ->
    unique_ok (exchanged_db w client_id i a) = true ->
    exchange_case w code client_id client_secret code_verifier redirect_uri
      (Return (Some (issued_response w (ac_scope a))))
      (after (exchanged_db w client_id i a) 4 2 w)
| ex_collision i a :
    client_validates (committed w) client_id client_secret ->
    live_code (committed w) code client_id i a ->
    clock w (ticks w) <= ac_expires_at a ->
    _verify_pkce_s256 code_verifier (ac_code_challenge a) = true ->
    ac_redirect_uri a = redirect_uri ->
    unique_ok (exchanged_db w client_id i a) = false ->
    exchange_case w code client_id client_secret code_verifier redirect_uri
      (Raise IntegrityError) (after (committed w) 4 2 w).

(* ================================================================== *)
(** * The rest of the service and of the routes                        *)
(* ================================================================== *)

Record ClientInfo := mkClientInfo
  { ci_client_id : string;
    ci_name : string }.

(** [get_client_info]: public info about a client, for the consent screen. *)
Definition get_client_info (client_id : string) : M (option ClientInfo) :=
  rows <- select_where clients
            (fun c => String.eqb (cl_client_id c) client_id && is_none (cl_deleted_at c)) ;;
  client <- scalar_one_or_none rows ;;
  match client with
  | None => ret None
  | Some (_, c) => ret (Some (mkClientInfo (cl_client_id c) (cl_name c)))
  end.

(** [x in s] for a one-character [x]. *)
Fixpoint contains_char (c : ascii) (s : string) : bool :=
  match s with
  | EmptyString => false
  | String c' s' => Ascii.eqb c' c || contains_char c s'
  end.

Definition bad_request (detail : string) : HTTPException :=
  mkHTTPException 400 detail [].

Definition not_found (detail : string) : HTTPException :=
  mkHTTPException 404 detail [].

(** The JSON body of POST /oauth/authorize, its members strings; [None] is
    an absent key. *)
Record AuthorizeBody := mkAuthorizeBody
  { body_client_id : option string;
    body_redirect_uri : option string;
    body_state : option string;
    body_scope : option string;
    body_code_challenge : option string;
    body_code_challenge_method : option string }.

(** [authorize_approve]: the redirect URL, or the HTTPException raised. *)
Definition authorize_approve (body : AuthorizeBody) (user : User)
    (organization : Organization) : M (HTTPException + string) :=
  let client_id := body_client_id body in
  let redirect_uri := body_redirect_uri body in
  let state := body_state body in
  let scope := match body_scope body with Some s => s | None => "mcp" end in
  let code_challenge := body_code_challenge body in
  let code_challenge_method :=
    match body_code_challenge_method body with Some m => m | None => "S256" end in
  if missing client_id || missing redirect_uri || missing code_challenge then
    ret (inl (bad_request "Missing required parameters"))
  else if negb (String.eqb code_challenge_method "S256") then
    ret (inl (bad_request "Only S256 code_challenge_method is supported"))
  else
    (* Validate client *)
    client <- validate_client (field client_id) None ;;
    match client with
    | None => ret (inl (bad_request "Invalid client_id"))
    | Some client =>
        (* Validate redirect_uri *)
        if negb (validate_redirect_uri client (field redirect_uri)) then
          ret (inl (bad_request "Invalid redirect_uri"))
        else
          (* Create authorization code *)
          code <- create_authorization_code (field client_id) (user_id user)
                    (org_id organization) (field redirect_uri) scope
                    (field code_challenge) ;;
          (* Build callback URL *)
          let callback := field redirect_uri in
          let separator := if contains_char "?" callback then "&" else "?" in
          let callback := (callback ++ separator ++ "code=" ++ code)%string in
          let callback :=
            if negb (missing state)
            then (callback ++ "&state=" ++ field state)%string
            else callback in
          ret (inr callback)
    end.

(** The routes of routes/oauth_server.py whose names the service also
    uses. *)
Module OAuthRoutes.

(** [_base_url]: the configured public URL, or the origin of the request;
    AttributeError when [settings] has no [bow_config]. *)
Definition _base_url (settings : Settings) (request : Request) : outcome string :=
  match bow_config_base_url settings with
  | Raise e => Raise e
  | Return configured =>
      match configured with
      | Some configured =>
          if negb (String.eqb configured "")
             && negb (String.eqb configured "http://0.0.0.0:3000")
          then Return (rstrip_str "/" configured)
          else Return (req_url_scheme request ++ "://" ++ req_url_netloc request)%string
      | None => Return (req_url_scheme request ++ "://" ++ req_url_netloc request)%string
      end
  end.

(** [protected_resource_metadata] (RFC 9728). *)
Definition protected_resource_metadata (settings : Settings) (request : Request)
  : outcome PyVal :=
  match _base_url settings request with
  | Raise e => Raise e
  | Return base =>
      Return (PyDict [("resource", PyStr (base ++ "/api/mcp"));
                      ("authorization_servers", PyList [PyStr base]);
                      ("scopes_supported", PyList [PyStr "mcp"; PyStr "claudeai"])])
  end.

(** [authorization_server_metadata] (RFC 8414). *)
Definition authorization_server_metadata (settings : Settings) (request : Request)
  : outcome PyVal :=
  match _base_url settings request with
  | Raise e => Raise e
  | Return base =>
      Return (PyDict [("issuer", PyStr base);
                      ("authorization_endpoint", PyStr (base ++ "/authorize"));
                      ("token_endpoint", PyStr (base ++ "/api/oauth/token"));
                      ("response_types_supported", PyList [PyStr "code"]);
                      ("grant_types_supported",
                       PyList [PyStr "authorization_code"; PyStr "refresh_token"]);
                      ("code_challenge_methods_supported", PyList [PyStr "S256"]);
                      ("token_endpoint_auth_methods_supported",
                       PyList [PyStr "client_secret_post"; PyStr "none"]);
                      ("scopes_supported", PyList [PyStr "mcp"; PyStr "claudeai"])])
  end.

(** GET /oauth/clients/{client_id}/info. *)
Definition get_client_info (client_id : string) : M (HTTPException + ClientInfo) :=
  info <- get_client_info client_id ;;
  match info with
  | None => ret (inl (not_found "Client not found"))
  | Some info => ret (inr info)
  end.

(** DELETE /oauth/clients/{client_db_id}; [inr tt] is the body with ok
    true. *)
Definition delete_client (client_db_id : string) (organization : Organization)
  : M (HTTPException + unit) :=
  deleted <- delete_client client_db_id (org_id organization) ;;
  if (deleted : bool) then ret (inr tt)
  else ret (inl (not_found "Client not found")).

(** POST /oauth/clients/{client_db_id}/rotate. *)
Definition rotate_client_secret (client_db_id : string) (organization : Organization)
  : M (HTTPException + SecretRotated) :=
  result <- rotate_client_secret client_db_id (org_id organization) ;;
  match result with
  | None => ret (inl (not_found "Client not found"))
  | Some r => ret (inr r)
  end.

End OAuthRoutes.

(** [mcp_get_endpoint] (GET /mcp): the server info. *)
Definition mcp_get_endpoint (auth : Principal) : HTTPException + McpResponse :=
  let (_, organization) := auth in
  match _check_mcp_enabled organization with
  | Some exc => inl exc
  | None => inr (_mcp_response (PyDict [("jsonrpc", PyStr "2.0"); ("result", server_info)]))
  end.

(** [get_tools_rest] (GET /mcp/tools): the body is the dict whose one key,
    tools, holds the registry as [list_mcp_tools] gives it. *)
Definition get_tools_rest (env : McpEnv) (auth : Principal)
  : HTTPException + list ToolInfo :=
  let (_, organization) := auth in
  match _check_mcp_enabled organization with
  | Some exc => inl exc
  | None => inr (list_mcp_tools env)
  end.

(* ================================================================== *)
(** * Vocabulary of the further properties                             *)
(* ================================================================== *)

(** The changes the service makes to the session: it adds a row, sets a
    [deleted_at], or replaces a client's secret hash. *)
Inductive Mutation : (Db -> Db) -> Prop :=
| mut_add_client c :
    Mutation (fun d => with_clients (clients d ++ [c]) d)
| mut_tombstone_client i t :
    Mutation (fun d => with_clients (update_nth i (set_client_deleted_at t) (clients d)) d)
| mut_rotate_secret i h :
    Mutation (fun d => with_clients (update_nth i (set_client_secret_hash h) (clients d)) d)
| mut_add_code a :
    Mutation (fun d => with_codes (codes d ++ [a]) d)
| mut_tombstone_code i t :
    Mutation (fun d => with_codes (update_nth i (set_code_deleted_at t) (codes d)) d)
| mut_add_token k :
    Mutation (fun d => with_tokens (tokens d ++ [k]) d)
| mut_tombstone_token i t :
    Mutation (fun d => with_tokens (update_nth i (set_token_deleted_at t) (tokens d)) d).

(** [P] survives every change the service makes. *)
Definition stable (P : Db -> Prop) : Prop :=
  forall f, Mutation f -> forall d, P d -> P (f d).

(** The unique indexes hold in the store, and [P] holds of the store and
    of the session. *)
Definition inv (P : Db -> Prop) (w : World) : Prop :=
  unique_ok (committed w) = true /\ P (committed w) /\ P (session w).

(** A row and what it may become: only [deleted_at] changes (for a client,
    also the secret hash), and a [deleted_at] once set stays set. *)
Definition client_kept (c c' : OAuthMCPClient) : Prop :=
  cl_id c' = cl_id c /\ cl_organization_id c' = cl_organization_id c
  /\ cl_client_id c' = cl_client_id c /\ cl_name c' = cl_name c
  /\ cl_redirect_uris c' = cl_redirect_uris c /\ cl_scopes c' = cl_scopes c
  /\ (cl_deleted_at c <> None -> cl_deleted_at c' <> None).

Definition code_kept (a a' : OAuthMCPAuthorizationCode) : Prop :=
  (a' = a \/ exists t, a' = set_code_deleted_at t a)
  /\ (ac_deleted_at a <> None -> ac_deleted_at a' <> None).

Definition token_kept (k k' : OAuthMCPAccessToken) : Prop :=
  (k' = k \/ exists t, k' = set_token_deleted_at t k)
  /\ (tk_deleted_at k <> None -> tk_deleted_at k' <> None).

Definition rows_kept {R} (kept : R -> R -> Prop) (l l' : list R) : Prop :=
  forall i r, nth_error l i = Some r -> exists r', nth_error l' i = Some r' /\ kept r r'.

(** [d] is [d0] some requests later: every row of [d0] is still there, at
    its position. *)
Definition store_extends (d0 d : Db) : Prop :=
  rows_kept client_kept (clients d0) (clients d)
  /\ rows_kept code_kept (codes d0) (codes d)
  /\ rows_kept token_kept (tokens d0) (tokens d)
  /\ users d = users d0
  /\ organizations d = organizations d0.

(** The refresh token hash, or the access token hash, is that of a
    tombstoned row. *)
Definition refresh_spent (h : string) (d : Db) : Prop :=
  exists k, In k (tokens d) /\ tk_refresh_token_hash k = Some h /\ tk_deleted_at k <> None.

Definition access_revoked (h : string) (d : Db) : Prop :=
  exists k, In k (tokens d) /\ tk_token_hash k = h /\ tk_deleted_at k <> None.

(** The client row tombstoned: its primary key and its client_id. *)
Definition client_gone (id client_id : string) (d : Db) : Prop :=
  exists c, In c (clients d) /\ cl_id c = id /\ cl_client_id c = client_id
            /\ cl_deleted_at c <> None.

Definition tombstone_client (i : nat) (t : datetime) (d : Db) : Db :=
  with_clients (update_nth i (set_client_deleted_at t) (clients d)) d.

Definition rotate_secret (i : nat) (h : string) (d : Db) : Db :=
  with_clients (update_nth i (set_client_secret_hash h) (clients d)) d.

(** Row [i] is the live client with primary key [id] in organization
    [org]. *)
Definition live_client_row (d : Db) (id org : string) (i : nat) (c : OAuthMCPClient)
  : Prop :=
  nth_error (clients d) i = Some c /\ cl_id c = id /\ cl_organization_id c = org
  /\ cl_deleted_at c = None.

(** The row [create_client] builds. *)
Definition created_client (w : World) (organization_id name : string)
    (redirect_uris : option (list string)) : OAuthMCPClient :=
  mkClient (entropy w (2 + draws w)%nat) organization_id
           ("bow_client_" ++ entropy w (draws w))%string
           (_hash ("bow_secret_" ++ entropy w (1 + draws w)%nat)%string) name
           (json_dumps_uris match redirect_uris with
                            | None => CLAUDE_REDIRECT_URIS
                            | Some l => l
                            end)
           "mcp" None.

(** Row [i] is the live record of the refresh token hash [h], bound to
    [client_id]. *)
Definition live_refresh (d : Db) (h client_id : string) (i : nat)
    (k : OAuthMCPAccessToken) : Prop :=
  nth_error (tokens d) i = Some k /\ tk_refresh_token_hash k = Some h
  /\ tk_client_id k = client_id /\ tk_deleted_at k = None.

(** The refresh token of the record is past its expiry at [now]; a record
    without [refresh_expires_at] never is. *)
Definition refresh_expired (now : datetime) (k : OAuthMCPAccessToken) : bool :=
  match tk_refresh_expires_at k with
  | Some e => e <? now
  | None => false
  end.

(** The clock is read for the expiry check only when the record has a
    [refresh_expires_at]. *)
Definition refresh_reads (k : OAuthMCPAccessToken) : nat :=
  match tk_refresh_expires_at k with Some _ => 1%nat | None => 0%nat end.

Definition tombstone_token (i : nat) (t : datetime) (d : Db) : Db :=
  with_tokens (update_nth i (set_token_deleted_at t) (tokens d)) d.

Definition refreshed_db (w : World) (client_id : string) (i : nat)
    (k : OAuthMCPAccessToken) : Db :=
  let n := refresh_reads k in
  let d := tombstone_token i (clock w (n + ticks w)%nat) (committed w) in
  with_tokens (tokens d ++ [issued_token w client_id (tk_user_id k) (tk_organization_id k)
                                         (tk_scope k) (S n)]) d.

Inductive refresh_case (w : World) (rt client_id : string) (client_secret : option string)
  : outcome (option TokenResponse) -> World -> Prop :=
| rf_bad_client :
    ~ client_validates (committed w) client_id client_secret ->
    refresh_case w rt client_id client_secret (Return None) w
| rf_no_token :
    client_validates (committed w) client_id client_secret ->
    (forall i k, ~ live_refresh (committed w) (_hash rt) client_id i k) ->
    refresh_case w rt client_id client_secret (Return None) w
| rf_expired i k :
    client_validates (committed w) client_id client_secret ->
    live_refresh (committed w) (_hash rt) client_id i k ->
    refresh_expired (clock w (ticks w)) k = true ->
    refresh_case w rt client_id client_secret (Return None) (after (committed w) 1 0 w)
| rf_issued i k :
    client_validates (committed w) client_id client_secret ->
    live_refresh (committed w) (_hash rt) client_id i k ->
    refresh_expired (clock w (ticks w)) k = false ->
    unique_ok (refreshed_db w client_id i k) = true ->
    refresh_case w rt client_id client_secret
      (Return (Some (issued_response w (tk_scope k))))
      (after (refreshed_db w client_id i k) (3 + refresh_reads k) 2 w)
| rf_collision i k :
    client_validates (committed w) client_id client_secret ->
    live_refresh (committed w) (_hash rt) client_id i k ->
    refresh_expired (clock w (ticks w)) k = false ->
    unique_ok (refreshed_db w client_id i k) = false ->
    refresh_case w rt client_id client_secret
      (Raise IntegrityError) (after (committed w) (3 + refresh_reads k) 2 w).

(** The access token hash [h] has a live record at [i]. *)
Definition live_access (d : Db) (h : string) (i : nat) (k : OAuthMCPAccessToken) : Prop :=
  nth_error (tokens d) i = Some k /\ tk_token_hash k = h /\ tk_deleted_at k = None.

(** The record [create_authorization_code] builds. *)
Definition issued_code (w : World)
    (client_id user_id organization_id redirect_uri scope code_challenge : string)
  : OAuthMCPAuthorizationCode :=
  mkCode (entropy w (draws w)) client_id user_id organization_id redirect_uri scope
         code_challenge (clock w (ticks w) + AUTHORIZATION_CODE_LIFETIME) None.

Definition add_code (a : OAuthMCPAuthorizationCode) (d : Db) : Db :=
  with_codes (codes d ++ [a]) d.

(** The callback URL [authorize_approve] answers with. *)
Definition callback_url (redirect_uri code : string) (state : option string) : string :=
  (redirect_uri ++ (if contains_char "?" redirect_uri then "&" else "?")
   ++ "code=" ++ code
   ++ match state with
      | Some s => if String.eqb s "" then "" else "&state=" ++ s
      | None => ""
      end)%string.

(** The record behind a token response. *)
Definition token_issued (d : Db) (client_id : string) (r : TokenResponse) : Prop :=
  exists k, In k (tokens d)
            /\ tk_token_hash k = _hash (access_token r)
            /\ tk_refresh_token_hash k = Some (_hash (refresh_token r))
            /\ tk_client_id k = client_id /\ tk_scope k = scope r
            /\ tk_deleted_at k = None.

(** The shape of every token response. *)
Definition bearer_response (r : TokenResponse) : Prop :=
  token_type r = "Bearer" /\ expires_in r = 3600
  /\ startswith (access_token r) "bow_oauth_" = true
  /\ startswith (refresh_token r) "bow_rt_" = true.



(** The token of an [Authorization: Bearer] header. *)
Definition bearer_of (request : Request) : option string :=
  let auth_header := field (req_authorization request) in
  if startswith auth_header "Bearer "
  then Some (substring 7 (String.length auth_header - 7) auth_header)
  else None.

(** What entitles the dispatcher to an attempt: the credential is present
    in the request and has the prefix of the scheme. *)
Definition attempt_allowed (request : Request) (jwt_user : option User)
    (api_key : option string) (a : Attempt) : Prop :=
  match a with
  | SessionOrganization u => jwt_user = Some u
  | ApiKeyUser XApiKeyHeader key | ApiKeyOrganization XApiKeyHeader key =>
      api_key = Some key
      /\ startswith key "bow_" = true /\ startswith key "bow_oauth_" = false
  | ApiKeyUser BearerHeader key | ApiKeyOrganization BearerHeader key =>
      bearer_of request = Some key
      /\ startswith key "bow_" = true /\ startswith key "bow_oauth_" = false
  | OAuthValidation token =>
      bearer_of request = Some token /\ startswith token "bow_oauth_" = true
  end.

(** The attempt that resolved the pair [p]: user and organization come
    from the same credential. *)
Definition resolved_by (env : AuthEnv) (request : Request) (w : World) (p : Principal)
    (a : Attempt) : Prop :=
  match a with
  | SessionOrganization u =>
      fst p = u /\ get_current_organization env request (session w) = inr (snd p)
  | ApiKeyUser _ _ => False
  | ApiKeyOrganization _ key =>
      get_user_by_api_key env (session w) key = Some (fst p)
      /\ get_organization_by_api_key env (session w) key = Some (snd p)
  | OAuthValidation token => fst (validate_access_token token w) = Return (Some p)
  end.

(** [n] times the character [c]. *)
Fixpoint chars (n : nat) (c : ascii) : string :=
  match n with
  | O => ""
  | S n' => String c (chars n' c)
  end.

Definition is_hex_digit (c : ascii) : Prop :=
  In c (list_ascii_of_string "0123456789abcdef").

Definition is_base64url_char (c : ascii) : Prop := In c Base64.urlsafe_alphabet.

(* ================================================================== *)
(** * A small deployment, for the examples                             *)
(* ================================================================== *)

Module Sample.

Definition verifier : string := "dBjftJeZ4CVP-mB92K27uhbUJU1p1r_wW1gFWFOEjXk".
Definition challenge : string := "E9Melhoa2OwvFrEMTJguCHaoeK1t8URWbuGJSstw-cM".
Definition callback : string := "https://claude.ai/api/mcp/auth_callback".

Definition client : OAuthMCPClient :=
  mkClient "c-1" "org-1" "bow_client_A" (_hash "bow_secret_S") "Claude Web"
           (json_dumps_uris CLAUDE_REDIRECT_URIS) "mcp" None.

(** A code that expires at 1000. *)
Definition code : OAuthMCPAuthorizationCode :=
  mkCode "code-1" "bow_client_A" "user-1" "org-1" callback "mcp" challenge 1000 None.

(** An access token that expires at 5000, its refresh token at 9000. *)
Definition token_row : OAuthMCPAccessToken :=
  mkToken (_hash "bow_oauth_T0") "bow_client_A" "user-1" "org-1" "mcp" 5000
          (Some (_hash "bow_rt_R0")) (Some 9000) None.

Definition alice : User := mkUser "user-1" "alice".
Definition bob : User := mkUser "user-2" "bob".
Definition acme : Organization := mkOrg "org-1" (Some (Some true)).

Definition db : Db :=
  mkDb [client] [code] [token_row]
       (fun id => if String.eqb id "user-1" then Some alice else None)
       (fun id => if String.eqb id "org-1" then Some acme else None).

Definition random_word (n : nat) : string :=
  match n with
  | O => "AAAA"
  | S O => "BBBB"
  | _ => "CCCC"
  end.

(** The store at rest, the clock stopped at [now]. *)
Definition world (now : datetime) : World :=
  mkWorld db db (fun _ => now) 0 random_word 0.

Definition exchange (now : datetime) (code_verifier : string)
  : outcome (option TokenResponse) * World :=
  exchange_code "code-1" "bow_client_A" None code_verifier callback (world now).

Definition refreshed : outcome (option TokenResponse) * World :=
  refresh_access_token "bow_rt_R0" "bow_client_A" None (world 900).

Definition tokens_issued : TokenResponse := issued_response (world 900) "mcp".

(** An organization selector that refuses, an API-key service that knows
    one key, bob's, and the settings as declared. *)
Definition auth_env : AuthEnv :=
  mkAuthEnv (fun _ _ => inl (mkHTTPException 403 "No organization selected" []))
            (fun _ key => if String.eqb key "bow_key1" then Some bob else None)
            (fun _ key => if String.eqb key "bow_key1" then Some acme else None)
            declared_settings.

Definition request : Request := mkRequest None "https" "bow.example".

(** A registry of two tools: one raises, one returns [bytes]. *)
Definition failing_tool : Tool :=
  mkTool (fun _ _ _ w => (ToolRaise "boom", w)).
Definition bytes_tool : Tool :=
  mkTool (fun _ _ _ w => (ToolReturn (PyObject "bytes"), w)).

Definition mcp_env : McpEnv :=
  mkMcpEnv (fun name => match name with
                        | PyStr "fail" => Some failing_tool
                        | PyStr "export" => Some bytes_tool
                        | _ => None
                        end)
           []
           (fun v => match v with PyStr s => s | _ => "?" end).

Definition call (tool : string) : JsonRpcRequest :=
  mkJsonRpcRequest "2.0" (Some (inr 7)) "tools/call" (Some [("name", PyStr tool)]).

Definition created : outcome ClientCreated * World :=
  create_client "org-1" "Claude" None (world 900).

Definition created_empty : outcome ClientCreated * World :=
  create_client "org-1" "Empty" (Some []) (world 900).

End Sample.

(** Requests made of the sample deployment. *)
Module Tour.

Definition calls : list ServiceCall :=
  [ DeleteClient "c-1" "org-1";
    ExchangeCode "code-1" "bow_client_A" None Sample.verifier Sample.callback;
    RefreshAccessToken "bow_rt_R0" "bow_client_A" None ].

Definition new_client : ClientCreated :=
  mkClientCreated "CCCC" "bow_client_AAAA" "bow_secret_BBBB" "Claude" CLAUDE_REDIRECT_URIS.

Definition deleted : outcome bool * World :=
  delete_client "c-1" "org-1" (Sample.world 900).

Definition rotated : outcome (option SecretRotated) * World :=
  rotate_client_secret "c-1" "org-1" (Sample.world 900).

Definition new_secret : SecretRotated :=
  mkSecretRotated "c-1" "bow_client_A" "bow_secret_AAAA" "Claude Web".

Definition other_org : Organization := mkOrg "org-2" None.

Definition code_issued : outcome string * World :=
  create_authorization_code "bow_client_A" "user-1" "org-1" Sample.callback "mcp"
    Sample.challenge (Sample.world 900).

Definition consent : AuthorizeBody :=
  mkAuthorizeBody (Some "bow_client_A") (Some Sample.callback) (Some "xyz") None
                  (Some Sample.challenge) None.

Definition empty_body : AuthorizeBody := mkAuthorizeBody None None None None None None.

Definition approved : outcome (HTTPException + string) * World :=
  authorize_approve consent Sample.alice Sample.acme (Sample.world 900).

Definition redirect : string :=
  "https://claude.ai/api/mcp/auth_callback?code=AAAA&state=xyz".

Definition token_request : outcome JSONResponse * World :=
  token_endpoint "authorization_code" (Some "code-1") (Some Sample.callback)
    "bow_client_A" None (Some Sample.verifier) None (Sample.world 900).

Definition bearer_request (token : string) : Request :=
  mkRequest (Some ("Bearer " ++ token)%string) "https" "bow.example".

(** A deployment whose settings object does have a [bow_config]. *)
Definition configured_settings : Settings :=
  mkSettings (Some (mkBowConfig (Some "https://bow.example.com//"))).

(** An API-key service that knows carol's key but not her organization. *)
Definition carol : User := mkUser "user-3" "carol".

Definition partial_env : AuthEnv :=
  mkAuthEnv (fun _ _ => inl (mkHTTPException 403 "No organization selected" []))
            (fun _ key => if String.eqb key "bow_key3" then Some carol else None)
            (fun _ _ => None)
            configured_settings.

(** Two exchanges of the sample code in flight at once. *)
Definition raced : outcome (option TokenResponse) * outcome (option TokenResponse) :=
  race (exchange_code "code-1" "bow_client_A" None Sample.verifier Sample.callback)
       (exchange_code "code-1" "bow_client_A" None Sample.verifier Sample.callback)
       (Sample.world 900).

Definition second_tokens : TokenResponse :=
  mkTokenResponse "bow_oauth_CCCC" "Bearer" 3600 "bow_rt_CCCC" "mcp".

(** The token row of the second exchange. *)
Definition second_record : OAuthMCPAccessToken :=
  mkToken (_hash "bow_oauth_CCCC") "bow_client_A" "user-1" "org-1" "mcp"
          (900 + ACCESS_TOKEN_LIFETIME)
          (Some (_hash "bow_rt_CCCC")) (Some (900 + REFRESH_TOKEN_LIFETIME)) None.

End Tour.


Example sha_abc :
  _hash "abc" = "ba7816bf8f01cfea414140de5dae2223b00361a396177a9cb410ff61f20015ad".
Proof. vm_compute. reflexivity. Qed.

Example sha_empty :
  _hash "" = "e3b0c44298fc1c149afbf4c8996fb92427ae41e4649b934ca495991b7852b855".
Proof. vm_compute. reflexivity. Qed.

Example sha_two_blocks :
  _hash "abcdbcdecdefdefgefghfghighijhijkijkljklmklmnlmnomnopnopq"
  = "248d6a61d20638b8e5c026930c3e6039a33ce45964ff2167f6ecedd419db06c1".
Proof. vm_compute. reflexivity. Qed.

Example dumps_sample :
  Json.dumps (PyList [PyInt 12; PyInt (-3); PyInt 0; PyNone; PyBool true; PyList []])
  = inl "[12, -3, 0, null, true, []]".
Proof. vm_compute. reflexivity. Qed.

Example dumps_escape :
  Json.dumps (PyStr (String (ascii_of_byte 10) "ok"))
  = inl (String (ascii_of_byte 34) ("\nok" ++ String (ascii_of_byte 34) "")%string).
Proof. vm_compute. reflexivity. Qed.

Example dumps_bytes :
  Json.dumps (PyDict [("blob", PyObject "bytes")])
  = inr "Object of type bytes is not JSON serializable".
Proof. vm_compute. reflexivity. Qed.

(* ================================================================== *)
(** * Lists, keys and lookups                                          *)
(* ================================================================== *)


Lemma mem_string_In (x : string) (l : list string) :
  mem_string x l = true <-> In x l.
Proof.
  induction l as [|y l IH]; simpl.
  - split; [discriminate | tauto].
  - rewrite orb_true_iff, IH, String.eqb_eq. split; intros [H|H]; auto.
Qed.

Lemma mem_string_false (x : string) (l : list string) :
  mem_string x l = false <-> ~ In x l.
Proof.
  rewrite <- mem_string_In. destruct (mem_string x l); split; congruence.
Qed.

Lemma distinct_app_one (l : list string) (x : string) :
  distinct (l ++ [x]) = distinct l && negb (mem_string x l).
Proof.
  induction l as [|y l IH]; simpl; [reflexivity|].
  rewrite IH.
  assert (E : mem_string y (l ++ [x]) = mem_string y l || String.eqb x y).
  { clear IH. induction l as [|z l IH]; simpl.
    - rewrite orb_false_r. apply String.eqb_sym.
    - rewrite IH. now rewrite orb_assoc. }
  rewrite E.
  destruct (mem_string y l), (String.eqb x y), (distinct l), (mem_string x l);
    reflexivity.
Qed.

Lemma non_null_app (l1 l2 : list (option string)) :
  non_null (l1 ++ l2) = non_null l1 ++ non_null l2.
Proof. unfold non_null. apply flat_map_app. Qed.

Lemma map_update_nth {A B} (key : A -> B) (f : A -> A) (i : nat) (l : list A) :
  (forall x, key (f x) = key x) -> map key (update_nth i f l) = map key l.
Proof.
  intros Hk. revert i. induction l as [|x l IH]; intros [|i]; simpl; try reflexivity.
  - now rewrite Hk.
  - now rewrite IH.
Qed.

Lemma nth_error_update_nth {A} (f : A -> A) (i : nat) (l : list A) (x : A) :
  nth_error l i = Some x -> nth_error (update_nth i f l) i = Some (f x).
Proof.
  revert i. induction l as [|y l IH]; intros [|i]; simpl; try discriminate.
  - now intros [= ->].
  - apply IH.
Qed.

Lemma nth_error_update_nth_other {A} (f : A -> A) (i j : nat) (l : list A) :
  i <> j -> nth_error (update_nth i f l) j = nth_error l j.
Proof.
  revert i j. induction l as [|y l IH]; intros [|i] [|j] Hij; simpl; try reflexivity.
  - congruence.
  - apply IH. congruence.
Qed.

Lemma In_update_nth_keep {A} (f : A -> A) (i : nat) (l : list A) (x : A) :
  In x l -> In x (update_nth i f l) \/ In (f x) (update_nth i f l).
Proof.
  revert i. induction l as [|y l IH]; intros [|i]; simpl; try tauto.
  - intros [->|H]; auto.
  - intros [->|H]; [auto|]. destruct (IH i H); auto.
Qed.

Lemma filter_enum_sound {A} (cond : A -> bool) (l : list A) (n i : nat) (r : A) :
  In (i, r) (filter (fun ir => cond (snd ir)) (enum_from n l)) ->
  exists j, i = (n + j)%nat /\ nth_error l j = Some r /\ cond r = true.
Proof.
  revert n. induction l as [|x l IH]; intros n; [intros []|].
  unfold enum_from. simpl. destruct (cond x) eqn:Hx.
  - intros [[= <- <-]|H].
    + exists 0%nat. rewrite Nat.add_0_r. auto.
    + destruct (IH _ H) as [j [-> [Hj Hc]]]. exists (S j).
      split; [lia | auto].
  - intros H. destruct (IH _ H) as [j [-> [Hj Hc]]]. exists (S j).
    split; [lia | auto].
Qed.

Section Lookup.

Context {R : Type} (key : R -> option string) (cond : R -> bool) (k : string).
Hypothesis cond_key : forall r, cond r = true -> key r = Some k.

Lemma distinct_key_inj (l : list R) (a b : R) (i j : nat) :
  distinct (non_null (map key l)) = true ->
  nth_error l i = Some a -> nth_error l j = Some b ->
  key a = Some k -> key b = Some k -> i = j.
Proof.
  revert i j. induction l as [|x l IH]; intros i j Hd Hi Hj Ha Hb.
  - destruct i; discriminate.
  - simpl in Hd.
    assert (Hrest : forall m c, nth_error l m = Some c -> key c = Some k ->
                                In k (non_null (map key l))).
    { intros m c Hm Hc. apply nth_error_In in Hm. unfold non_null.
      apply in_flat_map. exists (key c). split; [now apply in_map|].
      rewrite Hc. now left. }
    destruct i as [|i], j as [|j]; simpl in Hi, Hj.
    + reflexivity.
    + injection Hi as ->. rewrite Ha in Hd. simpl in Hd.
      apply andb_true_iff in Hd as [Hd _]. apply negb_true_iff in Hd.
      apply mem_string_false in Hd. exfalso. eauto.
    + injection Hj as ->. rewrite Hb in Hd. simpl in Hd.
      apply andb_true_iff in Hd as [Hd _]. apply negb_true_iff in Hd.
      apply mem_string_false in Hd. exfalso. eauto.
    + f_equal. apply IH; auto.
      destruct (key x); simpl in Hd; [|exact Hd].
      now apply andb_true_iff in Hd as [_ Hd].
Qed.

(** Under a unique index, a query on the key finds no row or one. *)
Lemma lookup_unique (l : list R) :
  distinct (non_null (map key l)) = true ->
  (filter (fun ir => cond (snd ir)) (enumerate l) = []
   /\ forall r, In r l -> cond r = false)
  \/ (exists i r, filter (fun ir => cond (snd ir)) (enumerate l) = [(i, r)]
                 /\ nth_error l i = Some r /\ cond r = true).
Proof.
  intros Hd.
  destruct (filter (fun ir => cond (snd ir)) (enumerate l)) as [|[i r] rest] eqn:Hf.
  - left. split; [reflexivity|]. intros r Hr.
    destruct (cond r) eqn:Hc; [|reflexivity]. exfalso.
    apply In_nth_error in Hr as [j Hj].
    assert (Hin : In (j, r) (filter (fun ir => cond (snd ir)) (enumerate l))).
    { apply filter_In. split; [|exact Hc]. unfold enumerate.
      clear - Hj. change j with (0 + j)%nat at 1. generalize 0%nat as n.
      revert j Hj. induction l as [|x l IH]; intros [|j] Hj n; simpl in *;
        try discriminate.
      - injection Hj as ->. rewrite Nat.add_0_r. now left.
      - right. replace (n + S j)%nat with (S n + j)%nat by lia. now apply IH. }
    rewrite Hf in Hin. destruct Hin.
  - right. exists i, r.
    assert (Hi : In (i, r) (filter (fun ir => cond (snd ir)) (enumerate l)))
      by (rewrite Hf; now left).
    apply (filter_enum_sound cond l 0) in Hi as [j [-> [Hj Hc]]]. simpl.
    split; [|auto]. f_equal.
    destruct rest as [|[i' r'] rest]; [reflexivity|]. exfalso.
    assert (Hi' : In (i', r') (filter (fun ir => cond (snd ir)) (enumerate l)))
      by (rewrite Hf; right; now left).
    apply (filter_enum_sound cond l 0) in Hi' as [j' [-> [Hj' Hc']]]. simpl in Hf.
    assert (j = j') by (eapply distinct_key_inj; eauto). subst j'.
    assert (ND : NoDup (map fst (filter (fun ir => cond (snd ir)) (enumerate l)))).
    { clear. unfold enumerate. generalize 0%nat as n.
      induction l as [|x l IH]; intros n; simpl; [constructor|].
      assert (Hlt : forall m, In m (map fst (filter (fun ir => cond (snd ir))
                                 (combine (seq (S n) (List.length l)) l))) ->
                              (n < m)%nat).
      { intros m Hm. apply in_map_iff in Hm as [[m' y] [<- Hm]].
        apply filter_In in Hm as [Hm _]. apply in_combine_l in Hm.
        apply in_seq in Hm. simpl. lia. }
      destruct (cond x); simpl; [constructor|]; auto.
      intros Hn. apply Hlt in Hn. lia. }
    rewrite Hf in ND. simpl in ND. inversion ND as [|? ? Hn _]. apply Hn. now left.
Qed.

End Lookup.

Unset Implicit Arguments.

(* ================================================================== *)
(** * PKCE: padding, stripping and the S256 check                      *)
(* ================================================================== *)

(** Lists taken three elements at a time. *)
Lemma list_ind3 {A} (P : list A -> Prop) :
  P [] -> (forall a, P [a]) -> (forall a b, P [a; b]) ->
  (forall a b c l, P l -> P (a :: b :: c :: l)) ->
  forall l, P l.
Proof.
  intros H0 H1 H2 H3 l.
  assert (H : P l /\ (forall a, P (a :: l)) /\ (forall a b, P (a :: b :: l))).
  { induction l as [|x l (IH0 & IH1 & IH2)]; auto. }
  apply H.
Qed.

Lemma rstrip_app (c : Z) (l1 l2 : list Z) :
  rstrip c (l1 ++ l2) =
  match rstrip c l2 with
  | [] => rstrip c l1
  | r => l1 ++ r
  end.
Proof.
  induction l1 as [|x l1 IH]; simpl.
  - destruct (rstrip c l2); reflexivity.
  - rewrite IH. destruct (rstrip c l2) as [|y r]; [reflexivity|].
    destruct (l1 ++ y :: r) eqn:E; [|reflexivity].
    destruct l1; discriminate.
Qed.

Lemma rstrip_keep (c : Z) (l : list Z) (x : Z) :
  x <> c -> rstrip c (l ++ [x]) = l ++ [x].
Proof.
  intros Hx. rewrite rstrip_app. simpl.
  destruct (x =? c) eqn:E; [apply Z.eqb_eq in E; contradiction | reflexivity].
Qed.

Lemma rstrip_drop (c : Z) (l : list Z) : rstrip c (l ++ [c]) = rstrip c l.
Proof. rewrite rstrip_app. simpl. now rewrite Z.eqb_refl. Qed.

Lemma sextet_not_pad (v : Z) : Base64.sextet v <> Base64.pad_char.
Proof.
  unfold Base64.sextet.
  assert (Hr : (Z.to_nat (v mod 64) < 64)%nat).
  { pose proof (Z.mod_pos_bound v 64 eq_refl). lia. }
  assert (Hall : Forall (fun ch => byte_of_ascii ch <> Base64.pad_char)
                        Base64.urlsafe_alphabet).
  { unfold Base64.urlsafe_alphabet, Base64.pad_char. simpl.
    repeat (constructor; [vm_compute; discriminate|]). constructor. }
  rewrite Forall_forall in Hall. apply Hall. apply nth_In.
  exact Hr.
Qed.

(** Stripping the padding of the padded encoding gives the unpadded one. *)
Lemma rstrip_urlsafe_b64encode (bs : list Z) :
  rstrip Base64.pad_char (Base64.urlsafe_b64encode bs) = Base64.b64url_nopad bs.
Proof.
  assert (Hnopad : forall l, rstrip Base64.pad_char (Base64.b64url_nopad l)
                             = Base64.b64url_nopad l).
  { induction l as [| a | a b | a b c l IH] using list_ind3.
    - reflexivity.
    - unfold Base64.b64url_nopad, Base64.enc1.
      apply (rstrip_keep _ [_]). apply sextet_not_pad.
    - unfold Base64.b64url_nopad, Base64.enc2.
      apply (rstrip_keep _ [_; _]). apply sextet_not_pad.
    - change (Base64.b64url_nopad (a :: b :: c :: l))
        with (Base64.enc3 a b c ++ Base64.b64url_nopad l).
      rewrite rstrip_app, IH.
      destruct (Base64.b64url_nopad l); [|reflexivity].
      rewrite app_nil_r. unfold Base64.enc3.
      apply (rstrip_keep _ [_; _; _]). apply sextet_not_pad. }
  induction bs as [| a | a b | a b c l IH] using list_ind3.
  - reflexivity.
  - change (Base64.urlsafe_b64encode [a])
      with ((Base64.enc1 a ++ [Base64.pad_char]) ++ [Base64.pad_char]).
    rewrite !rstrip_drop. apply (Hnopad [a]).
  - change (Base64.urlsafe_b64encode [a; b])
      with (Base64.enc2 a b ++ [Base64.pad_char]).
    rewrite rstrip_drop. apply (Hnopad [a; b]).
  - change (Base64.urlsafe_b64encode (a :: b :: c :: l))
      with (Base64.enc3 a b c ++ Base64.urlsafe_b64encode l).
    change (Base64.b64url_nopad (a :: b :: c :: l))
      with (Base64.enc3 a b c ++ Base64.b64url_nopad l).
    rewrite rstrip_app, IH.
    destruct (Base64.b64url_nopad l) eqn:E; [|reflexivity].
    rewrite app_nil_r. unfold Base64.enc3.
    apply (rstrip_keep _ [_; _; _]). apply sextet_not_pad.
Qed.

(** A digest has thirty-two bytes; three are enough here. *)
Lemma digest_cons (msg : list Z) :
  exists a b c rest, Sha256.digest msg = a :: b :: c :: rest.
Proof.
  unfold Sha256.digest, Sha256.state_bytes, Sha256.be_bytes.
  cbn [flat_map map rev seq app]. eauto.
Qed.

Lemma digest_length (msg : list Z) : List.length (Sha256.digest msg) = 32%nat.
Proof. reflexivity. Qed.

Lemma decode_nonempty (x : Z) (l : list Z) : decode (x :: l) <> "".
Proof. unfold decode. simpl. discriminate. Qed.

Lemma verify_pkce_s256_iff (v c : string) :
  _verify_pkce_s256 v c = true <-> pkce_s256 v c.
Proof.
  unfold _verify_pkce_s256, pkce_s256.
  now rewrite rstrip_urlsafe_b64encode, String.eqb_eq.
Qed.

Lemma verify_pkce_s256_empty_challenge (v : string) : _verify_pkce_s256 v "" = false.
Proof.
  destruct (_verify_pkce_s256 v "") eqn:E; [|reflexivity].
  apply verify_pkce_s256_iff in E. unfold pkce_s256 in E.
  destruct (digest_cons (encode v)) as (a & b & c & rest & Hd).
  rewrite Hd in E.
  change (Base64.b64url_nopad (a :: b :: c :: rest))
    with (Base64.enc3 a b c ++ Base64.b64url_nopad rest) in E.
  unfold Base64.enc3 in E. simpl app in E.
  now apply decode_nonempty in E.
Qed.

(** The digest is computed on closed inputs only. *)
Opaque Sha256.digest.

(** C3 (amended). [_verify_pkce_s256] returns true exactly when the
    unpadded base64url text of SHA-256 of the verifier equals the challenge;
    it returns false on every empty challenge; on the empty verifier it has
    no guard of its own and returns true exactly on the encoding of the
    digest of the empty string; it accepts the golden vector of RFC 7636. *)
Theorem verify_pkce_s256_spec :
  (forall v c, _verify_pkce_s256 v c = true <-> pkce_s256 v c)
  /\ (forall v, _verify_pkce_s256 v "" = false)
  /\ (forall c, _verify_pkce_s256 "" c = true <-> c = EMPTY_VERIFIER_CHALLENGE)
  /\ _verify_pkce_s256 "dBjftJeZ4CVP-mB92K27uhbUJU1p1r_wW1gFWFOEjXk"
                       "E9Melhoa2OwvFrEMTJguCHaoeK1t8URWbuGJSstw-cM" = true.
Proof.
  split; [exact verify_pkce_s256_iff|].
  split; [exact verify_pkce_s256_empty_challenge|].
  split; [|vm_compute; reflexivity].
  intros c. rewrite verify_pkce_s256_iff. unfold pkce_s256.
  assert (E : decode (Base64.b64url_nopad (Sha256.digest (encode "")))
              = EMPTY_VERIFIER_CHALLENGE) by (vm_compute; reflexivity).
  rewrite E. split; congruence.
Qed.

(** C3, as stated, fails: the empty verifier is accepted against the
    challenge derived from it. *)
Lemma verify_pkce_s256_accepts_empty_verifier :
  ~ (forall v c, v = "" \/ c = "" -> _verify_pkce_s256 v c = false).
Proof.
  intros H. specialize (H "" EMPTY_VERIFIER_CHALLENGE (or_introl eq_refl)).
  vm_compute in H. discriminate.
Qed.

(* ================================================================== *)
(** * Running the service                                              *)
(* ================================================================== *)

Lemma non_null_map_some {A} (key : A -> string) (l : list A) :
  non_null (map (fun x => Some (key x)) l) = map key l.
Proof. induction l as [|x l IH]; simpl; [reflexivity | now rewrite IH]. Qed.

Lemma unique_ok_parts (d : Db) :
  unique_ok d = true ->
  distinct (map cl_id (clients d)) = true
  /\ distinct (map cl_client_id (clients d)) = true
  /\ distinct (map ac_code (codes d)) = true
  /\ distinct (map tk_token_hash (tokens d)) = true
  /\ distinct (non_null (map tk_refresh_token_hash (tokens d))) = true.
Proof.
  unfold unique_ok. rewrite !andb_true_iff. tauto.
Qed.

Lemma validate_client_run (w : World) (client_id : string) (client_secret : option string) :
  distinct (map cl_client_id (clients (session w))) = true ->
  (exists c, validate_client client_id client_secret w = (Return (Some c), w)
             /\ client_validates (session w) client_id client_secret)
  \/ (validate_client client_id client_secret w = (Return None, w)
      /\ ~ client_validates (session w) client_id client_secret).
Proof.
  intros Hd.
  unfold validate_client.
  set (cond := fun c => String.eqb (cl_client_id c) client_id && is_none (cl_deleted_at c)).
  unfold bind, select_where, read.
  assert (Hcond : forall c, cond c = true <-> cl_client_id c = client_id /\ cl_deleted_at c = None).
  { intros c. unfold cond. rewrite andb_true_iff, String.eqb_eq.
    destruct (cl_deleted_at c); simpl; intuition congruence. }
  destruct (lookup_unique (fun c => Some (cl_client_id c)) cond (k := client_id))
    with (l := clients (session w)) as [[Hf Hn]|[i [c [Hf [Hi Hc]]]]].
  - intros r Hr. apply Hcond in Hr as [-> _]. reflexivity.
  - now rewrite non_null_map_some.
  - right. rewrite Hf. simpl. split; [reflexivity|].
    intros [c [Hin [Hid [Hdel _]]]]. specialize (Hn c Hin).
    assert (cond c = true) by (apply Hcond; auto). congruence.
  - rewrite Hf. simpl. apply Hcond in Hc as [Hid Hdel].
    apply nth_error_In in Hi as Hin.
    destruct client_secret as [s|]; simpl.
    + destruct (String.eqb (_hash s) (cl_client_secret_hash c)) eqn:Hs; simpl.
      * left. exists c. split; [reflexivity|]. exists c. repeat split; auto.
        intros s' [= <-]. now apply String.eqb_eq.
      * right. split; [reflexivity|]. intros [c' [Hin' [Hid' [Hdel' Hs']]]].
        assert (c' = c).
        { apply In_nth_error in Hin' as [j Hj].
          assert (j = i).
          { eapply (distinct_key_inj (fun c => Some (cl_client_id c)) (k := client_id)) with (l := clients (session w)); eauto.
            - now rewrite non_null_map_some.
            - simpl. now f_equal.
            - simpl. now f_equal. }
          subst j. congruence. }
        subst c'. specialize (Hs' s eq_refl). apply String.eqb_neq in Hs. contradiction.
    + left. exists c. split; [reflexivity|]. exists c. repeat split; auto. discriminate.
Qed.

Lemma unique_ok_tombstone_code (i : nat) (t : datetime) (d : Db) :
  unique_ok (tombstone_code i t d) = unique_ok d.
Proof.
  unfold unique_ok, tombstone_code, with_codes. simpl.
  now rewrite map_update_nth by reflexivity.
Qed.

Lemma exchange_code_cases (w : World) code client_id client_secret code_verifier redirect_uri :
  wf w ->
  exchange_case w code client_id client_secret code_verifier redirect_uri
    (fst (exchange_code code client_id client_secret code_verifier redirect_uri w))
    (snd (exchange_code code client_id client_secret code_verifier redirect_uri w)).
Proof.
  intros [Hu Hs].
  destruct (unique_ok_parts _ Hu) as (_ & Hcl & Hco & _).
  rewrite <- Hs in Hcl, Hco.
  remember (exchange_code code client_id client_secret code_verifier redirect_uri w) as X eqn:HX.
  unfold exchange_code in HX. unfold bind at 1 in HX.
  destruct (validate_client_run w client_id client_secret Hcl) as [[c [Hv Hcv]]|[Hv Hcv]];
    rewrite Hv in HX; rewrite Hs in Hcv.
  2:{ subst X. simpl. now apply ex_bad_client. }
  cbv beta iota in HX.
  set (cond := fun a => String.eqb (ac_code a) code && String.eqb (ac_client_id a) client_id
                        && is_none (ac_deleted_at a)) in HX.
  assert (Hcond : forall a, cond a = true <->
            ac_code a = code /\ ac_client_id a = client_id /\ ac_deleted_at a = None).
  { intros a. unfold cond. rewrite !andb_true_iff, !String.eqb_eq.
    destruct (ac_deleted_at a); simpl; intuition congruence. }
  unfold bind at 1 in HX. unfold select_where, read in HX. unfold bind at 1 in HX.
  destruct (lookup_unique (fun a => Some (ac_code a)) cond (k := code))
    with (l := codes (session w)) as [[Hf Hn]|[i [a [Hf [Hi Hc]]]]].
  - intros r Hr. apply Hcond in Hr as [-> _]. reflexivity.
  - now rewrite non_null_map_some.
  - rewrite Hf in HX. subst X. simpl. apply ex_no_code; [exact Hcv|].
    intros i a (Hi & Hcode & Hcid & Hdel). rewrite <- Hs in Hi.
    apply nth_error_In in Hi. specialize (Hn a Hi).
    assert (cond a = true) by (apply Hcond; auto). congruence.
  - rewrite Hf in HX. cbv beta iota in HX. unfold scalar_one_or_none, ret at 1 in HX.
    cbv beta iota in HX.
    apply Hcond in Hc as (Hcode & Hcid & Hdel).
    assert (Hlive : live_code (committed w) code client_id i a).
    { rewrite <- Hs. repeat split; auto. }
    unfold bind at 1, utcnow at 1 in HX. cbv beta iota in HX.
    destruct (ac_expires_at a <? clock w (ticks w)) eqn:Hexp.
    + apply Z.ltb_lt in Hexp.
      unfold bind, utcnow, modify, commit, with_session, ret in HX. cbn -[unique_ok] in HX.
      fold (tombstone_code i (clock w (S (ticks w))) (session w)) in HX.
      rewrite unique_ok_tombstone_code, Hs, Hu in HX. subst X. simpl.
      eapply ex_expired; eauto.
    + apply Z.ltb_ge in Hexp.
      destruct (_verify_pkce_s256 code_verifier (ac_code_challenge a)) eqn:Hp; simpl negb in HX;
        cbv iota in HX.
      2:{ subst X. unfold ret. simpl. rewrite Hs.
          eapply ex_bad_pkce; eauto. }
      destruct (String.eqb (ac_redirect_uri a) redirect_uri) eqn:Hr; simpl negb in HX;
        cbv iota in HX.
      2:{ subst X. unfold ret. simpl. rewrite Hs. apply String.eqb_neq in Hr.
          eapply ex_bad_redirect; eauto. }
      apply String.eqb_eq in Hr.
      unfold bind, utcnow, modify, commit, with_session, ret, _generate_token, token_urlsafe in HX.
      cbn -[unique_ok ACCESS_TOKEN_LIFETIME REFRESH_TOKEN_LIFETIME total_seconds
            ACCESS_TOKEN_PREFIX REFRESH_TOKEN_PREFIX String.append] in HX.
      rewrite Hs in HX.
      match type of HX with
      | context [if unique_ok ?d then _ else _] =>
          change d with (exchanged_db w client_id i a) in HX
      end.
      destruct (unique_ok (exchanged_db w client_id i a)) eqn:Hq; subst X;
        cbv beta iota; unfold fst, snd.
      * eapply ex_issued; eauto.
      * eapply ex_collision; eauto.
Qed.

(* ================================================================== *)
(** * The code exchange                                                *)
(* ================================================================== *)

Lemma live_code_unique (d : Db) (code : string) i j a b :
  distinct (map ac_code (codes d)) = true ->
  nth_error (codes d) i = Some a -> ac_code a = code ->
  nth_error (codes d) j = Some b -> ac_code b = code ->
  i = j /\ a = b.
Proof.
  intros Hd Hi Ha Hj Hb.
  assert (i = j).
  { eapply (distinct_key_inj (fun a => Some (ac_code a)) (k := code)) with (l := codes d); eauto.
    - now rewrite non_null_map_some.
    - simpl. now f_equal.
    - simpl. now f_equal. }
  subst j. split; [reflexivity | congruence].
Qed.

Lemma fresh_exchanged_db (w : World) (cid : string) (i : nat) (a : OAuthMCPAuthorizationCode) :
  unique_ok (committed w) = true -> fresh_tokens w ->
  unique_ok (exchanged_db w cid i a) = true.
Proof.
  intros Hu [Hf1 Hf2].
  destruct (unique_ok_parts _ Hu) as (H1 & H2 & H3 & H4 & H5).
  unfold unique_ok, exchanged_db, tombstone_code, with_tokens, with_codes.
  cbn [clients codes tokens].
  rewrite map_update_nth by reflexivity.
  rewrite !map_app, non_null_app.
  unfold issued_token.
  cbn [map non_null flat_map app tk_token_hash tk_refresh_token_hash].
  rewrite !distinct_app_one, H1, H2, H3, H4, H5, Hf1, Hf2. reflexivity.
Qed.

Lemma missing_some (s : string) : s <> "" -> missing (Some s) = false.
Proof. intros H. simpl. now apply String.eqb_neq. Qed.

Lemma token_endpoint_authorization_code (w : World) code cid sec ver uri rt :
  code <> "" -> ver <> "" -> uri <> "" ->
  token_endpoint "authorization_code" (Some code) (Some uri) cid sec (Some ver) rt w =
  match exchange_code code cid sec ver uri w with
  | (Return None, w') =>
      (Return (invalid_grant "Invalid or expired authorization code"), w')
  | (Return (Some r), w') => (Return (mkJSONResponse 200 (TokenOk r)), w')
  | (Raise e, w') => (Raise e, w')
  end.
Proof.
  intros Hc Hv Hu. unfold token_endpoint.
  rewrite String.eqb_refl, !missing_some by assumption.
  cbn [orb field]. unfold bind.
  destruct (exchange_code code cid sec ver uri w) as [[[r|]|e] w']; reflexivity.
Qed.

Lemma conditions_live (w : World) code cid sec ver uri :
  exchange_conditions (committed w) (clock w (ticks w)) code cid sec ver uri ->
  forall i a, unique_ok (committed w) = true ->
    live_code (committed w) code cid i a ->
    clock w (ticks w) <= ac_expires_at a
    /\ _verify_pkce_s256 ver (ac_code_challenge a) = true
    /\ ac_redirect_uri a = uri.
Proof.
  intros (_ & j & b & (Hj & Hb & _) & He & Hp & Hr) i a Hu (Hi & Ha & _).
  destruct (unique_ok_parts _ Hu) as (_ & _ & Hco & _).
  destruct (live_code_unique (committed w) code i j a b Hco Hi Ha Hj Hb) as [-> ->].
  repeat split; auto. now apply verify_pkce_s256_iff.
Qed.

Lemma exchange_code_decides (w : World) (code cid : string) (sec : option string)
    (ver uri : string) :
  wf w -> fresh_tokens w ->
  (exchange_conditions (committed w) (clock w (ticks w)) code cid sec ver uri
   /\ exists r w', exchange_code code cid sec ver uri w = (Return (Some r), w'))
  \/ (~ exchange_conditions (committed w) (clock w (ticks w)) code cid sec ver uri
      /\ exists w', exchange_code code cid sec ver uri w = (Return None, w')).
Proof.
  intros Hwf Hfresh.
  pose proof (exchange_code_cases w code cid sec ver uri Hwf) as Hcase.
  destruct Hwf as [Hu Hs].
  destruct (exchange_code code cid sec ver uri w) as [o w'] eqn:E.
  cbn [fst snd] in Hcase.
  inversion Hcase as [Hn | Hcv Hn | i a Hcv Hl He | i a Hcv Hl He Hp
                      | i a Hcv Hl He Hp Hr | i a Hcv Hl He Hp Hr Hq
                      | i a Hcv Hl He Hp Hr Hq]; subst o; try subst w'.
  - right. split; [|eauto]. intros Hh. apply Hn, Hh.
  - right. split; [|eauto]. intros (_ & i & a & Hl & _). exact (Hn i a Hl).
  - right. split; [|eauto]. intros Hh.
    destruct (conditions_live w code cid sec ver uri Hh i a Hu Hl) as (H1 & _). lia.
  - right. split; [|eauto]. intros Hh.
    destruct (conditions_live w code cid sec ver uri Hh i a Hu Hl) as (_ & H1 & _).
    congruence.
  - right. split; [|eauto]. intros Hh.
    destruct (conditions_live w code cid sec ver uri Hh i a Hu Hl) as (_ & _ & H1).
    contradiction.
  - left. split; [|eauto]. split; [exact Hcv|]. exists i, a.
    repeat split; try apply Hl; auto. now apply verify_pkce_s256_iff.
  - rewrite (fresh_exchanged_db w cid i a Hu Hfresh) in Hq. discriminate.
Qed.

(** The outcome of the exchange, by the first condition that fails. *)
Lemma exchange_code_in_order (w : World) (code cid : string) (sec : option string)
    (ver uri : string) :
  wf w ->
  let res := exchange_code code cid sec ver uri w in
  (~ client_validates (committed w) cid sec -> res = (Return None, w))
  /\ (client_validates (committed w) cid sec ->
      (forall i a, ~ live_code (committed w) code cid i a) -> res = (Return None, w))
  /\ (forall i a,
        client_validates (committed w) cid sec ->
        live_code (committed w) code cid i a ->
        (ac_expires_at a < clock w (ticks w) ->
         res = (Return None,
                after (tombstone_code i (clock w (1 + ticks w)%nat) (committed w)) 2 0 w))
        /\ (clock w (ticks w) <= ac_expires_at a ->
            _verify_pkce_s256 ver (ac_code_challenge a) = false ->
            res = (Return None, after (committed w) 1 0 w))
        /\ (clock w (ticks w) <= ac_expires_at a ->
            _verify_pkce_s256 ver (ac_code_challenge a) = true ->
            ac_redirect_uri a <> uri ->
            res = (Return None, after (committed w) 1 0 w))
        /\ (clock w (ticks w) <= ac_expires_at a ->
            _verify_pkce_s256 ver (ac_code_challenge a) = true ->
            ac_redirect_uri a = uri ->
            unique_ok (exchanged_db w cid i a) = true ->
            res = (Return (Some (issued_response w (ac_scope a))),
                   after (exchanged_db w cid i a) 4 2 w))).
Proof.
  intros Hwf res. pose proof Hwf as [Hu Hs].
  destruct (unique_ok_parts _ Hu) as (_ & _ & Hco & _).
  pose proof (exchange_code_cases w code cid sec ver uri Hwf) as Hcase.
  fold res in Hcase. destruct res as [o w1]. cbn [fst snd] in Hcase.
  assert (Hsame : forall i a j b, live_code (committed w) code cid i a ->
                    live_code (committed w) code cid j b -> i = j /\ a = b).
  { intros i a j b (Hi & Ha & _) (Hj & Hb & _).
    eapply live_code_unique; eauto. }
  inversion Hcase as [Hn | Hcv Hn | j b Hcv Hl He | j b Hcv Hl He Hp
                      | j b Hcv Hl He Hp Hr | j b Hcv Hl He Hp Hr Hq
                      | j b Hcv Hl He Hp Hr Hq]; subst o; try subst w1.
  all: split; [intros Hx; first [reflexivity | contradiction]|].
  all: split; [intros _ Hx; first [reflexivity | exfalso; exact (Hx _ _ Hl)]|].
  all: intros i a Hcv' Hl'.
  all: try (exfalso; contradiction).
  all: try (exfalso; exact (Hn _ _ Hl')).
  all: destruct (Hsame _ _ _ _ Hl Hl') as [<- <-].
  all: split; [intros Hx; first [reflexivity | exfalso; lia]|].
  all: split; [intros Hx Hy; first [reflexivity | exfalso; lia | exfalso; congruence]|].
  all: split; [intros Hx Hy Hz;
               first [reflexivity | exfalso; lia | exfalso; congruence
                     | exfalso; contradiction]|].
  all: intros Hx Hy Hz Hw;
       first [reflexivity | exfalso; lia | exfalso; congruence | exfalso; contradiction].
Qed.

(** C2 (amended). Under the unique indexes and with fresh random tokens,
    the exchange returns a token response exactly when the five conditions
    hold, the third being that [expires_at] is not before now
    ([now <= expires_at]; the comparison is [expires_at < now]). A success
    is the Bearer response of 3600 seconds with the two new tokens and the
    scope of the code, the code tombstoned and the token record added,
    committed. The conditions are evaluated in order: a client that does
    not validate, or no live record, ends the exchange with nothing read or
    written; an expired record is tombstoned whatever the verifier and the
    redirect URI; a failed PKCE check or a different redirect URI leaves
    the store unchanged. Every refusal is None, which the token endpoint
    turns into the one generic invalid_grant, status 400. *)
Theorem exchange_code_iff_conditions (w : World) (code cid : string) (sec : option string)
    (ver uri : string) :
  wf w -> fresh_tokens w ->
  let now := clock w (ticks w) in
  let holds := exchange_conditions (committed w) now code cid sec ver uri in
  let run := exchange_code code cid sec ver uri w in
  let res := fst run in
  ((exists r, res = Return (Some r)) <-> holds)
  /\ (~ holds -> res = Return None)
  /\ (holds ->
      exists i a,
        live_code (committed w) code cid i a
        /\ run = (Return (Some (mkTokenResponse
                                  (ACCESS_TOKEN_PREFIX ++ entropy w (draws w))%string
                                  "Bearer" 3600
                                  (REFRESH_TOKEN_PREFIX ++ entropy w (S (draws w)))%string
                                  (ac_scope a))),
                  after (exchanged_db w cid i a) 4 2 w)
        /\ codes (exchanged_db w cid i a)
           = update_nth i (set_code_deleted_at (clock w (1 + ticks w)%nat))
                        (codes (committed w))
        /\ tokens (exchanged_db w cid i a)
           = tokens (committed w)
             ++ [mkToken (_hash (ACCESS_TOKEN_PREFIX ++ entropy w (draws w))%string)
                         cid (ac_user_id a) (ac_organization_id a) (ac_scope a)
                         (clock w (2 + ticks w)%nat + ACCESS_TOKEN_LIFETIME)
                         (Some (_hash (REFRESH_TOKEN_PREFIX
                                       ++ entropy w (S (draws w)))%string))
                         (Some (clock w (3 + ticks w)%nat + REFRESH_TOKEN_LIFETIME))
                         None])
  /\ (~ client_validates (committed w) cid sec -> run = (Return None, w))
  /\ (client_validates (committed w) cid sec ->
      (forall i a, ~ live_code (committed w) code cid i a) -> run = (Return None, w))
  /\ (forall i a,
        client_validates (committed w) cid sec ->
        live_code (committed w) code cid i a ->
        (ac_expires_at a < now ->
         run = (Return None,
                after (tombstone_code i (clock w (1 + ticks w)%nat) (committed w)) 2 0 w))
        /\ (now <= ac_expires_at a ->
            _verify_pkce_s256 ver (ac_code_challenge a) = false ->
            run = (Return None, after (committed w) 1 0 w))
        /\ (now <= ac_expires_at a ->
            _verify_pkce_s256 ver (ac_code_challenge a) = true ->
            ac_redirect_uri a <> uri ->
            run = (Return None, after (committed w) 1 0 w)))
  /\ (code <> "" -> ver <> "" -> uri <> "" -> forall rt,
      let http := fst (token_endpoint "authorization_code" (Some code) (Some uri) cid sec
                                      (Some ver) rt w) in
      (holds -> exists r, res = Return (Some r)
                          /\ http = Return (mkJSONResponse 200 (TokenOk r)))
      /\ (~ holds -> http = Return (invalid_grant "Invalid or expired authorization code")
                     /\ status_code (invalid_grant "Invalid or expired authorization code")
                        = 400)).
Proof.
  intros Hwf Hfresh now holds run res. subst now holds res.
  pose proof (exchange_code_in_order w code cid sec ver uri Hwf) as (O1 & O2 & O3).
  fold run in O1, O2, O3.
  assert (Hsucc : exchange_conditions (committed w) (clock w (ticks w)) code cid sec ver uri ->
            exists i a, live_code (committed w) code cid i a
                        /\ run = (Return (Some (issued_response w (ac_scope a))),
                                  after (exchanged_db w cid i a) 4 2 w)).
  { intros (Hcv & i & a & Hl & He & Hp & Hr). exists i, a. split; [exact Hl|].
    apply (O3 i a Hcv Hl); auto.
    - now apply verify_pkce_s256_iff.
    - apply fresh_exchanged_db; [apply Hwf | exact Hfresh]. }
  destruct (exchange_code_decides w code cid sec ver uri Hwf Hfresh)
    as [[Hh (r & w' & E)] | [Hh (w' & E)]]; fold run in E.
  - split; [split; eauto; intros _; exists r; now rewrite E|].
    split; [intros Hn; contradiction|].
    split.
    { intros _. destruct (Hsucc Hh) as (i & a & Hl & Hrun). exists i, a.
      split; [exact Hl|]. split; [exact Hrun|]. split; reflexivity. }
    split; [exact O1|]. split; [exact O2|].
    split; [intros i a Hcv Hl; destruct (O3 i a Hcv Hl) as (A & B & C & _); auto|].
    intros Hc Hv Hur rt http. subst http.
    rewrite token_endpoint_authorization_code by assumption. fold run. rewrite E.
    split; [|intros Hn; contradiction]. intros _. exists r. split; reflexivity.
  - split; [split; [|intros Hn; contradiction]|].
    { intros [r Hr]. rewrite E in Hr. discriminate. }
    split; [intros _; now rewrite E|].
    split; [intros Hn; contradiction|].
    split; [exact O1|]. split; [exact O2|].
    split; [intros i a Hcv Hl; destruct (O3 i a Hcv Hl) as (A & B & C & _); auto|].
    intros Hc Hv Hur rt http. subst http.
    rewrite token_endpoint_authorization_code by assumption. fold run. rewrite E.
    split; [intros Hn; contradiction|]. intros _. split; reflexivity.
Qed.


Lemma live_code_same (w : World) code cid i j a b :
  unique_ok (committed w) = true ->
  live_code (committed w) code cid i a -> live_code (committed w) code cid j b ->
  i = j /\ a = b.
Proof.
  intros Hu (Hi & Ha & _) (Hj & Hb & _).
  destruct (unique_ok_parts _ Hu) as (_ & _ & Hco & _).
  eapply live_code_unique; eauto.
Qed.

(** C4 (amended). An exchange succeeds only when the clock has not passed
    the code's [expires_at] ([now <= expires_at]: the comparison is
    [expires_at < now], so the instant [now = expires_at] still exchanges).
    When the client validates, a live record is found and [now] is past
    [expires_at], the exchange returns None, the record is tombstoned by
    that failed exchange and the endpoint answers invalid_grant. *)
Theorem exchange_code_expiry (w : World) (code cid : string) (sec : option string)
    (ver uri : string) :
  wf w ->
  (forall r, fst (exchange_code code cid sec ver uri w) = Return (Some r) ->
     exists i a, live_code (committed w) code cid i a
                 /\ clock w (ticks w) <= ac_expires_at a)
  /\ (forall i a,
        client_validates (committed w) cid sec ->
        live_code (committed w) code cid i a ->
        ac_expires_at a < clock w (ticks w) ->
        let w' := snd (exchange_code code cid sec ver uri w) in
        fst (exchange_code code cid sec ver uri w) = Return None
        /\ nth_error (codes (committed w')) i
           = Some (set_code_deleted_at (clock w (S (ticks w))) a)
        /\ ac_deleted_at (set_code_deleted_at (clock w (S (ticks w))) a) <> None
        /\ (code <> "" -> ver <> "" -> uri <> "" -> forall rt,
            fst (token_endpoint "authorization_code" (Some code) (Some uri) cid sec
                                (Some ver) rt w)
            = Return (invalid_grant "Invalid or expired authorization code"))).
Proof.
  intros Hwf.
  pose proof (exchange_code_cases w code cid sec ver uri Hwf) as Hcase.
  destruct Hwf as [Hu Hs].
  split.
  - intros r Hr. rewrite Hr in Hcase.
    inversion Hcase as [| | | | | i a Hcv Hl He Hp Hr' Hq |]; subst. eauto.
  - intros i a Hcv Hl He w'. subst w'.
    assert (E : exchange_code code cid sec ver uri w
                = (Return None,
                   after (tombstone_code i (clock w (1 + ticks w)%nat) (committed w)) 2 0 w)).
    { destruct (exchange_code code cid sec ver uri w) as [o w'] eqn:E.
      cbn [fst snd] in Hcase.
      inversion Hcase as [Hn | Hcv' Hn | j b Hcv' Hl' He' | j b Hcv' Hl' He' Hp
                          | j b Hcv' Hl' He' Hp Hr | j b Hcv' Hl' He' Hp Hr Hq
                          | j b Hcv' Hl' He' Hp Hr Hq]; subst o; try subst w';
        try (destruct (live_code_same w code cid i j a b Hu Hl Hl') as [<- <-]);
        try (exfalso; lia).
      - contradiction.
      - exfalso. exact (Hn i a Hl).
      - reflexivity. }
    rewrite E. cbn [fst snd].
    split; [reflexivity|]. split.
    { unfold after, tombstone_code, with_codes. cbn [committed codes].
      apply nth_error_update_nth. apply Hl. }
    split; [discriminate|].
    intros Hc Hv Hur rt. rewrite token_endpoint_authorization_code, E by assumption.
    reflexivity.
Qed.


Lemma exchange_code_tombstones_only (w : World) (code cid : string) (sec : option string)
    (ver uri : string) (j : nat) (b : OAuthMCPAuthorizationCode) :
  wf w ->
  nth_error (codes (committed w)) j = Some b ->
  nth_error (codes (committed (snd (exchange_code code cid sec ver uri w)))) j = Some b
  \/ (ac_code b = code /\ ac_deleted_at b = None
      /\ (ac_expires_at b < clock w (ticks w)
          \/ exists r, fst (exchange_code code cid sec ver uri w) = Return (Some r))).
Proof.
  intros Hwf Hj.
  pose proof (exchange_code_cases w code cid sec ver uri Hwf) as Hcase.
  destruct Hwf as [Hu Hs].
  destruct (exchange_code code cid sec ver uri w) as [o w'] eqn:E.
  cbn [fst snd] in Hcase |- *.
  inversion Hcase as [Hn | Hcv' Hn | i a Hcv' Hl' He' | i a Hcv' Hl' He' Hp
                      | i a Hcv' Hl' He' Hp Hr | i a Hcv' Hl' He' Hp Hr Hq
                      | i a Hcv' Hl' He' Hp Hr Hq]; subst o; try subst w';
    try (left; exact Hj).
  - destruct (Nat.eq_dec i j) as [->|Hij].
    + right. destruct Hl' as (Hi & Hc & _ & Hd).
      assert (a = b) by congruence. subst b. auto.
    + left. unfold after, tombstone_code, with_codes. cbn [committed codes].
      now rewrite nth_error_update_nth_other.
  - destruct (Nat.eq_dec i j) as [->|Hij].
    + right. destruct Hl' as (Hi & Hc & _ & Hd).
      assert (a = b) by congruence. subst b. eauto.
    + left. unfold after, exchanged_db, tombstone_code, with_tokens, with_codes.
      cbn [committed codes].
      now rewrite nth_error_update_nth_other.
Qed.

(** C10. An exchange that reaches a live, unexpired record and fails the
    PKCE check or the redirect URI comparison returns None and leaves the
    store as it was: the record stays live, and the next request with a
    matching verifier and the stored redirect URI exchanges it. No
    exchange removes a live record except by expiry or by success. *)
Theorem exchange_code_failed_check_keeps_code (w : World) (code cid : string)
    (sec : option string) (ver uri : string) (i : nat) (a : OAuthMCPAuthorizationCode) :
  wf w ->
  client_validates (committed w) cid sec ->
  live_code (committed w) code cid i a ->
  clock w (ticks w) <= ac_expires_at a ->
  ~ pkce_s256 ver (ac_code_challenge a) \/ ac_redirect_uri a <> uri ->
  let w1 := snd (exchange_code code cid sec ver uri w) in
  fst (exchange_code code cid sec ver uri w) = Return None
  /\ committed w1 = committed w
  /\ wf w1
  /\ live_code (committed w1) code cid i a
  /\ (forall sec' ver',
        client_validates (committed w1) cid sec' ->
        pkce_s256 ver' (ac_code_challenge a) ->
        clock w1 (ticks w1) <= ac_expires_at a ->
        fresh_tokens w1 ->
        exists r, fst (exchange_code code cid sec' ver' (ac_redirect_uri a) w1)
                  = Return (Some r))
  /\ (forall w0 code' cid' sec' ver' uri' j b,
        wf w0 ->
        nth_error (codes (committed w0)) j = Some b ->
        nth_error (codes (committed (snd (exchange_code code' cid' sec' ver' uri' w0)))) j
        = Some b
        \/ (ac_code b = code' /\ ac_deleted_at b = None
            /\ (ac_expires_at b < clock w0 (ticks w0)
                \/ exists r, fst (exchange_code code' cid' sec' ver' uri' w0)
                             = Return (Some r)))).
Proof.
  intros Hwf Hcv Hl He Hbad w1. subst w1.
  pose proof (exchange_code_cases w code cid sec ver uri Hwf) as Hcase.
  pose proof Hwf as [Hu Hs].
  assert (E : exchange_code code cid sec ver uri w
              = (Return None, after (committed w) 1 0 w)).
  { destruct (exchange_code code cid sec ver uri w) as [o w'] eqn:E.
    cbn [fst snd] in Hcase.
    inversion Hcase as [Hn | Hcv' Hn | j b Hcv' Hl' He' | j b Hcv' Hl' He' Hp
                        | j b Hcv' Hl' He' Hp Hr | j b Hcv' Hl' He' Hp Hr Hq
                        | j b Hcv' Hl' He' Hp Hr Hq]; subst o; try subst w';
      try (destruct (live_code_same w code cid i j a b Hu Hl Hl') as [<- <-]);
      try reflexivity; exfalso.
    - contradiction.
    - exact (Hn i a Hl).
    - lia.
    - destruct Hbad as [Hb|Hb]; [apply Hb; now apply verify_pkce_s256_iff | contradiction].
    - destruct Hbad as [Hb|Hb]; [apply Hb; now apply verify_pkce_s256_iff | contradiction]. }
  rewrite E. cbn [fst snd].
  assert (Hwf1 : wf (after (committed w) 1 0 w)) by (split; [exact Hu | reflexivity]).
  split; [reflexivity|]. split; [reflexivity|]. split; [exact Hwf1|].
  split; [exact Hl|]. split.
  - intros sec' ver' Hcv1 Hp1 He1 Hf1.
    destruct (exchange_code_decides (after (committed w) 1 0 w) code cid sec' ver'
                (ac_redirect_uri a) Hwf1 Hf1) as [[_ (r & w' & E1)] | [Hn _]].
    + exists r. now rewrite E1.
    + exfalso. apply Hn. split; [exact Hcv1|]. exists i, a. auto.
  - intros w0 code' cid' sec' ver' uri' j b Hwf0 Hj.
    now apply exchange_code_tombstones_only.
Qed.

(* ================================================================== *)
(** * Single use of authorization codes                                *)
(* ================================================================== *)

Section Preservation.

Variable code : string.

Lemma pres_ret {A} (a : A) : preserves (spent code) (ret a).
Proof. intros w H. exact H. Qed.

Lemma pres_raise {A} (e : PyExc) : preserves (spent code) (@raise A e).
Proof. intros w H. exact H. Qed.

Lemma pres_bind {A B} (m : M A) (k : A -> M B) :
  preserves (spent code) m -> (forall a, preserves (spent code) (k a)) ->
  preserves (spent code) (bind m k).
Proof.
  intros Hm Hk w H. unfold bind. specialize (Hm w H).
  destruct (m w) as [[a|e] w']; simpl in *; [now apply Hk | exact Hm].
Qed.

Lemma pres_utcnow : preserves (spent code) utcnow.
Proof. intros w H. exact H. Qed.

Lemma pres_token_urlsafe (n : nat) : preserves (spent code) (token_urlsafe n).
Proof. intros w H. exact H. Qed.

Lemma pres_read {A} (f : Db -> A) : preserves (spent code) (read f).
Proof. intros w H. exact H. Qed.

Lemma pres_modify (f : Db -> Db) :
  (forall d, consumed d code -> consumed (f d) code) ->
  preserves (spent code) (modify f).
Proof. intros Hf w (H1 & H2 & H3). repeat split; auto. apply Hf, H3. Qed.

Lemma pres_commit : preserves (spent code) commit.
Proof.
  intros w (H1 & H2 & H3). unfold commit.
  destruct (unique_ok (session w)) eqn:E; repeat split; auto.
Qed.

Lemma pres_scalar {R} (rows : list (nat * R)) :
  preserves (spent code) (scalar_one_or_none rows).
Proof. intros w H. destruct rows as [|r [|]]; exact H. Qed.

Lemma consumed_with_clients (l : list OAuthMCPClient) (d : Db) :
  consumed d code -> consumed (with_clients l d) code.
Proof. intros H. exact H. Qed.

Lemma consumed_with_tokens (l : list OAuthMCPAccessToken) (d : Db) :
  consumed d code -> consumed (with_tokens l d) code.
Proof. intros H. exact H. Qed.

Lemma consumed_add_code (x : OAuthMCPAuthorizationCode) (d : Db) :
  consumed d code -> consumed (with_codes (codes d ++ [x]) d) code.
Proof.
  intros (a & Hin & Hc & Hd). exists a. repeat split; auto.
  simpl. apply in_or_app. now left.
Qed.

Lemma consumed_tombstone (i : nat) (t : datetime) (d : Db) :
  consumed d code ->
  consumed (with_codes (update_nth i (set_code_deleted_at t) (codes d)) d) code.
Proof.
  intros (a & Hin & Hc & Hd). simpl.
  destruct (In_update_nth_keep (set_code_deleted_at t) i (codes d) a Hin) as [H|H].
  - exists a. auto.
  - exists (set_code_deleted_at t a). repeat split; auto. discriminate.
Qed.

End Preservation.

Ltac preserve_step :=
  lazymatch goal with
  | |- preserves _ (bind _ _) => apply pres_bind; [| intros ]
  | |- preserves _ (ret _) => apply pres_ret
  | |- preserves _ (raise _) => apply pres_raise
  | |- preserves _ utcnow => apply pres_utcnow
  | |- preserves _ (token_urlsafe _) => apply pres_token_urlsafe
  | |- preserves _ (read _) => apply pres_read
  | |- preserves _ commit => apply pres_commit
  | |- preserves _ (scalar_one_or_none _) => apply pres_scalar
  | |- preserves _ (modify _) =>
      apply pres_modify; intros;
      first [ apply consumed_tombstone | apply consumed_add_code
            | apply consumed_with_clients | apply consumed_with_tokens ];
      assumption
  | |- preserves _ (match ?x with _ => _ end) => destruct x
  end.

Ltac preserve := repeat preserve_step.

Lemma pres_validate_client code cid sec : preserves (spent code) (validate_client cid sec).
Proof. unfold validate_client, select_where. preserve. Qed.

Lemma pres_exchange_code code c cid sec v r :
  preserves (spent code) (exchange_code c cid sec v r).
Proof.
  unfold exchange_code, select_where, _generate_token.
  apply pres_bind; [apply pres_validate_client | intros].
  preserve.
Qed.

Lemma pres_refresh_access_token code rt cid sec :
  preserves (spent code) (refresh_access_token rt cid sec).
Proof.
  unfold refresh_access_token, select_where, _generate_token.
  apply pres_bind; [apply pres_validate_client | intros].
  preserve.
Qed.

Lemma pres_validate_access_token code t :
  preserves (spent code) (validate_access_token t).
Proof. unfold validate_access_token, select_where. preserve. Qed.

Lemma pres_create_client code o n u : preserves (spent code) (create_client o n u).
Proof. unfold create_client, new_row_id. preserve. Qed.

Lemma pres_delete_client code i o : preserves (spent code) (delete_client i o).
Proof. unfold delete_client, select_where. preserve. Qed.

Lemma pres_rotate_client_secret code i o :
  preserves (spent code) (rotate_client_secret i o).
Proof. unfold rotate_client_secret, select_where. preserve. Qed.

Lemma pres_create_authorization_code code c u o r s ch :
  preserves (spent code) (create_authorization_code c u o r s ch).
Proof. unfold create_authorization_code. preserve. Qed.

Lemma serve_spent code (c : ServiceCall) (w : World) :
  spent code w -> spent code (serve c w) /\ wf (serve c w).
Proof.
  intros H.
  assert (H' : spent code
    match c with
    | CreateClient o n u => snd (create_client o n u w)
    | DeleteClient i o => snd (delete_client i o w)
    | RotateClientSecret i o => snd (rotate_client_secret i o w)
    | CreateAuthorizationCode c u o r s ch => snd (create_authorization_code c u o r s ch w)
    | ExchangeCode c cid sec v r => snd (exchange_code c cid sec v r w)
    | RefreshAccessToken rt cid sec => snd (refresh_access_token rt cid sec w)
    | ValidateAccessToken t => snd (validate_access_token t w)
    end).
  { destruct c.
    - now apply pres_create_client.
    - now apply pres_delete_client.
    - now apply pres_rotate_client_secret.
    - now apply pres_create_authorization_code.
    - now apply pres_exchange_code.
    - now apply pres_refresh_access_token.
    - now apply pres_validate_access_token. }
  unfold serve. destruct H' as (H1 & H2 & H3).
  split; [repeat split; assumption | split; [assumption | reflexivity]].
Qed.

Lemma run_spent code (calls : list ServiceCall) (w : World) :
  spent code w -> wf w -> spent code (run calls w) /\ wf (run calls w).
Proof.
  revert w. induction calls as [|c calls IH]; intros w H Hwf; [auto|].
  simpl. destruct (serve_spent code c w H). now apply IH.
Qed.

Lemma spent_exchange_none (w : World) code cid sec ver uri :
  wf w -> consumed (committed w) code ->
  exists w', exchange_code code cid sec ver uri w = (Return None, w').
Proof.
  intros Hwf (x & Hin & Hx & Hd).
  pose proof (exchange_code_cases w code cid sec ver uri Hwf) as Hcase.
  destruct Hwf as [Hu Hs].
  destruct (unique_ok_parts _ Hu) as (_ & _ & Hco & _).
  apply In_nth_error in Hin as [j Hj].
  assert (Hno : forall i a, ~ live_code (committed w) code cid i a).
  { intros i a (Hi & Ha & _ & Hlive).
    destruct (live_code_unique (committed w) code i j a x Hco Hi Ha Hj Hx) as [_ ->].
    contradiction. }
  destruct (exchange_code code cid sec ver uri w) as [o w'] eqn:E.
  cbn [fst snd] in Hcase.
  inversion Hcase as [Hn | Hcv' Hn | i a Hcv' Hl' He' | i a Hcv' Hl' He' Hp
                      | i a Hcv' Hl' He' Hp Hr | i a Hcv' Hl' He' Hp Hr Hq
                      | i a Hcv' Hl' He' Hp Hr Hq]; subst o;
    try (exfalso; exact (Hno i a Hl')); eauto.
Qed.

(** Single use, for requests served one after the other. Once an
    exchange of a code has succeeded and committed, the code has a
    tombstoned record, and after any further requests, each served after
    the one before has committed, every exchange of that code returns None,
    for every client, secret, verifier and redirect URI, and the token
    endpoint answers invalid_grant. Nothing is said here of requests in
    flight at once. *)
Theorem exchange_code_single_use (w : World) (code cid : string) (sec : option string)
    (ver uri : string) (r : TokenResponse) (w1 : World) :
  wf w ->
  exchange_code code cid sec ver uri w = (Return (Some r), w1) ->
  (exists i a, live_code (committed w) code cid i a
               /\ exists t, nth_error (codes (committed w1)) i = Some (set_code_deleted_at t a))
  /\ consumed (committed w1) code
  /\ forall (calls : list ServiceCall) cid' sec' ver' uri',
       let w2 := run calls w1 in
       (exists w3, exchange_code code cid' sec' ver' uri' w2 = (Return None, w3))
       /\ (code <> "" -> ver' <> "" -> uri' <> "" -> forall rt,
           fst (token_endpoint "authorization_code" (Some code) (Some uri') cid' sec'
                               (Some ver') rt w2)
           = Return (invalid_grant "Invalid or expired authorization code")).
Proof.
  intros Hwf E.
  pose proof (exchange_code_cases w code cid sec ver uri Hwf) as Hcase.
  rewrite E in Hcase. cbn [fst snd] in Hcase.
  inversion Hcase as [| | | | | i a Hcv Hl He Hp Hr Hq |]; subst.
  assert (Hnth : nth_error (codes (committed (after (exchanged_db w cid i a) 4 2 w))) i
                 = Some (set_code_deleted_at (clock w (1 + ticks w)%nat) a)).
  { unfold after, exchanged_db, tombstone_code, with_tokens, with_codes.
    cbn [committed codes]. apply nth_error_update_nth. apply Hl. }
  assert (Hcons : consumed (committed (after (exchanged_db w cid i a) 4 2 w)) code).
  { exists (set_code_deleted_at (clock w (1 + ticks w)%nat) a).
    split; [eapply nth_error_In; exact Hnth|]. split; [apply Hl | discriminate]. }
  split; [exists i, a; split; [exact Hl | eauto]|].
  split; [exact Hcons|].
  intros calls cid' sec' ver' uri' w2.
  assert (Hsp : spent code (after (exchanged_db w cid i a) 4 2 w)).
  { repeat split; auto. }
  assert (Hwf1 : wf (after (exchanged_db w cid i a) 4 2 w)) by (split; [exact Hq | reflexivity]).
  destruct (run_spent code calls _ Hsp Hwf1) as [(_ & Hc2 & _) Hwf2].
  fold w2 in Hc2, Hwf2.
  destruct (spent_exchange_none w2 code cid' sec' ver' uri' Hwf2 Hc2) as [w3 E3].
  split; [eauto|].
  intros Hc Hv Hu rt. rewrite token_endpoint_authorization_code, E3 by assumption.
  reflexivity.
Qed.

(* ================================================================== *)
(** * Refresh and bearer validation                                    *)
(* ================================================================== *)

Lemma distinct_app_one_fresh (l : list string) (x : string) :
  distinct (l ++ [x]) = true -> ~ In x l.
Proof.
  rewrite distinct_app_one, andb_true_iff, negb_true_iff. intros [_ H].
  now apply mem_string_false.
Qed.

(** C5. A successful refresh tombstones the record found under the
    refresh token and adds one record: its access token hashes to a value
    other than the old record's (so it differs from the old access token),
    its refresh token differs from the one presented, and it carries the
    old record's user, organization and scope, which is also the scope of
    the response. *)
Theorem refresh_access_token_rotates (w : World) (rt cid : string) (sec : option string)
    (r : TokenResponse) (w' : World) :
  wf w ->
  refresh_access_token rt cid sec w = (Return (Some r), w') ->
  exists i old new t,
    nth_error (tokens (committed w)) i = Some old
    /\ tk_deleted_at old = None
    /\ tk_refresh_token_hash old = Some (_hash rt)
    /\ tokens (committed w')
       = update_nth i (set_token_deleted_at t) (tokens (committed w)) ++ [new]
    /\ nth_error (tokens (committed w')) i = Some (set_token_deleted_at t old)
    /\ tk_deleted_at (set_token_deleted_at t old) = Some t
    /\ tk_token_hash new = _hash (access_token r)
    /\ tk_refresh_token_hash new = Some (_hash (refresh_token r))
    /\ tk_deleted_at new = None
    /\ tk_user_id new = tk_user_id old
    /\ tk_organization_id new = tk_organization_id old
    /\ tk_scope new = tk_scope old
    /\ scope r = tk_scope old
    /\ tk_token_hash new <> tk_token_hash old
    /\ (forall old_access, _hash old_access = tk_token_hash old ->
                           access_token r <> old_access)
    /\ refresh_token r <> rt.
Proof.
  intros [Hu Hs] HX.
  unfold refresh_access_token in HX. unfold bind at 1 in HX.
  destruct (validate_client cid sec w) as [[[c|]|e] wv] eqn:Hv;
    try (unfold ret in HX; discriminate).
  assert (wv = w).
  { destruct (unique_ok_parts _ Hu) as (_ & Hcl & _). rewrite <- Hs in Hcl.
    destruct (validate_client_run w cid sec Hcl) as [[c' [Hv' _]]|[Hv' _]];
      rewrite Hv' in Hv; congruence. }
  subst wv. cbv beta iota zeta in HX.
  set (cond := fun k : OAuthMCPAccessToken => _) in HX.
  unfold bind at 1 in HX. unfold select_where, read in HX. unfold bind at 1 in HX.
  destruct (filter (fun ir => cond (snd ir)) (enumerate (tokens (session w))))
    as [|[i old] [|]] eqn:Hf;
    unfold scalar_one_or_none, ret at 1, raise in HX; cbv beta iota in HX;
    try (unfold ret in HX; discriminate).
  assert (Hin : In (i, old) (filter (fun ir => cond (snd ir)) (enumerate (tokens (session w)))))
    by (rewrite Hf; now left).
  apply (filter_enum_sound cond (tokens (session w)) 0) in Hin as (j & -> & Hj & Hc).
  cbn [Nat.add] in HX.
  unfold cond in Hc. rewrite !andb_true_iff in Hc. destruct Hc as [[Hrh Hcid] Hlive].
  destruct (tk_refresh_token_hash old) as [h|] eqn:Hh; [|discriminate].
  apply String.eqb_eq in Hrh. subst h.
  destruct (tk_deleted_at old) eqn:Hdel; [discriminate|].
  rewrite Hs in Hj.
  assert (Hold_hash : In (tk_token_hash old) (map tk_token_hash (tokens (committed w)))).
  { apply in_map. eapply nth_error_In; eauto. }
  assert (Hold_rt : In (_hash rt) (non_null (map tk_refresh_token_hash (tokens (committed w))))).
  { unfold non_null. apply in_flat_map. exists (Some (_hash rt)).
    split; [|now left]. rewrite <- Hh. apply in_map. eapply nth_error_In; eauto. }
  unfold bind at 1 in HX.
  destruct (tk_refresh_expires_at old) as [e|];
    [ unfold bind at 1, utcnow at 1, ret at 1 in HX; cbv beta iota in HX;
      destruct (e <? clock w (ticks w)); [unfold ret in HX; discriminate|]
    | unfold ret at 1 in HX; cbv beta iota in HX ].
  all: unfold bind, utcnow, modify, commit, with_session, ret, _generate_token,
         token_urlsafe in HX.
  all: cbn -[unique_ok ACCESS_TOKEN_LIFETIME REFRESH_TOKEN_LIFETIME total_seconds
             ACCESS_TOKEN_PREFIX REFRESH_TOKEN_PREFIX String.append] in HX.
  all: rewrite Hs in HX.
  all: match type of HX with
       | context [if unique_ok ?d then _ else _] => destruct (unique_ok d) eqn:Hq
       end; [|discriminate].
  all: pose proof (f_equal fst HX) as Hr; pose proof (f_equal snd HX) as Hw.
  all: cbn [fst snd] in Hr, Hw; clear HX.
  all: injection Hr as Hr; subst r w'.
  all: destruct (unique_ok_parts _ Hq) as (_ & _ & _ & H4 & H5).
  all: cbn [tokens with_tokens] in H4, H5.
  all: rewrite map_app, map_update_nth in H4 by reflexivity.
  all: rewrite map_app, non_null_app, map_update_nth in H5 by reflexivity.
  all: cbn [map non_null flat_map app tk_token_hash tk_refresh_token_hash] in H4, H5.
  all: apply distinct_app_one_fresh in H4, H5.
  all: exists j, old; eexists; eexists.
  all: cbn [committed tokens with_tokens access_token refresh_token scope
            tk_token_hash tk_refresh_token_hash tk_deleted_at tk_user_id
            tk_organization_id tk_scope].
  all: split; [exact Hj|]; split; [exact Hdel|]; split; [exact Hh|].
  all: split; [reflexivity|].
  all: split;
       [ rewrite nth_error_app1;
         [ now apply nth_error_update_nth
         | apply nth_error_Some; erewrite nth_error_update_nth by eassumption;
           discriminate ] |].
  all: split; [reflexivity|].
  all: repeat (split; [reflexivity|]).
  all: cbn [tk_token_hash tk_refresh_token_hash access_token refresh_token].
  all: split; [intros E; apply H4; rewrite E; exact Hold_hash|].
  all: split;
       [ intros oa Hoa E; subst oa; apply H4;
         assert (E' : _hash (ACCESS_TOKEN_PREFIX ++ entropy w (draws w))%string
                      = tk_token_hash old) by exact Hoa;
         rewrite E'; exact Hold_hash |].
  all: intros E; apply H5.
  all: assert (E' : (REFRESH_TOKEN_PREFIX ++ entropy w (S (draws w)))%string = rt)
         by exact E.
  all: rewrite E'; exact Hold_rt.
Qed.

Lemma token_record_unique (d : Db) (h : string) (a b : OAuthMCPAccessToken) :
  distinct (map tk_token_hash (tokens d)) = true ->
  In a (tokens d) -> In b (tokens d) ->
  tk_token_hash a = h -> tk_token_hash b = h -> a = b.
Proof.
  intros Hd Ha Hb Hha Hhb.
  apply In_nth_error in Ha as [i Hi]. apply In_nth_error in Hb as [j Hj].
  assert (i = j).
  { eapply (distinct_key_inj (fun k => Some (tk_token_hash k)) (k := h))
      with (l := tokens d); eauto.
    - now rewrite non_null_map_some.
    - simpl. now f_equal.
    - simpl. now f_equal. }
  subst j. congruence.
Qed.

(** C6 (amended). [validate_access_token] returns the pair (user,
    organization) exactly when the token has the prefix bow_oauth_, a live
    record exists under its SHA-256 whose [expires_at] is not before now
    ([expires_at >= now]: the comparison is [expires_at < now]), and the
    referenced user and organization both exist; otherwise it returns None. *)
Theorem validate_access_token_spec (w : World) (token : string) :
  wf w ->
  let res := fst (validate_access_token token w) in
  (forall u o, res = Return (Some (u, o))
               <-> token_valid (committed w) (clock w (ticks w)) token u o)
  /\ ((forall u o, ~ token_valid (committed w) (clock w (ticks w)) token u o) ->
      res = Return None).
Proof.
  intros [Hu Hs] res.
  destruct (unique_ok_parts _ Hu) as (_ & _ & _ & Htk & _).
  assert (Hdec : (res = Return None
                  /\ forall u o, ~ token_valid (committed w) (clock w (ticks w)) token u o)
                 \/ (exists u o, res = Return (Some (u, o))
                       /\ token_valid (committed w) (clock w (ticks w)) token u o
                       /\ forall u' o', token_valid (committed w) (clock w (ticks w))
                                                    token u' o' -> u' = u /\ o' = o)).
  { subst res.
    remember (validate_access_token token w) as X eqn:HX.
    unfold validate_access_token in HX.
    destruct (startswith token ACCESS_TOKEN_PREFIX) eqn:Hp; cbn [negb] in HX.
    2:{ left. subst X. split; [reflexivity|]. intros u o [Hp' _]. congruence. }
    set (cond := fun k : OAuthMCPAccessToken => _) in HX.
    assert (Hcond : forall k, cond k = true <->
              tk_token_hash k = _hash token /\ tk_deleted_at k = None).
    { intros k. unfold cond. rewrite andb_true_iff, String.eqb_eq.
      destruct (tk_deleted_at k); simpl; intuition congruence. }
    unfold bind at 1 in HX. unfold select_where, read at 1 in HX. unfold bind at 1 in HX.
    assert (Hone : forall k, In k (tokens (committed w)) -> cond k = true ->
              forall u o, token_valid (committed w) (clock w (ticks w)) token u o ->
                clock w (ticks w) <= tk_expires_at k
                /\ users (committed w) (tk_user_id k) = Some u
                /\ organizations (committed w) (tk_organization_id k) = Some o).
    { intros k Hin Hc u o (_ & k' & Hin' & Hh' & _ & He & Hus & Hor).
      apply Hcond in Hc as [Hh _].
      assert (k' = k) by (eapply token_record_unique; eauto). subst k'. auto. }
    destruct (lookup_unique (fun k => Some (tk_token_hash k)) cond (k := _hash token))
      with (l := tokens (session w)) as [[Hf Hn]|[i [k [Hf [Hi Hc]]]]].
    - intros r Hr. apply Hcond in Hr as [-> _]. reflexivity.
    - rewrite non_null_map_some, Hs. exact Htk.
    - rewrite Hf in HX. subst X. left. split; [reflexivity|].
      intros u o (_ & k & Hin & Hh & Hd & _). rewrite <- Hs in Hin.
      specialize (Hn k Hin). assert (cond k = true) by (apply Hcond; auto). congruence.
    - rewrite Hf in HX. unfold scalar_one_or_none, ret at 1 in HX. cbv beta iota in HX.
      unfold bind at 1, utcnow at 1 in HX. cbv beta iota in HX.
      rewrite Hs in Hi. apply nth_error_In in Hi.
      specialize (Hone k Hi Hc). apply Hcond in Hc as [Hh Hd].
      destruct (tk_expires_at k <? clock w (ticks w)) eqn:He.
      { left. subst X. split; [reflexivity|]. intros u o Hv.
        apply Z.ltb_lt in He. destruct (Hone u o Hv) as [? _]. lia. }
      apply Z.ltb_ge in He.
      unfold bind at 1, read at 1 in HX. cbn [session] in HX. rewrite Hs in HX.
      destruct (users (committed w) (tk_user_id k)) as [u|] eqn:Hus.
      2:{ left. subst X. split; [reflexivity|]. intros u o Hv.
          destruct (Hone u o Hv) as (_ & ? & _). congruence. }
      unfold bind at 1, read at 1 in HX. cbn [session] in HX.
      destruct (organizations (committed w) (tk_organization_id k)) as [o|] eqn:Hor.
      2:{ left. subst X. split; [reflexivity|]. intros u' o' Hv.
          destruct (Hone u' o' Hv) as (_ & _ & ?). congruence. }
      right. exists u, o. subst X. split; [reflexivity|]. split.
      + split; [exact Hp|]. exists k. repeat split; auto.
      + intros u' o' Hv. destruct (Hone u' o' Hv) as (_ & ? & ?).
        split; congruence. }
  destruct Hdec as [[Hr Hn] | (u & o & Hr & Hv & Huniq)].
  - split; [|auto]. intros u o. rewrite Hr. split; [discriminate|].
    intros Hv. exfalso. exact (Hn u o Hv).
  - split.
    + intros u' o'. rewrite Hr. split.
      * intros [= <- <-]. exact Hv.
      * intros Hv'. destruct (Huniq u' o' Hv') as [-> ->]. reflexivity.
    + intros Hn. exfalso. exact (Hn u o Hv).
Qed.

(* ================================================================== *)
(** * The MCP dispatcher and gateway, client creation                  *)
(* ================================================================== *)

Lemma substring_full (s : string) : substring 0 (String.length s) s = s.
Proof. induction s as [|c s IH]; simpl; [reflexivity | now rewrite IH]. Qed.

Lemma bearer_token (tok : string) :
  startswith ("Bearer " ++ tok) "Bearer " = true
  /\ substring 7 (String.length ("Bearer " ++ tok) - 7) ("Bearer " ++ tok) = tok.
Proof.
  split; [unfold startswith; simpl; now destruct tok|].
  simpl. rewrite Nat.sub_0_r. apply substring_full.
Qed.

(** Splits on every test and lookup of the dispatcher. *)
Ltac auth_cases H :=
  repeat (cbv beta iota in H;
          match type of H with
          | context [match ?x with _ => _ end] =>
              lazymatch x with
              | context [match _ with _ => _ end] => fail
              | _ => destruct x eqn:?
              end
          end).

Lemma missing_present (key : string) : key <> "" -> negb (missing (Some key)) = true.
Proof. intros H. cbn [missing]. apply String.eqb_neq in H. now rewrite H. Qed.

(** C7 (amended). The dispatcher makes its attempts in the order session,
    API-key header, Authorization bearer, and returns at the first scheme
    that resolves both a user and an organization: a session user whose
    organization is selected is returned at once, with no other attempt; an
    API key in the header that resolves user and organization is returned
    before any bearer attempt. A partial success does not stop it: a
    session user whose organization selection raises an HTTPException is
    dropped, and so is an API key of the header that resolves a user and no
    organization; the dispatcher then goes on exactly as if that credential
    had not been sent. A bearer token with the OAuth prefix is never looked
    up as an API key, and when its validation fails no further attempt is
    made and no pair is returned. *)
Theorem mcp_auth_precedence (env : AuthEnv) (request : Request) (jwt_user : option User)
    (api_key : option string) (w : World)
    (r : option Principal) (trace : list Attempt) (w' : World) :
  mcp_auth_attempts env request jwt_user api_key w = (Return (r, trace), w') ->
  in_order (map scheme_of trace) = true
  /\ (forall u org, jwt_user = Some u ->
        get_current_organization env request (session w) = inr org ->
        r = Some (u, org) /\ trace = [SessionOrganization u])
  /\ (forall u e, jwt_user = Some u ->
        get_current_organization env request (session w) = inl e ->
        exists trace', trace = SessionOrganization u :: trace'
                       /\ mcp_auth_attempts env request None api_key w
                          = (Return (r, trace'), w'))
  /\ (forall u org,
        jwt_user = None
        \/ (exists e, get_current_organization env request (session w) = inl e) ->
        negb (missing api_key) && is_api_key (field api_key) = true ->
        get_user_by_api_key env (session w) (field api_key) = Some u ->
        get_organization_by_api_key env (session w) (field api_key) = Some org ->
        r = Some (u, org)
        /\ forallb (fun a => (scheme_of a <=? 2)%nat) trace = true)
  /\ (forall u,
        jwt_user = None ->
        negb (missing api_key) && is_api_key (field api_key) = true ->
        get_user_by_api_key env (session w) (field api_key) = Some u ->
        get_organization_by_api_key env (session w) (field api_key) = None ->
        exists trace',
          trace = ApiKeyUser XApiKeyHeader (field api_key)
                  :: ApiKeyOrganization XApiKeyHeader (field api_key) :: trace'
          /\ mcp_auth_attempts env request None None w = (Return (r, trace'), w'))
  /\ (forall tok, req_authorization request = Some ("Bearer " ++ tok)%string ->
        startswith tok "bow_oauth_" = true ->
        existsb is_bearer_api_key trace = false
        /\ (In (OAuthValidation tok) trace ->
            fst (validate_access_token tok w) = Return None ->
            r = None /\ exists before, trace = before ++ [OAuthValidation tok]))
  /\ (forall p, r = Some p ->
        mcp_auth env request jwt_user api_key w = (Return (inr p, trace), w'))
  /\ (r = None ->
      forall p t w'', mcp_auth env request jwt_user api_key w <> (Return (inr p, t), w'')).
Proof.
  intros H.
  assert (Hfinal : (forall p, r = Some p ->
                      mcp_auth env request jwt_user api_key w
                      = (Return (inr p, trace), w'))
                   /\ (r = None ->
                       forall p t w'', mcp_auth env request jwt_user api_key w
                                       <> (Return (inr p, t), w''))).
  { unfold mcp_auth, bind. rewrite H. split.
    - intros p ->. reflexivity.
    - intros -> p t w''. unfold lift, ret.
      destruct (_resource_metadata_url env request); discriminate. }
  unfold mcp_auth_attempts, api_key_lookup, is_api_key in H.
  unfold bind, read, ret in H.
  auth_cases H; cbv beta iota in H; try discriminate H.
  all: injection H as <- <- <-.
  all: split; [simpl; reflexivity|].
  all: split;
    [ intros ? ? Hu Horg;
      first [ discriminate Hu | discriminate Horg
            | injection Hu as <-; injection Horg as <-; split; reflexivity ] |].
  all: split;
    [ intros ? ? Hu Hexc;
      first [ discriminate Hu | discriminate Hexc
            | injection Hu as <-; eexists; split; [reflexivity|];
              unfold mcp_auth_attempts, api_key_lookup, is_api_key, bind, read, ret;
              cbv beta iota;
              repeat (match goal with
                      | Hq : ?x = _ |- context [?x] => rewrite Hq
                      end; cbv beta iota);
              reflexivity ] |].
  all: split;
    [ intros ? ? Hno Hcond Hgu Hgo; unfold is_api_key in Hcond;
      destruct Hno as [Hno|[? Hno]]; try discriminate Hno;
      first [ exfalso; congruence
            | split; [injection Hgu as <-; injection Hgo as <-; reflexivity
                     | simpl; reflexivity] ] |].
  all: split;
    [ intros ? Hno Hcond Hgu Hgo; unfold is_api_key in Hcond;
      first [ discriminate Hno
            | exfalso; congruence
            | eexists; split; [reflexivity|];
              unfold mcp_auth_attempts, api_key_lookup, is_api_key, bind, read, ret;
              cbv beta iota; cbn [missing negb andb];
              repeat (match goal with
                      | Hq : ?x = _ |- context [?x] => rewrite Hq
                      end; cbv beta iota);
              reflexivity ] |].
  all: split; [|exact Hfinal].
  all: clear Hfinal.
  all: intros tok Hreq Hpre.
  all: destruct (bearer_token tok) as [Hb1 Hb2].
  all: rewrite ?Hreq in *; cbn [field] in *.
  all: rewrite ?Hb1, ?Hb2 in *; rewrite ?Hpre in *; cbn [negb] in *;
       rewrite ?andb_false_r in *; try discriminate.
  all: split; [simpl; reflexivity|].
  all: intros Hin Hval.
  all: try (simpl in Hin; intuition discriminate).
  all: try (match goal with
            | Hq : validate_access_token _ _ = _ |- _ => rewrite Hq in Hval
            end; simpl in Hval; discriminate).
  all: split; [reflexivity|].
  all: first [ refine (ex_intro _ [] eq_refl) | refine (ex_intro _ [_] eq_refl)
             | refine (ex_intro _ [_; _] eq_refl) | refine (ex_intro _ [_; _; _] eq_refl) ].
Qed.

(** C8 (amended). For a tools/call whose tool is resolved: when the tool
    raises, the gateway answers 200 with a JSON-RPC result (no error member)
    whose content is the failure message and isError true; when the tool
    returns a value json.dumps can serialise, the same shape with the JSON
    text and isError false; when json.dumps itself raises on the returned
    value, the failure is reported like a tool failure, isError true. *)
Theorem tools_call_envelope (env : McpEnv) (request : JsonRpcRequest)
    (params : list (string * PyVal)) (name : PyVal) (tool : Tool)
    (user : User) (organization : Organization) (w : World) :
  _check_mcp_enabled organization = None ->
  rpc_method request = "tools/call" ->
  rpc_params request = Some params ->
  dict_get "name" params = Some name ->
  falsy name = false ->
  get_mcp_tool env name = Some tool ->
  let arguments := match dict_get "arguments" params with
                   | Some v => v
                   | None => PyDict []
                   end in
  let ran := execute tool arguments user organization w in
  let id := id_value (rpc_id request) in
  let response := fst (mcp_endpoint env (Parsed request) (user, organization) w) in
  snd (mcp_endpoint env (Parsed request) (user, organization) w) = snd ran
  /\ (forall str_e, fst ran = ToolRaise str_e ->
        response = inr (tool_result true str_e id))
  /\ (forall result text, fst ran = ToolReturn result -> Json.dumps result = inl text ->
        response = inr (tool_result false text id))
  /\ (forall result str_e, fst ran = ToolReturn result -> Json.dumps result = inr str_e ->
        response = inr (tool_result true str_e id))
  /\ (exists r, response = inr r /\ mcp_status_code r = 200
                /\ match mcp_content r with
                   | PyDict items => dict_get "error" items = None
                                     /\ dict_get "result" items <> None
                   | _ => False
                   end).
Proof.
  intros Hen Hm Hp Hn Hf Ht arguments ran id response.
  subst response. unfold mcp_endpoint. rewrite Hen, Hm, Hp.
  cbn [String.eqb Ascii.eqb Bool.eqb andb]. rewrite Hn, Hf, Ht.
  fold arguments. fold ran. fold id.
  destruct ran as [[result|str_e] w1]; cbn [fst snd].
  - destruct (Json.dumps result) as [text|str_e] eqn:Hd; cbn [fst snd].
    + split; [reflexivity|]. split; [discriminate|].
      split; [intros ? ? [= <-] Hd'; rewrite Hd in Hd'; injection Hd' as <-; reflexivity|].
      split; [intros ? ? [= <-] Hd'; rewrite Hd in Hd'; discriminate|].
      eexists. split; [reflexivity|]. split; [reflexivity|].
      cbn. split; [reflexivity | discriminate].
    + split; [reflexivity|]. split; [discriminate|].
      split; [intros ? ? [= <-] Hd'; rewrite Hd in Hd'; discriminate|].
      split; [intros ? ? [= <-] Hd'; rewrite Hd in Hd'; injection Hd' as <-; reflexivity|].
      eexists. split; [reflexivity|]. split; [reflexivity|].
      cbn. split; [reflexivity | discriminate].
  - split; [reflexivity|].
    split; [intros ? [= <-]; reflexivity|].
    split; [discriminate|]. split; [discriminate|].
    eexists. split; [reflexivity|]. split; [reflexivity|].
    cbn. split; [reflexivity | discriminate].
Qed.

(** C9 (amended). [create_client] stores the default allowlist, four
    URIs, when redirect_uris is omitted; when a list is supplied it stores
    that list unchanged, so the stored list is non-empty exactly when the
    supplied one is. *)
Theorem create_client_redirect_uris (organization_id name : string)
    (redirect_uris : option (list string)) (w : World) (r : ClientCreated) (w' : World) :
  create_client organization_id name redirect_uris w = (Return r, w') ->
  exists client,
    clients (committed w') = clients (session w) ++ [client]
    /\ cl_client_id client = cc_client_id r
    /\ json_loads (cl_redirect_uris client) = cc_redirect_uris r
    /\ (redirect_uris = None ->
        json_loads (cl_redirect_uris client) = CLAUDE_REDIRECT_URIS
        /\ List.length (json_loads (cl_redirect_uris client)) = 4%nat)
    /\ (forall uris, redirect_uris = Some uris ->
        json_loads (cl_redirect_uris client) = uris
        /\ (json_loads (cl_redirect_uris client) <> [] <-> uris <> [])).
Proof.
  intros H.
  unfold create_client, new_row_id, bind, token_urlsafe, modify, commit, with_session, ret in H.
  cbn -[unique_ok String.append CLAUDE_REDIRECT_URIS] in H.
  match type of H with
  | context [if unique_ok ?d then _ else _] => destruct (unique_ok d) eqn:Hq
  end; [|discriminate].
  pose proof (f_equal fst H) as Hr. pose proof (f_equal snd H) as Hw.
  cbn [fst snd] in Hr, Hw. clear H. injection Hr as Hr. subst r w'.
  eexists. cbn [committed clients with_clients cc_client_id cc_redirect_uris].
  split; [reflexivity|]. split; [reflexivity|]. split; [reflexivity|].
  split.
  - intros ->. split; reflexivity.
  - intros uris ->. split; [reflexivity|]. cbn [json_loads cl_redirect_uris]. tauto.
Qed.

(* ================================================================== *)
(** * The sample deployment                                            *)
(* ================================================================== *)

Lemma sample_wf (now : datetime) : wf (Sample.world now).
Proof. split; [vm_compute; reflexivity | reflexivity]. Qed.

Lemma sample_client_validates (now : datetime) :
  client_validates (committed (Sample.world now)) "bow_client_A" None.
Proof.
  exists Sample.client. split; [now left|]. repeat split. discriminate.
Qed.

Lemma sample_live_code (now : datetime) :
  live_code (committed (Sample.world now)) "code-1" "bow_client_A" 0 Sample.code.
Proof. repeat split. Qed.

(** At the sample deployment: the code is exchanged once at 900. *)
Lemma exchange_code_single_use_witness :
  wf (Sample.world 900)
  /\ Sample.exchange 900 Sample.verifier
     = (Return (Some Sample.tokens_issued), snd (Sample.exchange 900 Sample.verifier))
  /\ consumed (committed (snd (Sample.exchange 900 Sample.verifier))) "code-1"
  /\ exists w3, exchange_code "code-1" "bow_client_A" None Sample.verifier Sample.callback
                  (run [] (snd (Sample.exchange 900 Sample.verifier)))
                = (Return None, w3).
Proof.
  assert (HX : Sample.exchange 900 Sample.verifier
               = (Return (Some Sample.tokens_issued),
                  snd (Sample.exchange 900 Sample.verifier)))
    by (vm_compute; reflexivity).
  split; [apply sample_wf|]. split; [exact HX|].
  destruct (exchange_code_single_use (Sample.world 900) "code-1" "bow_client_A" None
              Sample.verifier Sample.callback Sample.tokens_issued
              (snd (Sample.exchange 900 Sample.verifier)) (sample_wf 900) HX)
    as (_ & Hc & Hafter).
  split; [exact Hc|].
  exact (proj1 (Hafter [] "bow_client_A" None Sample.verifier Sample.callback)).
Defined.

Lemma sample_codes_row (now : datetime) (code cid : string) (i : nat)
    (a : OAuthMCPAuthorizationCode) :
  live_code (committed (Sample.world now)) code cid i a -> a = Sample.code.
Proof.
  intros (Hi & _). unfold Sample.world, Sample.db in Hi.
  cbn [committed codes] in Hi.
  destruct i as [|[|i]]; cbn [nth_error] in Hi; [|discriminate Hi|discriminate Hi].
  now injection Hi as <-.
Qed.

(** C1. Single use fails for exchanges in flight at once. Two exchanges
    of the sample code are started on the same store and both read the
    record before either commits: both return tokens, two different token
    responses for one code. The writes of the second are the UPDATE of the
    code row it had loaded and the INSERT of its token row; applied to the
    store the first exchange left they violate no unique index, so its
    commit is accepted, and the store then holds the token rows of both. *)
Lemma exchange_code_twice_in_flight :
  Tour.raced = (Return (Some Sample.tokens_issued), Return (Some Tour.second_tokens))
  /\ access_token Sample.tokens_issued <> access_token Tour.second_tokens
  /\ refresh_token Sample.tokens_issued <> refresh_token Tour.second_tokens
  /\ session (snd (exchange_code "code-1" "bow_client_A" None Sample.verifier
                     Sample.callback
                     (in_flight (Sample.world 900)
                                (snd (Sample.exchange 900 Sample.verifier)))))
     = exchange_writes 0 900 Tour.second_record (committed (Sample.world 900))
  /\ unique_ok (exchange_writes 0 900 Tour.second_record
                  (committed (snd (Sample.exchange 900 Sample.verifier)))) = true
  /\ map tk_token_hash
         (tokens (exchange_writes 0 900 Tour.second_record
                    (committed (snd (Sample.exchange 900 Sample.verifier)))))
     = [_hash "bow_oauth_T0"; _hash "bow_oauth_AAAA"; _hash "bow_oauth_CCCC"].
Proof.
  split; [vm_compute; reflexivity|].
  split; [intros E; vm_compute in E; discriminate E|].
  split; [intros E; vm_compute in E; discriminate E|].
  split; [vm_compute; reflexivity|].
  split; vm_compute; reflexivity.
Qed.

Lemma sample_fresh (now : datetime) : fresh_tokens (Sample.world now).
Proof. split; vm_compute; reflexivity. Qed.

(** C2 at the sample deployment. *)
Lemma exchange_code_iff_conditions_witness :
  wf (Sample.world 900) /\ fresh_tokens (Sample.world 900)
  /\ ((exists r, fst (exchange_code "code-1" "bow_client_A" None Sample.verifier
                                    Sample.callback (Sample.world 900))
                 = Return (Some r))
      <-> exchange_conditions (committed (Sample.world 900))
            (clock (Sample.world 900) (ticks (Sample.world 900)))
            "code-1" "bow_client_A" None Sample.verifier Sample.callback).
Proof.
  split; [apply sample_wf|]. split; [apply sample_fresh|].
  exact (proj1 (exchange_code_iff_conditions (Sample.world 900) "code-1" "bow_client_A"
                  None Sample.verifier Sample.callback (sample_wf 900) (sample_fresh 900))).
Defined.

(** C2, as stated, fails: at [now = expires_at] the third condition as
    the specification words it, [now < expires_at], does not hold, and the
    exchange succeeds. *)
Lemma exchange_code_succeeds_without_condition_3 :
  ~ exchange_conditions_spec (committed (Sample.world 1000))
      (clock (Sample.world 1000) (ticks (Sample.world 1000)))
      "code-1" "bow_client_A" None Sample.verifier Sample.callback
  /\ Sample.exchange 1000 Sample.verifier
     = (Return (Some (issued_response (Sample.world 1000) "mcp")),
        snd (Sample.exchange 1000 Sample.verifier)).
Proof.
  split; [|vm_compute; reflexivity].
  intros (_ & i & a & Hl & Hlt & _).
  apply sample_codes_row in Hl. subst a.
  cbn in Hlt. lia.
Qed.

(** C4 at the sample deployment, one tick after the code expired. *)
Lemma exchange_code_expiry_witness :
  wf (Sample.world 1001)
  /\ fst (exchange_code "code-1" "bow_client_A" None Sample.verifier Sample.callback
                        (Sample.world 1001)) = Return None
  /\ nth_error (codes (committed (snd (exchange_code "code-1" "bow_client_A" None
                                          Sample.verifier Sample.callback
                                          (Sample.world 1001))))) 0
     = Some (set_code_deleted_at 1001 Sample.code).
Proof.
  split; [apply sample_wf|].
  destruct (proj2 (exchange_code_expiry (Sample.world 1001) "code-1" "bow_client_A" None
                     Sample.verifier Sample.callback (sample_wf 1001))
              0%nat Sample.code (sample_client_validates 1001) (sample_live_code 1001))
    as (H1 & H2 & _).
  - simpl. lia.
  - split; [exact H1 | exact H2].
Defined.

(** C4, as stated, fails: at [now = expires_at], which is not strictly
    before [expires_at], the exchange succeeds. *)
Lemma exchange_code_succeeds_at_expires_at :
  ~ clock (Sample.world 1000) (ticks (Sample.world 1000)) < ac_expires_at Sample.code
  /\ live_code (committed (Sample.world 1000)) "code-1" "bow_client_A" 0 Sample.code
  /\ fst (Sample.exchange 1000 Sample.verifier)
     = Return (Some (issued_response (Sample.world 1000) "mcp")).
Proof.
  split; [simpl; lia|]. split; [apply sample_live_code|]. vm_compute. reflexivity.
Qed.

(** C5 at the sample deployment. *)
Lemma refresh_access_token_rotates_witness :
  wf (Sample.world 900)
  /\ Sample.refreshed = (Return (Some Sample.tokens_issued), snd Sample.refreshed)
  /\ exists old new,
       nth_error (tokens (committed (Sample.world 900))) 0 = Some old
       /\ tk_token_hash new <> tk_token_hash old
       /\ tk_scope new = tk_scope old
       /\ refresh_token Sample.tokens_issued <> "bow_rt_R0".
Proof.
  assert (HX : Sample.refreshed
               = (Return (Some Sample.tokens_issued), snd Sample.refreshed))
    by (vm_compute; reflexivity).
  split; [apply sample_wf|]. split; [exact HX|].
  destruct (refresh_access_token_rotates (Sample.world 900) "bow_rt_R0" "bow_client_A"
              None Sample.tokens_issued (snd Sample.refreshed) (sample_wf 900) HX)
    as (i & old & new & t & H1 & H2 & H3 & H4 & H5 & H6 & H7 & H8 & H9 & H10 & H11
        & H12 & H13 & H14 & H15 & H16).
  assert (i = 0%nat).
  { destruct i as [|i]; [reflexivity|].
    unfold Sample.world, Sample.db in H1. cbn [committed tokens nth_error] in H1.
    destruct i; discriminate H1. }
  subst i. exists old, new.
  split; [exact H1|]. split; [exact H14|]. split; [exact H12|]. exact H16.
Defined.

(** C6 at the sample deployment. *)
Lemma validate_access_token_spec_witness :
  wf (Sample.world 900)
  /\ (fst (validate_access_token "bow_oauth_T0" (Sample.world 900))
      = Return (Some (Sample.alice, Sample.acme))
      <-> token_valid (committed (Sample.world 900))
            (clock (Sample.world 900) (ticks (Sample.world 900)))
            "bow_oauth_T0" Sample.alice Sample.acme).
Proof.
  split; [apply sample_wf|].
  exact (proj1 (validate_access_token_spec (Sample.world 900) "bow_oauth_T0"
                  (sample_wf 900)) Sample.alice Sample.acme).
Defined.

(** C6, as stated, fails: a token whose [expires_at] equals now, hence is
    not strictly greater, is still accepted. *)
Lemma validate_access_token_accepts_at_expires_at :
  tokens (committed (Sample.world 5000)) = [Sample.token_row]
  /\ ~ clock (Sample.world 5000) (ticks (Sample.world 5000)) < tk_expires_at Sample.token_row
  /\ fst (validate_access_token "bow_oauth_T0" (Sample.world 5000))
     = Return (Some (Sample.alice, Sample.acme)).
Proof.
  split; [reflexivity|]. split; [simpl; lia|]. vm_compute. reflexivity.
Qed.

(** C7 at the sample deployment: an API key in the header. *)
Lemma mcp_auth_precedence_witness :
  mcp_auth_attempts Sample.auth_env Sample.request None (Some "bow_key1")
    (Sample.world 900)
  = (Return (Some (Sample.bob, Sample.acme),
             [ApiKeyUser XApiKeyHeader "bow_key1";
              ApiKeyOrganization XApiKeyHeader "bow_key1"]),
     Sample.world 900)
  /\ in_order (map scheme_of [ApiKeyUser XApiKeyHeader "bow_key1";
                              ApiKeyOrganization XApiKeyHeader "bow_key1"]) = true
  /\ mcp_auth Sample.auth_env Sample.request None (Some "bow_key1") (Sample.world 900)
     = (Return (inr (Sample.bob, Sample.acme),
                [ApiKeyUser XApiKeyHeader "bow_key1";
                 ApiKeyOrganization XApiKeyHeader "bow_key1"]),
        Sample.world 900).
Proof.
  assert (H : mcp_auth_attempts Sample.auth_env Sample.request None (Some "bow_key1")
                (Sample.world 900)
              = (Return (Some (Sample.bob, Sample.acme),
                         [ApiKeyUser XApiKeyHeader "bow_key1";
                          ApiKeyOrganization XApiKeyHeader "bow_key1"]),
                 Sample.world 900)) by (vm_compute; reflexivity).
  split; [exact H|].
  destruct (mcp_auth_precedence _ _ _ _ _ _ _ _ H) as (H1 & _ & _ & _ & _ & _ & H7 & _).
  split; [exact H1 | exact (H7 _ eq_refl)].
Defined.

(** C7, as stated, fails, twice. The session resolves alice, the
    organization selector raises, and the dispatcher goes on to the API-key
    header and authenticates the request as bob. And an API key of the
    header resolves carol but no organization, and the dispatcher goes on
    to the bearer token and authenticates the request as alice. *)
Lemma mcp_auth_falls_back_after_partial_success :
  (get_current_organization Sample.auth_env Sample.request (session (Sample.world 900))
   = inl (mkHTTPException 403 "No organization selected" [])
   /\ mcp_auth Sample.auth_env Sample.request (Some Sample.alice) (Some "bow_key1")
               (Sample.world 900)
      = (Return (inr (Sample.bob, Sample.acme),
                 [SessionOrganization Sample.alice;
                  ApiKeyUser XApiKeyHeader "bow_key1";
                  ApiKeyOrganization XApiKeyHeader "bow_key1"]),
         Sample.world 900))
  /\ (get_user_by_api_key Tour.partial_env (session (Sample.world 900)) "bow_key3"
      = Some Tour.carol
      /\ get_organization_by_api_key Tour.partial_env (session (Sample.world 900))
           "bow_key3" = None
      /\ fst (mcp_auth Tour.partial_env (Tour.bearer_request "bow_oauth_T0") None
                       (Some "bow_key3") (Sample.world 900))
         = Return (inr (Sample.alice, Sample.acme),
                   [ApiKeyUser XApiKeyHeader "bow_key3";
                    ApiKeyOrganization XApiKeyHeader "bow_key3";
                    OAuthValidation "bow_oauth_T0"])).
Proof.
  split; [split; [reflexivity | vm_compute; reflexivity]|].
  split; [reflexivity|]. split; [reflexivity|]. vm_compute. reflexivity.
Qed.

(** C8 at the sample registry: the tool that raises. *)
Lemma tools_call_envelope_witness :
  _check_mcp_enabled Sample.acme = None
  /\ fst (mcp_endpoint Sample.mcp_env (Parsed (Sample.call "fail"))
                       (Sample.alice, Sample.acme) (Sample.world 900))
     = inr (tool_result true "boom" (PyInt 7)).
Proof.
  split; [reflexivity|].
  refine (proj1 (proj2 (tools_call_envelope Sample.mcp_env (Sample.call "fail")
                          [("name", PyStr "fail")] (PyStr "fail") Sample.failing_tool
                          Sample.alice Sample.acme (Sample.world 900)
                          eq_refl eq_refl eq_refl eq_refl eq_refl eq_refl))
                "boom" eq_refl).
Defined.

(** C8, as stated, fails: the tool returns normally, json.dumps raises on
    the value, and the response carries isError true. *)
Lemma tools_call_unserialisable_result_is_error :
  execute Sample.bytes_tool (PyDict []) Sample.alice Sample.acme (Sample.world 900)
  = (ToolReturn (PyObject "bytes"), Sample.world 900)
  /\ fst (mcp_endpoint Sample.mcp_env (Parsed (Sample.call "export"))
                       (Sample.alice, Sample.acme) (Sample.world 900))
     = inr (tool_result true "Object of type bytes is not JSON serializable" (PyInt 7)).
Proof. split; [reflexivity|]. vm_compute. reflexivity. Qed.

(** C9 at the sample deployment: redirect_uris omitted. *)
Lemma create_client_redirect_uris_witness :
  Sample.created
  = (Return (mkClientCreated "CCCC" "bow_client_AAAA" "bow_secret_BBBB" "Claude"
                             CLAUDE_REDIRECT_URIS),
     snd Sample.created)
  /\ exists client,
       clients (committed (snd Sample.created)) = [Sample.client; client]
       /\ List.length (json_loads (cl_redirect_uris client)) = 4%nat.
Proof.
  assert (H : Sample.created
              = (Return (mkClientCreated "CCCC" "bow_client_AAAA" "bow_secret_BBBB"
                                         "Claude" CLAUDE_REDIRECT_URIS),
                 snd Sample.created)) by (vm_compute; reflexivity).
  split; [exact H|].
  destruct (create_client_redirect_uris "org-1" "Claude" None (Sample.world 900) _ _ H)
    as (client & H1 & _ & _ & H4 & _).
  exists client. split; [exact H1|]. exact (proj2 (H4 eq_refl)).
Defined.

(** C9, as stated, fails: an explicitly supplied empty list is stored as
    it is. *)
Lemma create_client_stores_empty_redirect_uris :
  fst Sample.created_empty
  = Return (mkClientCreated "CCCC" "bow_client_AAAA" "bow_secret_BBBB" "Empty" [])
  /\ exists client,
       clients (committed (snd Sample.created_empty)) = [Sample.client; client]
       /\ cl_client_id client = "bow_client_AAAA"
       /\ json_loads (cl_redirect_uris client) = [].
Proof.
  split; [vm_compute; reflexivity|].
  eexists. split; [vm_compute; reflexivity|]. split; reflexivity.
Qed.

Lemma sample_bad_verifier :
  ~ pkce_s256 "wrong_verifier_that_doesnt_match" (ac_code_challenge Sample.code).
Proof. intros H. vm_compute in H. discriminate H. Qed.

(** C10 at the sample deployment: a wrong verifier, then the right one. *)
Lemma exchange_code_failed_check_keeps_code_witness :
  wf (Sample.world 900)
  /\ client_validates (committed (Sample.world 900)) "bow_client_A" None
  /\ live_code (committed (Sample.world 900)) "code-1" "bow_client_A" 0 Sample.code
  /\ clock (Sample.world 900) (ticks (Sample.world 900)) <= ac_expires_at Sample.code
  /\ ~ pkce_s256 "wrong_verifier_that_doesnt_match" (ac_code_challenge Sample.code)
  /\ fst (Sample.exchange 900 "wrong_verifier_that_doesnt_match") = Return None
  /\ committed (snd (Sample.exchange 900 "wrong_verifier_that_doesnt_match"))
     = committed (Sample.world 900)
  /\ exists r, fst (exchange_code "code-1" "bow_client_A" None Sample.verifier
                                  (ac_redirect_uri Sample.code)
                                  (snd (Sample.exchange 900
                                          "wrong_verifier_that_doesnt_match")))
               = Return (Some r).
Proof.
  assert (Hle : clock (Sample.world 900) (ticks (Sample.world 900))
                <= ac_expires_at Sample.code) by (simpl; lia).
  destruct (exchange_code_failed_check_keeps_code (Sample.world 900) "code-1"
              "bow_client_A" None "wrong_verifier_that_doesnt_match" Sample.callback
              0%nat Sample.code (sample_wf 900) (sample_client_validates 900)
              (sample_live_code 900) Hle (or_introl sample_bad_verifier))
    as (H1 & H2 & H3 & H4 & H5 & _).
  split; [apply sample_wf|]. split; [apply sample_client_validates|].
  split; [apply sample_live_code|]. split; [exact Hle|].
  split; [exact sample_bad_verifier|]. split; [exact H1|]. split; [exact H2|].
  apply (H5 None Sample.verifier).
  - unfold Sample.exchange. rewrite H2. apply sample_client_validates.
  - apply verify_pkce_s256_iff. vm_compute. reflexivity.
  - vm_compute. discriminate.
  - split; vm_compute; reflexivity.
Defined.

(* ================================================================== *)
(** * Invariants of the store under the service                     *)
(* ================================================================== *)

Section Keeps.

Variable P : Db -> Prop.
Hypothesis P_stable : stable P.

Lemma keep_ret {A} (a : A) : preserves (inv P) (ret a).
Proof. intros w H. exact H. Qed.

Lemma keep_raise {A} (e : PyExc) : preserves (inv P) (@raise A e).
Proof. intros w H. exact H. Qed.

Lemma keep_bind {A B} (m : M A) (k : A -> M B) :
  preserves (inv P) m -> (forall a, preserves (inv P) (k a)) ->
  preserves (inv P) (bind m k).
Proof.
  intros Hm Hk w H. unfold bind. specialize (Hm w H).
  destruct (m w) as [[a|e] w']; cbn [snd] in *; [now apply Hk | exact Hm].
Qed.

Lemma keep_utcnow : preserves (inv P) utcnow.
Proof. intros w H. exact H. Qed.

Lemma keep_token_urlsafe (n : nat) : preserves (inv P) (token_urlsafe n).
Proof. intros w H. exact H. Qed.

Lemma keep_read {A} (f : Db -> A) : preserves (inv P) (read f).
Proof. intros w H. exact H. Qed.

Lemma keep_modify (f : Db -> Db) : Mutation f -> preserves (inv P) (modify f).
Proof.
  intros Hf w (H1 & H2 & H3). repeat split; auto. now apply P_stable.
Qed.

Lemma keep_commit : preserves (inv P) commit.
Proof.
  intros w (H1 & H2 & H3). unfold commit.
  destruct (unique_ok (session w)) eqn:E; repeat split; auto.
Qed.

Lemma keep_scalar {R} (rows : list (nat * R)) :
  preserves (inv P) (scalar_one_or_none rows).
Proof. intros w H. destruct rows as [|r [|]]; exact H. Qed.

End Keeps.

Ltac keep_step :=
  lazymatch goal with
  | |- preserves _ (bind _ _) => apply keep_bind; [| intros ]
  | |- preserves _ (ret _) => apply keep_ret
  | |- preserves _ (raise _) => apply keep_raise
  | |- preserves _ utcnow => apply keep_utcnow
  | |- preserves _ (token_urlsafe _) => apply keep_token_urlsafe
  | |- preserves _ (read _) => apply keep_read
  | |- preserves _ commit => apply keep_commit
  | |- preserves _ (scalar_one_or_none _) => apply keep_scalar
  | |- preserves _ (modify _) => apply keep_modify; [assumption | constructor]
  | |- preserves _ (match ?x with _ => _ end) => destruct x
  end.

Ltac keeps := repeat keep_step.

Section KeepsService.

Variable P : Db -> Prop.
Hypothesis P_stable : stable P.

Lemma keep_validate_client cid sec : preserves (inv P) (validate_client cid sec).
Proof. unfold validate_client, select_where. keeps. Qed.

Lemma keep_exchange_code c cid sec v r : preserves (inv P) (exchange_code c cid sec v r).
Proof.
  unfold exchange_code, select_where, _generate_token.
  apply keep_bind; [apply keep_validate_client | intros]. keeps.
Qed.

Lemma keep_refresh_access_token rt cid sec :
  preserves (inv P) (refresh_access_token rt cid sec).
Proof.
  unfold refresh_access_token, select_where, _generate_token.
  apply keep_bind; [apply keep_validate_client | intros]. keeps.
Qed.

Lemma keep_validate_access_token t : preserves (inv P) (validate_access_token t).
Proof. unfold validate_access_token, select_where. keeps. Qed.

Lemma keep_create_client o n u : preserves (inv P) (create_client o n u).
Proof. unfold create_client, new_row_id. keeps. Qed.

Lemma keep_delete_client i o : preserves (inv P) (delete_client i o).
Proof. unfold delete_client, select_where. keeps. Qed.

Lemma keep_rotate_client_secret i o : preserves (inv P) (rotate_client_secret i o).
Proof. unfold rotate_client_secret, select_where. keeps. Qed.

Lemma keep_create_authorization_code c u o r s ch :
  preserves (inv P) (create_authorization_code c u o r s ch).
Proof. unfold create_authorization_code. keeps. Qed.

Lemma keep_get_client_info cid : preserves (inv P) (get_client_info cid).
Proof. unfold get_client_info, select_where. keeps. Qed.

Lemma keep_authorize_approve body u o : preserves (inv P) (authorize_approve body u o).
Proof.
  unfold authorize_approve.
  destruct (_ || _); [apply keep_ret|].
  destruct (negb _); [apply keep_ret|].
  apply keep_bind; [apply keep_validate_client | intros [c|]]; [|apply keep_ret].
  destruct (negb _); [apply keep_ret|].
  apply keep_bind; [apply keep_create_authorization_code | intros; apply keep_ret].
Qed.

Lemma keep_token_endpoint g c r cid sec v rt :
  preserves (inv P) (token_endpoint g c r cid sec v rt).
Proof.
  unfold token_endpoint.
  destruct (String.eqb g "authorization_code").
  - destruct (_ || _); [apply keep_ret|].
    apply keep_bind; [apply keep_exchange_code | intros [x|]; apply keep_ret].
  - destruct (String.eqb g "refresh_token"); [|apply keep_ret].
    destruct (missing rt); [apply keep_ret|].
    apply keep_bind; [apply keep_refresh_access_token | intros [x|]; apply keep_ret].
Qed.

Lemma serve_inv (c : ServiceCall) (w : World) :
  inv P w -> inv P (serve c w) /\ wf (serve c w).
Proof.
  intros H.
  assert (H' : inv P
    match c with
    | CreateClient o n u => snd (create_client o n u w)
    | DeleteClient i o => snd (delete_client i o w)
    | RotateClientSecret i o => snd (rotate_client_secret i o w)
    | CreateAuthorizationCode c u o r s ch => snd (create_authorization_code c u o r s ch w)
    | ExchangeCode c cid sec v r => snd (exchange_code c cid sec v r w)
    | RefreshAccessToken rt cid sec => snd (refresh_access_token rt cid sec w)
    | ValidateAccessToken t => snd (validate_access_token t w)
    end).
  { destruct c.
    - now apply keep_create_client.
    - now apply keep_delete_client.
    - now apply keep_rotate_client_secret.
    - now apply keep_create_authorization_code.
    - now apply keep_exchange_code.
    - now apply keep_refresh_access_token.
    - now apply keep_validate_access_token. }
  unfold serve. destruct H' as (H1 & H2 & H3).
  split; [repeat split; assumption | split; [assumption | reflexivity]].
Qed.

Lemma run_inv (calls : list ServiceCall) (w : World) :
  inv P w -> wf w -> inv P (run calls w) /\ wf (run calls w).
Proof.
  revert w. induction calls as [|c calls IH]; intros w H Hwf; [auto|].
  cbn [run fold_left]. destruct (serve_inv c w H). now apply IH.
Qed.

End KeepsService.

Lemma inv_start (P : Db -> Prop) (w : World) : wf w -> P (committed w) -> inv P w.
Proof. intros [Hu Hs] HP. repeat split; auto. now rewrite Hs. Qed.

(** ** Rows are kept *)

Lemma rows_kept_refl {R} (kept : R -> R -> Prop) (l : list R) :
  (forall r, kept r r) -> rows_kept kept l l.
Proof. intros Hr i r H. eauto. Qed.

Lemma rows_kept_app {R} (kept : R -> R -> Prop) (l0 l : list R) (x : R) :
  rows_kept kept l0 l -> rows_kept kept l0 (l ++ [x]).
Proof.
  intros H i r Hi. destruct (H i r Hi) as (r' & Hr' & Hk). exists r'. split; [|exact Hk].
  rewrite nth_error_app1; [exact Hr'|]. apply nth_error_Some. congruence.
Qed.

Lemma rows_kept_update {R} (kept : R -> R -> Prop) (f : R -> R) (j : nat) (l0 l : list R) :
  (forall a b, kept a b -> kept a (f b)) ->
  rows_kept kept l0 l -> rows_kept kept l0 (update_nth j f l).
Proof.
  intros Hf H i r Hi. destruct (H i r Hi) as (r' & Hr' & Hk).
  destruct (Nat.eq_dec j i) as [->|Hn].
  - exists (f r'). split; [now apply nth_error_update_nth | now apply Hf].
  - exists r'. split; [|exact Hk]. now rewrite nth_error_update_nth_other.
Qed.

Lemma client_kept_refl c : client_kept c c.
Proof. repeat split; auto. Qed.

Lemma code_kept_refl a : code_kept a a.
Proof. split; auto. Qed.

Lemma token_kept_refl k : token_kept k k.
Proof. split; auto. Qed.

Lemma client_kept_tombstone t a b :
  client_kept a b -> client_kept a (set_client_deleted_at t b).
Proof.
  intros (H1 & H2 & H3 & H4 & H5 & H6 & H7). repeat split; auto. discriminate.
Qed.

Lemma client_kept_rotate h a b :
  client_kept a b -> client_kept a (set_client_secret_hash h b).
Proof. intros (H1 & H2 & H3 & H4 & H5 & H6 & H7). repeat split; auto. Qed.

Lemma code_kept_tombstone t a b : code_kept a b -> code_kept a (set_code_deleted_at t b).
Proof.
  intros [[->|[t' ->]] H]; split; try (intros _; discriminate); right; exists t;
    reflexivity.
Qed.

Lemma token_kept_tombstone t a b :
  token_kept a b -> token_kept a (set_token_deleted_at t b).
Proof.
  intros [[->|[t' ->]] H]; split; try (intros _; discriminate); right; exists t;
    reflexivity.
Qed.

Lemma store_extends_refl d : store_extends d d.
Proof.
  repeat split; auto using rows_kept_refl, client_kept_refl, code_kept_refl,
    token_kept_refl.
Qed.

Lemma store_extends_stable d0 : stable (store_extends d0).
Proof.
  intros f Hf d (H1 & H2 & H3 & H4 & H5).
  destruct Hf; unfold store_extends; cbn [clients codes tokens users organizations
    with_clients with_codes with_tokens]; repeat split; auto.
  - now apply rows_kept_app.
  - apply rows_kept_update; [apply client_kept_tombstone | exact H1].
  - apply rows_kept_update; [apply client_kept_rotate | exact H1].
  - now apply rows_kept_app.
  - apply rows_kept_update; [apply code_kept_tombstone | exact H2].
  - now apply rows_kept_app.
  - apply rows_kept_update; [apply token_kept_tombstone | exact H3].
Qed.

(** X1. The service never removes a row. Whatever requests are served on a
    store that satisfies its unique indexes, every client, authorization
    code and token record of the store is still there afterwards, at its
    position; apart from [deleted_at] (and a client's secret hash, which
    rotation replaces) its columns are unchanged, a [deleted_at] once set
    stays set, and the user and organization tables are untouched. *)
Theorem service_keeps_every_row (w : World) (calls : list ServiceCall) :
  wf w ->
  store_extends (committed w) (committed (run calls w))
  /\ wf (run calls w).
Proof.
  intros Hwf.
  destruct (run_inv (store_extends (committed w)) (store_extends_stable _) calls w
              (inv_start _ w Hwf (store_extends_refl _)) Hwf) as [(_ & H & _) Hwf'].
  split; assumption.
Qed.

(* ================================================================== *)
(** * Client management                                             *)
(* ================================================================== *)

Lemma filter_enumerate_none {A} (cond : A -> bool) (l : list A) :
  (forall r, In r l -> cond r = false) ->
  filter (fun ir => cond (snd ir)) (enumerate l) = [].
Proof.
  intros H. destruct (filter (fun ir => cond (snd ir)) (enumerate l)) as [|[i r] rest] eqn:E;
    [reflexivity|].
  assert (Hin : In (i, r) (filter (fun ir => cond (snd ir)) (enumerate l)))
    by (rewrite E; now left).
  apply (filter_enum_sound cond l 0) in Hin as (j & _ & Hj & Hc).
  apply nth_error_In in Hj. rewrite (H r Hj) in Hc. discriminate.
Qed.

Lemma client_row_unique (d : Db) (cid : string) (a b : OAuthMCPClient) :
  distinct (map cl_client_id (clients d)) = true ->
  In a (clients d) -> In b (clients d) ->
  cl_client_id a = cid -> cl_client_id b = cid -> a = b.
Proof.
  intros Hd Ha Hb Hha Hhb.
  apply In_nth_error in Ha as [i Hi]. apply In_nth_error in Hb as [j Hj].
  assert (i = j).
  { eapply (distinct_key_inj (fun k => Some (cl_client_id k)) (k := cid))
      with (l := clients d); eauto.
    - now rewrite non_null_map_some.
    - simpl. now f_equal.
    - simpl. now f_equal. }
  subst j. congruence.
Qed.

Lemma client_id_unique (d : Db) (id : string) (i j : nat) (a b : OAuthMCPClient) :
  distinct (map cl_id (clients d)) = true ->
  nth_error (clients d) i = Some a -> nth_error (clients d) j = Some b ->
  cl_id a = id -> cl_id b = id -> i = j /\ a = b.
Proof.
  intros Hd Hi Hj Ha Hb.
  assert (i = j).
  { eapply (distinct_key_inj (fun k => Some (cl_id k)) (k := id))
      with (l := clients d); eauto.
    - now rewrite non_null_map_some.
    - simpl. now f_equal.
    - simpl. now f_equal. }
  subst j. split; [reflexivity | congruence].
Qed.

(** What [validate_client] returns when it returns a client. *)
Lemma validate_client_some (w : World) (cid : string) (sec : option string)
    (c : OAuthMCPClient) (w' : World) :
  validate_client cid sec w = (Return (Some c), w') ->
  w' = w /\ In c (clients (session w)) /\ cl_client_id c = cid /\ cl_deleted_at c = None
  /\ forall s, sec = Some s -> _hash s = cl_client_secret_hash c.
Proof.
  unfold validate_client.
  set (cond := fun c : OAuthMCPClient => _).
  unfold bind, select_where, read.
  destruct (filter (fun ir => cond (snd ir)) (enumerate (clients (session w))))
    as [|[i x] [|]] eqn:Hf; unfold scalar_one_or_none, ret, raise; cbv beta iota;
    try discriminate.
  assert (Hin : In (i, x) (filter (fun ir => cond (snd ir))
                             (enumerate (clients (session w)))))
    by (rewrite Hf; now left).
  apply (filter_enum_sound cond (clients (session w)) 0) in Hin as (j & _ & Hj & Hc).
  unfold cond in Hc. apply andb_true_iff in Hc as [Hc1 Hc2].
  apply String.eqb_eq in Hc1. apply nth_error_In in Hj.
  destruct sec as [s|].
  - destruct (String.eqb (_hash s) (cl_client_secret_hash x)) eqn:Hs; cbn [negb];
      intros H; [|discriminate H].
    injection H as <- <-. repeat split; auto.
    + destruct (cl_deleted_at x); [discriminate Hc2 | reflexivity].
    + intros s' [= <-]. now apply String.eqb_eq.
  - intros H. injection H as <- <-. repeat split; auto.
    + destruct (cl_deleted_at x); [discriminate Hc2 | reflexivity].
    + discriminate.
Qed.

(** [get_client_info] is [validate_client] without a secret, keeping the
    id and the name. *)
Lemma get_client_info_validate (cid : string) (w : World) :
  get_client_info cid w
  = match validate_client cid None w with
    | (Return (Some c), w') =>
        (Return (Some (mkClientInfo (cl_client_id c) (cl_name c))), w')
    | (Return None, w') => (Return None, w')
    | (Raise e, w') => (Raise e, w')
    end.
Proof.
  unfold get_client_info, validate_client.
  set (cond := fun c : OAuthMCPClient => _).
  unfold bind, select_where, read.
  destruct (filter (fun ir => cond (snd ir)) (enumerate (clients (session w))))
    as [|[i x] [|]]; reflexivity.
Qed.

Lemma validate_client_gone (w : World) (id cid : string) (sec : option string) :
  wf w -> client_gone id cid (committed w) ->
  validate_client cid sec w = (Return None, w).
Proof.
  intros [Hu Hs] (c & Hin & _ & Hc & Hd).
  destruct (unique_ok_parts _ Hu) as (_ & Hcl & _).
  destruct (validate_client_run w cid sec) as [[x [Hv Hcv]]|[Hv _]];
    [now rewrite Hs | | exact Hv].
  exfalso. rewrite Hs in Hcv. destruct Hcv as (c' & Hin' & Hc' & Hd' & _).
  assert (c' = c) by (eapply client_row_unique; eauto). subst c'. contradiction.
Qed.

Lemma client_gone_stable id cid : stable (client_gone id cid).
Proof.
  intros f Hf d (c & Hin & Hi & Hc & Hd).
  destruct Hf; unfold client_gone; cbn [clients with_clients with_codes with_tokens];
    try (exists c; auto; fail).
  - exists c. repeat split; auto. apply in_or_app. now left.
  - destruct (In_update_nth_keep (set_client_deleted_at t) i (clients d) c Hin) as [H|H].
    + exists c. auto.
    + exists (set_client_deleted_at t c). repeat split; auto. discriminate.
  - destruct (In_update_nth_keep (set_client_secret_hash h) i (clients d) c Hin) as [H|H].
    + exists c. auto.
    + exists (set_client_secret_hash h c). repeat split; auto.
Qed.

Lemma unique_ok_tombstone_client (i : nat) (t : datetime) (d : Db) :
  unique_ok (tombstone_client i t d) = unique_ok d.
Proof.
  unfold unique_ok, tombstone_client, with_clients. cbn [clients codes tokens].
  now rewrite !map_update_nth by reflexivity.
Qed.

Lemma unique_ok_rotate_secret (i : nat) (h : string) (d : Db) :
  unique_ok (rotate_secret i h d) = unique_ok d.
Proof.
  unfold unique_ok, rotate_secret, with_clients. cbn [clients codes tokens].
  now rewrite !map_update_nth by reflexivity.
Qed.

(** The query of [delete_client] and [rotate_client_secret]. *)
Lemma client_row_lookup (w : World) (id org : string) (cond : OAuthMCPClient -> bool) :
  wf w ->
  (forall c, cond c = String.eqb (cl_id c) id && String.eqb (cl_organization_id c) org
                      && is_none (cl_deleted_at c)) ->
  (filter (fun ir => cond (snd ir)) (enumerate (clients (session w))) = []
   /\ forall i c, ~ live_client_row (committed w) id org i c)
  \/ (exists i c, filter (fun ir => cond (snd ir)) (enumerate (clients (session w)))
                  = [(i, c)]
                  /\ live_client_row (committed w) id org i c).
Proof.
  intros [Hu Hs] Hdef.
  destruct (unique_ok_parts _ Hu) as (Hid & _).
  assert (Hcond : forall c, cond c = true <->
            cl_id c = id /\ cl_organization_id c = org /\ cl_deleted_at c = None).
  { intros c. rewrite Hdef, !andb_true_iff, !String.eqb_eq.
    destruct (cl_deleted_at c); simpl; intuition congruence. }
  destruct (lookup_unique (fun c => Some (cl_id c)) cond (k := id))
    with (l := clients (session w)) as [[Hf Hn]|[i [c [Hf [Hi Hc]]]]].
  - intros r Hr. apply Hcond in Hr as [-> _]. reflexivity.
  - rewrite non_null_map_some, Hs. exact Hid.
  - left. split; [exact Hf|]. intros i c (Hi & H1 & H2 & H3). rewrite <- Hs in Hi.
    apply nth_error_In in Hi. specialize (Hn c Hi).
    assert (cond c = true) by (apply Hcond; auto). congruence.
  - right. exists i, c. split; [exact Hf|]. apply Hcond in Hc as (H1 & H2 & H3).
    rewrite Hs in Hi. repeat split; auto.
Qed.

Lemma delete_client_decides (w : World) (id org : string) :
  wf w ->
  ((forall i c, ~ live_client_row (committed w) id org i c)
   /\ delete_client id org w = (Return false, w))
  \/ (exists i c, live_client_row (committed w) id org i c
        /\ delete_client id org w
           = (Return true,
              after (tombstone_client i (clock w (ticks w)) (committed w)) 1 0 w)).
Proof.
  intros Hwf. pose proof Hwf as [Hu Hs].
  remember (delete_client id org w) as X eqn:HX.
  unfold delete_client in HX.
  set (cond := fun c : OAuthMCPClient => _) in HX.
  unfold bind at 1 in HX. unfold select_where, read in HX. unfold bind at 1 in HX.
  destruct (client_row_lookup w id org cond Hwf (fun c => eq_refl))
    as [[Hf Hn]|(i & c & Hf & Hl)]; rewrite Hf in HX;
    unfold scalar_one_or_none, ret at 1 in HX; cbv beta iota in HX.
  - left. split; [exact Hn | exact HX].
  - right. exists i, c. split; [exact Hl|].
    unfold bind, utcnow, modify, commit, with_session, ret in HX. cbn -[unique_ok] in HX.
    match type of HX with
    | context [if unique_ok ?d then _ else _] =>
        change d with (tombstone_client i (clock w (ticks w)) (session w)) in HX
    end.
    rewrite unique_ok_tombstone_client, Hs, Hu in HX. exact HX.
Qed.

Lemma rotate_client_secret_decides (w : World) (id org : string) :
  wf w ->
  ((forall i c, ~ live_client_row (committed w) id org i c)
   /\ rotate_client_secret id org w = (Return None, w))
  \/ (exists i c, live_client_row (committed w) id org i c
        /\ rotate_client_secret id org w
           = (Return (Some (mkSecretRotated (cl_id c) (cl_client_id c)
                              ("bow_secret_" ++ entropy w (draws w))%string (cl_name c))),
              after (rotate_secret i (_hash ("bow_secret_" ++ entropy w (draws w))%string)
                       (committed w)) 0 1 w)).
Proof.
  intros Hwf. pose proof Hwf as [Hu Hs].
  remember (rotate_client_secret id org w) as X eqn:HX.
  unfold rotate_client_secret in HX.
  set (cond := fun c : OAuthMCPClient => _) in HX.
  unfold bind at 1 in HX. unfold select_where, read in HX. unfold bind at 1 in HX.
  destruct (client_row_lookup w id org cond Hwf (fun c => eq_refl))
    as [[Hf Hn]|(i & c & Hf & Hl)]; rewrite Hf in HX;
    unfold scalar_one_or_none, ret at 1 in HX; cbv beta iota in HX.
  - left. split; [exact Hn | exact HX].
  - right. exists i, c. split; [exact Hl|].
    unfold bind, token_urlsafe, modify, commit, with_session, ret in HX.
    cbn -[unique_ok String.append] in HX.
    match type of HX with
    | context [if unique_ok ?d then _ else _] =>
        change d with (rotate_secret i (_hash ("bow_secret_" ++ entropy w (draws w))%string)
                         (session w)) in HX
    end.
    rewrite unique_ok_rotate_secret, Hs, Hu in HX. exact HX.
Qed.

Lemma create_client_run (w : World) (org name : string) (uris : option (list string))
    (r : ClientCreated) (w1 : World) :
  session w = committed w ->
  create_client org name uris w = (Return r, w1) ->
  let row := created_client w org name uris in
  w1 = after (with_clients (clients (committed w) ++ [row]) (committed w)) 0 3 w
  /\ r = mkClientCreated (cl_id row) (cl_client_id row)
           ("bow_secret_" ++ entropy w (1 + draws w)%nat)%string name
           (json_loads (cl_redirect_uris row))
  /\ unique_ok (with_clients (clients (committed w) ++ [row]) (committed w)) = true.
Proof.
  intros Hs H row.
  unfold create_client, new_row_id, bind, token_urlsafe, modify, commit, with_session, ret
    in H.
  cbn -[unique_ok String.append CLAUDE_REDIRECT_URIS] in H.
  rewrite Hs in H.
  match type of H with
  | context [if unique_ok ?d then _ else _] =>
      change d with (with_clients (clients (committed w) ++ [row]) (committed w)) in H;
      destruct (unique_ok (with_clients (clients (committed w) ++ [row]) (committed w)))
        eqn:Hq
  end; [|discriminate H].
  pose proof (f_equal fst H) as Hr. pose proof (f_equal snd H) as Hw.
  cbn [fst snd] in Hr, Hw. injection Hr as Hr. subst r w1.
  split; [reflexivity|]. split; [|reflexivity].
  destruct uris; reflexivity.
Qed.

(** X2. Round trip of client registration. The secret [create_client]
    returns authenticates the client it returns: [validate_client] finds
    the new row with that secret and without a secret, the row carries the
    returned id, the organization, the name and the hash of the secret (not
    the secret), and [validate_redirect_uri] accepts exactly the returned
    redirect URIs, a list of strings as the signature of [create_client]
    has it; any secret with another hash is refused. *)
Theorem create_client_then_validate (w : World) (org name : string)
    (uris : option (list string)) (r : ClientCreated) (w1 : World) :
  wf w ->
  create_client org name uris w = (Return r, w1) ->
  wf w1
  /\ (exists c,
        validate_client (cc_client_id r) (Some (cc_client_secret r)) w1
        = (Return (Some c), w1)
        /\ validate_client (cc_client_id r) None w1 = (Return (Some c), w1)
        /\ cl_id c = cc_id r /\ cl_organization_id c = org /\ cl_name c = name
        /\ cl_client_secret_hash c = _hash (cc_client_secret r)
        /\ forall u, validate_redirect_uri c u = true <-> In u (cc_redirect_uris r))
  /\ (forall s, _hash s <> _hash (cc_client_secret r) ->
        validate_client (cc_client_id r) (Some s) w1 = (Return None, w1)).
Proof.
  intros [Hu Hs] H.
  destruct (create_client_run w org name uris r w1 Hs H) as (-> & -> & Hq).
  set (row := created_client w org name uris) in *.
  set (d1 := with_clients (clients (committed w) ++ [row]) (committed w)) in *.
  assert (Hwf1 : wf (after d1 0 3 w)) by (split; [exact Hq | reflexivity]).
  destruct (unique_ok_parts _ Hq) as (_ & Hcl & _).
  assert (Hrow : In row (clients d1)).
  { unfold d1. cbn [clients with_clients]. apply in_or_app. right. now left. }
  assert (Hsame : forall c, In c (clients d1) ->
            cl_client_id c = cl_client_id row -> c = row).
  { intros c Hc Hid. eapply client_row_unique; eauto. }
  assert (Hfind : forall sec c w',
            validate_client (cl_client_id row) sec (after d1 0 3 w) = (Return (Some c), w')
            -> c = row).
  { intros sec c w' Hv. apply validate_client_some in Hv as (_ & Hin & Hid & _).
    apply Hsame; assumption. }
  split; [exact Hwf1|]. cbn [cc_client_id cc_client_secret cc_id cc_redirect_uris].
  split.
  - exists row.
    destruct (validate_client_run (after d1 0 3 w) (cl_client_id row)
                (Some ("bow_secret_" ++ entropy w (1 + draws w)%nat)%string) Hcl)
      as [[c [Hv _]]|[_ Hn]].
    2:{ exfalso. apply Hn. exists row. repeat split; auto. intros s [= <-]. reflexivity. }
    rewrite (Hfind _ _ _ Hv) in Hv.
    destruct (validate_client_run (after d1 0 3 w) (cl_client_id row) None Hcl)
      as [[c' [Hv' _]]|[_ Hn]].
    2:{ exfalso. apply Hn. exists row. repeat split; auto. discriminate. }
    rewrite (Hfind _ _ _ Hv') in Hv'.
    split; [exact Hv|]. split; [exact Hv'|]. repeat split.
    + intros Hm. apply mem_string_In. exact Hm.
    + intros Hm. apply mem_string_In. exact Hm.
  - intros s Hne.
    destruct (validate_client_run (after d1 0 3 w) (cl_client_id row) (Some s) Hcl)
      as [[c [Hv _]]|[Hv _]]; [|exact Hv].
    exfalso. pose proof (Hfind _ _ _ Hv) as ->.
    apply validate_client_some in Hv as (_ & _ & _ & _ & Hh).
    apply Hne. exact (Hh s eq_refl).
Qed.



Lemma exchange_code_no_client (w : World) code cid sec ver uri :
  validate_client cid sec w = (Return None, w) ->
  exchange_code code cid sec ver uri w = (Return None, w).
Proof. intros H. unfold exchange_code, bind. now rewrite H. Qed.

Lemma refresh_access_token_no_client (w : World) rt cid sec :
  validate_client cid sec w = (Return None, w) ->
  refresh_access_token rt cid sec w = (Return None, w).
Proof. intros H. unfold refresh_access_token, bind. now rewrite H. Qed.

Lemma no_live_row_when_gone (d : Db) (id cid org : string) :
  unique_ok d = true -> client_gone id cid d ->
  forall i c, ~ live_client_row d id org i c.
Proof.
  intros Hu (c0 & Hin & Hid & _ & Hd) i c (Hi & Hc & _ & Hl).
  destruct (unique_ok_parts _ Hu) as (Hids & _).
  apply In_nth_error in Hin as [j Hj].
  destruct (client_id_unique d id i j c c0 Hids Hi Hj Hc Hid) as [_ ->].
  contradiction.
Qed.

(** X3. Deleting a client is final and soft. A successful [delete_client]
    tombstones the one live row of that id and organization and touches
    neither tokens nor codes (tokens already issued are not revoked by it).
    After any further requests the client no longer validates, with or
    without a secret, [get_client_info] does not know it, it can be neither
    deleted nor rotated again, and it can neither exchange a code nor
    refresh a token. *)
Theorem delete_client_is_final (w : World) (id org : string) (w1 : World) :
  wf w ->
  delete_client id org w = (Return true, w1) ->
  exists i c,
    live_client_row (committed w) id org i c
    /\ (exists t, nth_error (clients (committed w1)) i = Some (set_client_deleted_at t c))
    /\ tokens (committed w1) = tokens (committed w)
    /\ codes (committed w1) = codes (committed w)
    /\ forall calls sec org',
         let w2 := run calls w1 in
         validate_client (cl_client_id c) sec w2 = (Return None, w2)
         /\ get_client_info (cl_client_id c) w2 = (Return None, w2)
         /\ delete_client id org' w2 = (Return false, w2)
         /\ rotate_client_secret id org' w2 = (Return None, w2)
         /\ (forall code ver uri,
               exchange_code code (cl_client_id c) sec ver uri w2 = (Return None, w2))
         /\ (forall rt, refresh_access_token rt (cl_client_id c) sec w2 = (Return None, w2)).
Proof.
  intros Hwf H. pose proof Hwf as [Hu Hs].
  destruct (delete_client_decides w id org Hwf) as [[_ E]|(i & c & Hl & E)];
    rewrite E in H; [discriminate H|].
  injection H as <-.
  set (d1 := tombstone_client i (clock w (ticks w)) (committed w)).
  assert (Hnth : nth_error (clients d1) i = Some (set_client_deleted_at (clock w (ticks w)) c)).
  { unfold d1, tombstone_client. cbn [clients with_clients].
    apply nth_error_update_nth. apply Hl. }
  assert (Hwf1 : wf (after d1 1 0 w)).
  { split; [|reflexivity]. cbn [committed after]. unfold d1.
    now rewrite unique_ok_tombstone_client. }
  assert (Hgone : client_gone id (cl_client_id c) (committed (after d1 1 0 w))).
  { exists (set_client_deleted_at (clock w (ticks w)) c).
    split; [eapply nth_error_In; exact Hnth|].
    split; [apply Hl|]. split; [reflexivity | discriminate]. }
  exists i, c. split; [exact Hl|]. split; [eauto|]. split; [reflexivity|].
  split; [reflexivity|].
  intros calls sec org' w2.
  destruct (run_inv _ (client_gone_stable id (cl_client_id c)) calls _
              (inv_start _ _ Hwf1 Hgone) Hwf1) as [(Hu2 & Hg2 & _) Hwf2].
  fold w2 in Hu2, Hg2, Hwf2.
  assert (Hv : forall sec', validate_client (cl_client_id c) sec' w2 = (Return None, w2))
    by (intros sec'; eapply validate_client_gone; eauto).
  split; [apply Hv|].
  split; [rewrite get_client_info_validate, (Hv None); reflexivity|].
  split.
  { destruct (delete_client_decides w2 id org' Hwf2) as [[_ E2]|(j & x & Hl2 & _)];
      [exact E2|].
    exfalso. exact (no_live_row_when_gone _ id _ org' Hu2 Hg2 j x Hl2). }
  split.
  { destruct (rotate_client_secret_decides w2 id org' Hwf2) as [[_ E2]|(j & x & Hl2 & _)];
      [exact E2|].
    exfalso. exact (no_live_row_when_gone _ id _ org' Hu2 Hg2 j x Hl2). }
  split.
  - intros code ver uri. apply exchange_code_no_client, Hv.
  - intros rt. apply refresh_access_token_no_client, Hv.
Qed.

(** X4. Tenant isolation of client management. For a client row owned by
    another organization than the caller's, [delete_client] returns False
    and [rotate_client_secret] None, both routes answer 404 Client not
    found, and nothing changes: no write, no clock reading, no random
    draw. *)
Theorem client_of_another_organization (w : World) (id : string) (i : nat)
    (c : OAuthMCPClient) (organization : Organization) :
  wf w ->
  nth_error (clients (committed w)) i = Some c ->
  cl_id c = id ->
  cl_organization_id c <> org_id organization ->
  delete_client id (org_id organization) w = (Return false, w)
  /\ rotate_client_secret id (org_id organization) w = (Return None, w)
  /\ OAuthRoutes.delete_client id organization w
     = (Return (inl (not_found "Client not found")), w)
  /\ OAuthRoutes.rotate_client_secret id organization w
     = (Return (inl (not_found "Client not found")), w).
Proof.
  intros Hwf Hi Hid Horg. pose proof Hwf as [Hu _].
  destruct (unique_ok_parts _ Hu) as (Hids & _).
  assert (Hno : forall j x, ~ live_client_row (committed w) id (org_id organization) j x).
  { intros j x (Hj & Hx & Ho & _).
    destruct (client_id_unique _ id i j c x Hids Hi Hj Hid Hx) as [_ ->]. contradiction. }
  assert (Ed : delete_client id (org_id organization) w = (Return false, w)).
  { destruct (delete_client_decides w id (org_id organization) Hwf)
      as [[_ E]|(j & x & Hl & _)]; [exact E | exfalso; exact (Hno j x Hl)]. }
  assert (Er : rotate_client_secret id (org_id organization) w = (Return None, w)).
  { destruct (rotate_client_secret_decides w id (org_id organization) Hwf)
      as [[_ E]|(j & x & Hl & _)]; [exact E | exfalso; exact (Hno j x Hl)]. }
  split; [exact Ed|]. split; [exact Er|]. split.
  - unfold OAuthRoutes.delete_client, bind. rewrite Ed. reflexivity.
  - unfold OAuthRoutes.rotate_client_secret, bind. rewrite Er. reflexivity.
Qed.

(** X5. Rotation replaces the secret. After a successful
    [rotate_client_secret] the client validates with a secret exactly when
    the secret hashes to the hash of the returned one, so the old secret
    stops working unless it collides; the returned id is the requested one
    and tokens and codes are untouched. *)
Theorem rotate_client_secret_replaces_secret (w : World) (id org : string)
    (r : SecretRotated) (w1 : World) :
  wf w ->
  rotate_client_secret id org w = (Return (Some r), w1) ->
  wf w1
  /\ sr_id r = id
  /\ (forall s, (exists c, validate_client (sr_client_id r) (Some s) w1
                           = (Return (Some c), w1))
                <-> _hash s = _hash (sr_client_secret r))
  /\ tokens (committed w1) = tokens (committed w)
  /\ codes (committed w1) = codes (committed w).
Proof.
  intros Hwf H. pose proof Hwf as [Hu Hs].
  destruct (rotate_client_secret_decides w id org Hwf) as [[_ E]|(i & c & Hl & E)];
    rewrite E in H; [discriminate H|].
  pose proof (f_equal fst H) as Hr. pose proof (f_equal snd H) as Hw.
  cbn [fst snd] in Hr, Hw. injection Hr as Hr. subst r w1. clear H.
  cbn [sr_id sr_client_id sr_client_secret].
  set (h := _hash ("bow_secret_" ++ entropy w (draws w))%string).
  set (d1 := rotate_secret i h (committed w)).
  assert (Hq : unique_ok d1 = true) by (unfold d1; now rewrite unique_ok_rotate_secret).
  assert (Hwf1 : wf (after d1 0 1 w)) by (split; [exact Hq | reflexivity]).
  destruct (unique_ok_parts _ Hq) as (_ & Hcl & _).
  assert (Hnth : nth_error (clients d1) i = Some (set_client_secret_hash h c)).
  { unfold d1, rotate_secret. cbn [clients with_clients].
    apply nth_error_update_nth. apply Hl. }
  split; [exact Hwf1|]. split; [apply Hl|]. split; [|split; reflexivity].
  intros s. split.
  - intros [x Hv]. apply validate_client_some in Hv as (_ & Hin & Hid & _ & Hh).
    assert (x = set_client_secret_hash h c).
    { eapply client_row_unique; eauto. eapply nth_error_In; exact Hnth. }
    subst x. exact (Hh s eq_refl).
  - intros Hh.
    destruct (validate_client_run (after d1 0 1 w) (cl_client_id c) (Some s) Hcl)
      as [[x [Hv _]]|[_ Hn]]; [eauto|].
    exfalso. apply Hn. exists (set_client_secret_hash h c).
    split; [eapply nth_error_In; exact Hnth|]. split; [reflexivity|].
    split; [apply Hl|]. intros s' [= <-]. exact Hh.
Qed.

(** X6. The public info route answers for live clients only: when a live
    client has the client_id, the body is that client_id with the name of
    a live row carrying it; otherwise 404 Client not found. Nothing is
    written either way. *)
Theorem get_client_info_route (w : World) (cid : string) :
  wf w ->
  (client_validates (committed w) cid None ->
   exists c, In c (clients (committed w)) /\ cl_client_id c = cid
             /\ cl_deleted_at c = None
             /\ OAuthRoutes.get_client_info cid w
                = (Return (inr (mkClientInfo cid (cl_name c))), w))
  /\ (~ client_validates (committed w) cid None ->
      OAuthRoutes.get_client_info cid w
      = (Return (inl (not_found "Client not found")), w)).
Proof.
  intros [Hu Hs].
  destruct (unique_ok_parts _ Hu) as (_ & Hcl & _). rewrite <- Hs in Hcl.
  unfold OAuthRoutes.get_client_info, bind. rewrite get_client_info_validate.
  destruct (validate_client_run w cid None Hcl) as [[c [Hv Hcv]]|[Hv Hn]];
    rewrite Hv; rewrite Hs in *.
  - split; [|intros Hn; contradiction]. intros _.
    apply validate_client_some in Hv as (_ & Hin & Hid & Hd & _).
    rewrite Hs in Hin. exists c. repeat split; auto. now rewrite Hid.
  - split; [intros Hc; contradiction | reflexivity].
Qed.

(* ================================================================== *)
(** * Refreshing and validating tokens                              *)
(* ================================================================== *)

Lemma refresh_access_token_cases (w : World) rt client_id client_secret :
  wf w ->
  refresh_case w rt client_id client_secret
    (fst (refresh_access_token rt client_id client_secret w))
    (snd (refresh_access_token rt client_id client_secret w)).
Proof.
  intros [Hu Hs].
  destruct (unique_ok_parts _ Hu) as (_ & Hcl & _ & _ & Hrt).
  rewrite <- Hs in Hcl, Hrt.
  remember (refresh_access_token rt client_id client_secret w) as X eqn:HX.
  unfold refresh_access_token in HX. unfold bind at 1 in HX.
  destruct (validate_client_run w client_id client_secret Hcl) as [[c [Hv Hcv]]|[Hv Hcv]];
    rewrite Hv in HX; rewrite Hs in Hcv.
  2:{ subst X. simpl. now apply rf_bad_client. }
  cbv beta iota zeta in HX.
  set (cond := fun k : OAuthMCPAccessToken => _) in HX.
  assert (Hcond : forall k, cond k = true <->
            tk_refresh_token_hash k = Some (_hash rt) /\ tk_client_id k = client_id
            /\ tk_deleted_at k = None).
  { intros k. unfold cond. rewrite !andb_true_iff, String.eqb_eq.
    destruct (tk_refresh_token_hash k) as [h|]; destruct (tk_deleted_at k); simpl;
      try rewrite String.eqb_eq; intuition congruence. }
  unfold bind at 1 in HX. unfold select_where, read in HX. unfold bind at 1 in HX.
  destruct (lookup_unique tk_refresh_token_hash cond (k := _hash rt))
    with (l := tokens (session w)) as [[Hf Hn]|[i [k [Hf [Hi Hc]]]]].
  - intros r Hr. apply Hcond in Hr as [-> _]. reflexivity.
  - exact Hrt.
  - rewrite Hf in HX. subst X. simpl. apply rf_no_token; [exact Hcv|].
    intros i k (Hi & H1 & H2 & H3). rewrite <- Hs in Hi.
    apply nth_error_In in Hi. specialize (Hn k Hi).
    assert (cond k = true) by (apply Hcond; auto). congruence.
  - rewrite Hf in HX. unfold scalar_one_or_none, ret at 1 in HX. cbv beta iota in HX.
    apply Hcond in Hc as (H1 & H2 & H3).
    assert (Hlive : live_refresh (committed w) (_hash rt) client_id i k).
    { rewrite <- Hs. repeat split; auto. }
    unfold bind at 1 in HX.
    destruct (tk_refresh_expires_at k) as [e|] eqn:He.
    + unfold bind at 1, utcnow at 1, ret at 1 in HX. cbv beta iota in HX.
      destruct (e <? clock w (ticks w)) eqn:Hexp.
      * subst X. unfold ret. cbn [fst snd]. rewrite Hs.
        eapply rf_expired; eauto. unfold refresh_expired. now rewrite He.
      * unfold bind, utcnow, modify, commit, with_session, ret, _generate_token,
          token_urlsafe in HX.
        cbn -[unique_ok ACCESS_TOKEN_LIFETIME REFRESH_TOKEN_LIFETIME total_seconds
              ACCESS_TOKEN_PREFIX REFRESH_TOKEN_PREFIX String.append] in HX.
        rewrite Hs in HX.
        assert (Hrr : refresh_reads k = 1%nat) by (unfold refresh_reads; now rewrite He).
        assert (Hre : refresh_expired (clock w (ticks w)) k = false)
          by (unfold refresh_expired; now rewrite He).
        match type of HX with
        | context [if unique_ok ?d then _ else _] =>
            replace d with (refreshed_db w client_id i k) in HX
              by (unfold refreshed_db; rewrite Hrr; reflexivity)
        end.
        destruct (unique_ok (refreshed_db w client_id i k)) eqn:Hq; subst X;
          cbv beta iota; unfold fst, snd.
        -- replace (S (S (S (S (ticks w))))) with (3 + refresh_reads k + ticks w)%nat
             by (rewrite Hrr; reflexivity).
           eapply rf_issued; eauto.
        -- replace (S (S (S (S (ticks w))))) with (3 + refresh_reads k + ticks w)%nat
             by (rewrite Hrr; reflexivity).
           eapply rf_collision; eauto.
    + unfold ret at 1 in HX. cbv beta iota in HX.
      unfold bind, utcnow, modify, commit, with_session, ret, _generate_token,
        token_urlsafe in HX.
      cbn -[unique_ok ACCESS_TOKEN_LIFETIME REFRESH_TOKEN_LIFETIME total_seconds
            ACCESS_TOKEN_PREFIX REFRESH_TOKEN_PREFIX String.append] in HX.
      rewrite Hs in HX.
      assert (Hrr : refresh_reads k = 0%nat) by (unfold refresh_reads; now rewrite He).
      assert (Hre : refresh_expired (clock w (ticks w)) k = false)
        by (unfold refresh_expired; now rewrite He).
      match type of HX with
      | context [if unique_ok ?d then _ else _] =>
          replace d with (refreshed_db w client_id i k) in HX
            by (unfold refreshed_db; rewrite Hrr; reflexivity)
      end.
      destruct (unique_ok (refreshed_db w client_id i k)) eqn:Hq; subst X;
        cbv beta iota; unfold fst, snd.
      * replace (S (S (S (ticks w)))) with (3 + refresh_reads k + ticks w)%nat
          by (rewrite Hrr; reflexivity).
        eapply rf_issued; eauto.
      * replace (S (S (S (ticks w)))) with (3 + refresh_reads k + ticks w)%nat
          by (rewrite Hrr; reflexivity).
        eapply rf_collision; eauto.
Qed.

Lemma refresh_spent_stable h : stable (refresh_spent h).
Proof.
  intros f Hf d (k & Hin & Hh & Hd).
  destruct Hf; unfold refresh_spent; cbn [tokens with_clients with_codes with_tokens];
    try (exists k; auto; fail).
  - exists k. repeat split; auto. apply in_or_app. now left.
  - destruct (In_update_nth_keep (set_token_deleted_at t) i (tokens d) k Hin) as [H|H].
    + exists k. auto.
    + exists (set_token_deleted_at t k). repeat split; auto. discriminate.
Qed.

Lemma access_revoked_stable h : stable (access_revoked h).
Proof.
  intros f Hf d (k & Hin & Hh & Hd).
  destruct Hf; unfold access_revoked; cbn [tokens with_clients with_codes with_tokens];
    try (exists k; auto; fail).
  - exists k. repeat split; auto. apply in_or_app. now left.
  - destruct (In_update_nth_keep (set_token_deleted_at t) i (tokens d) k Hin) as [H|H].
    + exists k. auto.
    + exists (set_token_deleted_at t k). repeat split; auto. discriminate.
Qed.

Lemma refresh_spent_not_live (d : Db) (h : string) :
  unique_ok d = true -> refresh_spent h d ->
  forall cid i k, ~ live_refresh d h cid i k.
Proof.
  intros Hu (k0 & Hin & Hh & Hd) cid i k (Hi & Hk & _ & Hl).
  destruct (unique_ok_parts _ Hu) as (_ & _ & _ & _ & Hrt).
  apply In_nth_error in Hin as [j Hj].
  assert (i = j).
  { eapply (distinct_key_inj tk_refresh_token_hash (k := h)) with (l := tokens d); eauto. }
  subst j. congruence.
Qed.

Lemma access_revoked_not_live (d : Db) (h : string) :
  unique_ok d = true -> access_revoked h d ->
  forall i k, ~ live_access d h i k.
Proof.
  intros Hu (k0 & Hin & Hh & Hd) i k (Hi & Hk & Hl).
  destruct (unique_ok_parts _ Hu) as (_ & _ & _ & Htk & _).
  apply nth_error_In in Hi.
  assert (k0 = k) by (eapply token_record_unique; eauto). congruence.
Qed.

(** What [validate_access_token] does, by the record under the hash. *)
Lemma validate_access_token_run (w : World) (token : string) :
  wf w ->
  (validate_access_token token w = (Return None, w)
   /\ (startswith token ACCESS_TOKEN_PREFIX = false
       \/ forall i k, ~ live_access (committed w) (_hash token) i k))
  \/ (exists i k,
        startswith token ACCESS_TOKEN_PREFIX = true
        /\ live_access (committed w) (_hash token) i k
        /\ validate_access_token token w
           = (Return (if tk_expires_at k <? clock w (ticks w) then None
                      else match users (committed w) (tk_user_id k),
                                 organizations (committed w) (tk_organization_id k) with
                           | Some u, Some o => Some (u, o)
                           | _, _ => None
                           end),
              after (committed w) 1 0 w)).
Proof.
  intros [Hu Hs].
  destruct (unique_ok_parts _ Hu) as (_ & _ & _ & Htk & _).
  remember (validate_access_token token w) as X eqn:HX.
  unfold validate_access_token in HX.
  destruct (startswith token ACCESS_TOKEN_PREFIX) eqn:Hp; cbn [negb] in HX.
  2:{ left. subst X. split; [reflexivity | now left]. }
  set (cond := fun k : OAuthMCPAccessToken => _) in HX.
  assert (Hcond : forall k, cond k = true <->
            tk_token_hash k = _hash token /\ tk_deleted_at k = None).
  { intros k. unfold cond. rewrite andb_true_iff, String.eqb_eq.
    destruct (tk_deleted_at k); simpl; intuition congruence. }
  unfold bind at 1 in HX. unfold select_where, read at 1 in HX. unfold bind at 1 in HX.
  destruct (lookup_unique (fun k => Some (tk_token_hash k)) cond (k := _hash token))
    with (l := tokens (session w)) as [[Hf Hn]|[i [k [Hf [Hi Hc]]]]].
  - intros r Hr. apply Hcond in Hr as [-> _]. reflexivity.
  - rewrite non_null_map_some, Hs. exact Htk.
  - rewrite Hf in HX. subst X. left. split; [reflexivity|]. right.
    intros i k (Hi & Hh & Hd). rewrite <- Hs in Hi. apply nth_error_In in Hi.
    specialize (Hn k Hi). assert (cond k = true) by (apply Hcond; auto). congruence.
  - rewrite Hf in HX. unfold scalar_one_or_none, ret at 1 in HX. cbv beta iota in HX.
    unfold bind at 1, utcnow at 1 in HX. cbv beta iota in HX.
    apply Hcond in Hc as [Hh Hd]. rewrite Hs in Hi.
    right. exists i, k. split; [reflexivity|]. split; [repeat split; auto|].
    subst X.
    destruct (tk_expires_at k <? clock w (ticks w)); [unfold ret, after; now rewrite Hs|].
    unfold bind, read, ret, after. rewrite Hs. cbn [session].
    destruct (users (committed w) (tk_user_id k)); cbn [session];
      [destruct (organizations (committed w) (tk_organization_id k))|]; reflexivity.
Qed.

Lemma fresh_refreshed_db (w : World) (cid : string) (i : nat) (k : OAuthMCPAccessToken) :
  unique_ok (committed w) = true -> fresh_tokens w ->
  unique_ok (refreshed_db w cid i k) = true.
Proof.
  intros Hu [Hf1 Hf2].
  destruct (unique_ok_parts _ Hu) as (H1 & H2 & H3 & H4 & H5).
  unfold unique_ok, refreshed_db, tombstone_token, with_tokens.
  cbn [clients codes tokens].
  rewrite !map_app, non_null_app, !map_update_nth by reflexivity.
  unfold issued_token.
  cbn [map non_null flat_map app tk_token_hash tk_refresh_token_hash].
  rewrite !distinct_app_one, H1, H2, H3, H4, H5, Hf1, Hf2. reflexivity.
Qed.

Lemma refresh_expired_true (now : datetime) (k : OAuthMCPAccessToken) :
  refresh_expired now k = true <->
  exists e, tk_refresh_expires_at k = Some e /\ e < now.
Proof.
  unfold refresh_expired. destruct (tk_refresh_expires_at k) as [e|].
  - rewrite Z.ltb_lt. split; [eauto | intros (e' & [= <-] & H); exact H].
  - split; [discriminate | intros (e' & H & _); discriminate].
Qed.

Lemma live_refresh_unique (d : Db) (h cid cid' : string) i j a b :
  unique_ok d = true ->
  live_refresh d h cid i a -> live_refresh d h cid' j b -> i = j /\ a = b.
Proof.
  intros Hu (Hi & Ha & _) (Hj & Hb & _).
  destruct (unique_ok_parts _ Hu) as (_ & _ & _ & _ & Hrt).
  assert (i = j).
  { eapply (distinct_key_inj tk_refresh_token_hash (k := h)) with (l := tokens d); eauto. }
  subst j. split; [reflexivity | congruence].
Qed.

(** X7. [refresh_access_token] returns None exactly when the client does
    not validate, or no live record holds the hash of the refresh token for
    this client, or that record's refresh expiry is before now. A refusal
    writes nothing and draws no random token: in particular an expired
    refresh token is refused without its record being tombstoned. *)
Theorem refresh_access_token_refusal (w : World) (rt cid : string) (sec : option string) :
  wf w ->
  (fst (refresh_access_token rt cid sec w) = Return None
   <-> (~ client_validates (committed w) cid sec
        \/ (forall i k, ~ live_refresh (committed w) (_hash rt) cid i k)
        \/ exists i k e, live_refresh (committed w) (_hash rt) cid i k
                         /\ tk_refresh_expires_at k = Some e
                         /\ e < clock w (ticks w)))
  /\ (fst (refresh_access_token rt cid sec w) = Return None ->
      committed (snd (refresh_access_token rt cid sec w)) = committed w
      /\ session (snd (refresh_access_token rt cid sec w)) = committed w
      /\ draws (snd (refresh_access_token rt cid sec w)) = draws w).
Proof.
  intros Hwf. pose proof Hwf as [Hu Hs].
  pose proof (refresh_access_token_cases w rt cid sec Hwf) as Hcase.
  destruct (refresh_access_token rt cid sec w) as [o w'].
  cbn [fst snd] in *.
  inversion Hcase as [Hn | Hcv Hn | i k Hcv Hl He | i k Hcv Hl He Hq | i k Hcv Hl He Hq];
    subst o; try subst w'.
  - split; [|intros _; rewrite Hs; auto]. split; [auto | reflexivity].
  - split; [|intros _; rewrite Hs; auto]. split; [auto | reflexivity].
  - split; [|intros _; cbn; auto]. split; [|reflexivity]. intros _. right. right.
    apply refresh_expired_true in He as (e & He & Hlt). exists i, k, e. auto.
  - split; [|discriminate]. split; [discriminate|].
    intros [Hn|[Hn|(j & k' & e & Hl' & He' & Hlt)]].
    + contradiction.
    + exfalso. exact (Hn i k Hl).
    + destruct (live_refresh_unique _ _ _ _ _ _ _ _ Hu Hl Hl') as [_ <-].
      assert (refresh_expired (clock w (ticks w)) k = true)
        by (apply refresh_expired_true; eauto).
      congruence.
  - split; [|discriminate]. split; [discriminate|].
    intros [Hn|[Hn|(j & k' & e & Hl' & He' & Hlt)]].
    + contradiction.
    + exfalso. exact (Hn i k Hl).
    + destruct (live_refresh_unique _ _ _ _ _ _ _ _ Hu Hl Hl') as [_ <-].
      assert (refresh_expired (clock w (ticks w)) k = true)
        by (apply refresh_expired_true; eauto).
      congruence.
Qed.

(** X8. A refresh token is single use, for good. Once a refresh succeeded,
    after any further requests the same refresh token is refused for every
    client and secret, and any token hashing to the old record's access
    hash no longer validates. *)
Theorem refresh_token_single_use (w : World) (rt cid : string) (sec : option string)
    (r : TokenResponse) (w1 : World) :
  wf w ->
  refresh_access_token rt cid sec w = (Return (Some r), w1) ->
  exists i k,
    live_refresh (committed w) (_hash rt) cid i k
    /\ forall calls,
         let w2 := run calls w1 in
         (forall cid' sec', refresh_access_token rt cid' sec' w2 = (Return None, w2))
         /\ (forall old_access, _hash old_access = tk_token_hash k ->
               validate_access_token old_access w2 = (Return None, w2)).
Proof.
  intros Hwf H. pose proof Hwf as [Hu Hs].
  pose proof (refresh_access_token_cases w rt cid sec Hwf) as Hcase.
  rewrite H in Hcase. cbn [fst snd] in Hcase.
  inversion Hcase as [ | | | i k Hcv Hl He Hq Hr Hw | ]. clear Hcase.
  exists i, k. split; [exact Hl|]. intros calls w2.
  destruct Hl as (Hi & Hh & Hc & Hd).
  set (t := clock w (refresh_reads k + ticks w)%nat) in *.
  assert (Hnth : nth_error (tokens (refreshed_db w cid i k)) i
                 = Some (set_token_deleted_at t k)).
  { unfold refreshed_db, tombstone_token. cbn [tokens with_tokens].
    rewrite nth_error_app1.
    - now apply nth_error_update_nth.
    - apply nth_error_Some. erewrite nth_error_update_nth by eassumption. discriminate. }
  assert (Hwf1 : wf (after (refreshed_db w cid i k) (3 + refresh_reads k) 2 w))
    by (split; [exact Hq | reflexivity]).
  apply nth_error_In in Hnth.
  assert (H1 : refresh_spent (_hash rt) (refreshed_db w cid i k)).
  { exists (set_token_deleted_at t k). repeat split; auto. discriminate. }
  assert (H2 : access_revoked (tk_token_hash k) (refreshed_db w cid i k)).
  { exists (set_token_deleted_at t k). repeat split; auto. discriminate. }
  destruct (run_inv _ (refresh_spent_stable (_hash rt)) calls _
              (inv_start _ _ Hwf1 H1) Hwf1) as [(Hu2 & Hg1 & _) Hwf2].
  destruct (run_inv _ (access_revoked_stable (tk_token_hash k)) calls _
              (inv_start _ _ Hwf1 H2) Hwf1) as [(_ & Hg2 & _) _].
  fold w2 in Hu2, Hg1, Hg2, Hwf2.
  split.
  - intros cid' sec'.
    pose proof (refresh_access_token_cases w2 rt cid' sec' Hwf2) as Hcase.
    destruct (refresh_access_token rt cid' sec' w2) as [o w'].
    cbn [fst snd] in Hcase.
    inversion Hcase as [Hn | Hcv' Hn | j x Hcv' Hl' | j x Hcv' Hl' | j x Hcv' Hl'];
      try reflexivity;
      exfalso; exact (refresh_spent_not_live _ _ Hu2 Hg1 cid' j x Hl').
  - intros old Hold.
    destruct (validate_access_token_run w2 old Hwf2) as [[E _]|(j & x & _ & Hl' & _)];
      [exact E|].
    exfalso. rewrite Hold in Hl'. exact (access_revoked_not_live _ _ Hu2 Hg2 j x Hl').
Qed.

(* ================================================================== *)
(** * From the code to the tokens                                   *)
(* ================================================================== *)

Lemma nth_error_app_last {A} (l : list A) (x : A) :
  nth_error (l ++ [x]) (List.length l) = Some x.
Proof. rewrite nth_error_app2 by lia. now rewrite Nat.sub_diag. Qed.

Lemma client_validates_same_clients (d d' : Db) cid sec :
  clients d' = clients d -> client_validates d cid sec -> client_validates d' cid sec.
Proof. intros E (c & H). exists c. now rewrite E. Qed.

Lemma live_access_unique (d : Db) (h : string) i j a b :
  unique_ok d = true -> live_access d h i a -> live_access d h j b -> a = b.
Proof.
  intros Hu (Hi & Ha & _) (Hj & Hb & _).
  destruct (unique_ok_parts _ Hu) as (_ & _ & _ & Htk & _).
  eapply token_record_unique; eauto using nth_error_In.
Qed.

(** The access token of a record just issued: valid until the record's
    [expires_at]. *)
Lemma issued_access_validates (w1 : World) (token : string) (i : nat)
    (k : OAuthMCPAccessToken) :
  wf w1 ->
  startswith token ACCESS_TOKEN_PREFIX = true ->
  live_access (committed w1) (_hash token) i k ->
  validate_access_token token w1
  = (Return (if tk_expires_at k <? clock w1 (ticks w1) then None
             else match users (committed w1) (tk_user_id k),
                        organizations (committed w1) (tk_organization_id k) with
                  | Some u, Some o => Some (u, o)
                  | _, _ => None
                  end),
     after (committed w1) 1 0 w1).
Proof.
  intros Hwf Hp Hl. pose proof Hwf as [Hu _].
  destruct (validate_access_token_run w1 token Hwf) as [[_ [E|E]]|(j & x & _ & Hl' & E)].
  - congruence.
  - exfalso. exact (E i k Hl).
  - now rewrite (live_access_unique _ _ _ _ _ _ Hu Hl Hl').
Qed.

Lemma startswith_app (p s : string) : startswith (p ++ s) p = true.
Proof.
  unfold startswith. induction p as [|c p IH]; simpl.
  - now destruct s.
  - destruct (ascii_dec c c); [exact IH | contradiction].
Qed.

Lemma exchanged_db_access (w : World) (cid : string) (i : nat)
    (a : OAuthMCPAuthorizationCode) :
  nth_error (tokens (exchanged_db w cid i a)) (List.length (tokens (committed w)))
  = Some (issued_token w cid (ac_user_id a) (ac_organization_id a) (ac_scope a) 2).
Proof.
  unfold exchanged_db, tombstone_code. cbn [tokens with_tokens with_codes].
  apply nth_error_app_last.
Qed.

(** X9. The tokens of a successful exchange are usable. The response is a
    Bearer response of 3600 seconds with the prefixes bow_oauth_ and
    bow_rt_ and the scope of the code. Presented next, the access token
    validates to the user and organization of the code as long as the clock
    has not passed its expiry (issue time plus ACCESS_TOKEN_LIFETIME) and no
    longer afterwards; and, with fresh random tokens and before the refresh
    expiry, the refresh token is accepted for the same client and keeps the
    scope. *)
Theorem exchange_code_tokens_usable (w : World) (code cid : string) (sec : option string)
    (ver uri : string) (r : TokenResponse) (w1 : World) :
  wf w ->
  exchange_code code cid sec ver uri w = (Return (Some r), w1) ->
  exists i a,
    live_code (committed w) code cid i a
    /\ wf w1
    /\ token_type r = "Bearer" /\ expires_in r = 3600 /\ scope r = ac_scope a
    /\ startswith (access_token r) "bow_oauth_" = true
    /\ startswith (refresh_token r) "bow_rt_" = true
    /\ (forall u o,
          users (committed w) (ac_user_id a) = Some u ->
          organizations (committed w) (ac_organization_id a) = Some o ->
          clock w1 (ticks w1) <= clock w (2 + ticks w)%nat + ACCESS_TOKEN_LIFETIME ->
          fst (validate_access_token (access_token r) w1) = Return (Some (u, o)))
    /\ (clock w (2 + ticks w)%nat + ACCESS_TOKEN_LIFETIME < clock w1 (ticks w1) ->
        fst (validate_access_token (access_token r) w1) = Return None)
    /\ (fresh_tokens w1 ->
        clock w1 (ticks w1) <= clock w (3 + ticks w)%nat + REFRESH_TOKEN_LIFETIME ->
        exists r2 w2,
          refresh_access_token (refresh_token r) cid sec w1 = (Return (Some r2), w2)
          /\ scope r2 = scope r).
Proof.
  intros Hwf H. pose proof Hwf as [Hu Hs].
  pose proof (exchange_code_cases w code cid sec ver uri Hwf) as Hcase.
  rewrite H in Hcase. cbn [fst snd] in Hcase.
  inversion Hcase as [ | | | | | i a Hcv Hl He Hp Hr Hq Hres Hw | ]. clear Hcase.
  exists i, a. split; [exact Hl|].
  set (w1' := after (exchanged_db w cid i a) 4 2 w).
  assert (Hwf1 : wf w1') by (split; [exact Hq | reflexivity]).
  split; [exact Hwf1|].
  unfold issued_response.
  cbn [token_type expires_in scope access_token refresh_token].
  split; [reflexivity|]. split; [reflexivity|]. split; [reflexivity|].
  split; [apply startswith_app|]. split; [apply startswith_app|].
  set (k := issued_token w cid (ac_user_id a) (ac_organization_id a) (ac_scope a) 2).
  assert (Hnth : nth_error (tokens (committed w1')) (List.length (tokens (committed w)))
                 = Some k) by apply exchanged_db_access.
  assert (Hla : live_access (committed w1')
                  (_hash (ACCESS_TOKEN_PREFIX ++ entropy w (draws w))%string)
                  (List.length (tokens (committed w))) k)
    by (split; [exact Hnth | split; reflexivity]).
  pose proof (issued_access_validates w1' _ _ _ Hwf1 (startswith_app _ _) Hla) as Hval.
  split; [|split].
  - intros u o Hus Hor Ht. rewrite Hval. cbn [fst].
    change (tk_expires_at k) with (clock w (2 + ticks w)%nat + ACCESS_TOKEN_LIFETIME).
    apply Z.ltb_ge in Ht. rewrite Ht.
    change (users (committed w1') (tk_user_id k))
      with (users (committed w) (ac_user_id a)).
    change (organizations (committed w1') (tk_organization_id k))
      with (organizations (committed w) (ac_organization_id a)).
    now rewrite Hus, Hor.
  - intros Ht. rewrite Hval. cbn [fst].
    change (tk_expires_at k) with (clock w (2 + ticks w)%nat + ACCESS_TOKEN_LIFETIME).
    apply Z.ltb_lt in Ht. now rewrite Ht.
  - intros Hfresh Ht.
    assert (Hlr : live_refresh (committed w1')
                    (_hash (REFRESH_TOKEN_PREFIX ++ entropy w (S (draws w)))%string) cid
                    (List.length (tokens (committed w))) k)
      by (split; [exact Hnth | repeat split; reflexivity]).
    assert (Hcv1 : client_validates (committed w1') cid sec)
      by (eapply client_validates_same_clients; [|exact Hcv]; reflexivity).
    pose proof (refresh_access_token_cases w1'
                  (REFRESH_TOKEN_PREFIX ++ entropy w (S (draws w)))%string cid sec Hwf1)
      as Hcase.
    destruct (refresh_access_token (REFRESH_TOKEN_PREFIX ++ entropy w (S (draws w)))%string
                cid sec w1') as [o w2].
    cbn [fst snd] in Hcase.
    inversion Hcase as [Hn | Hcv' Hn | j x Hcv' Hl' He' | j x Hcv' Hl' He' Hq'
                        | j x Hcv' Hl' He' Hq']; subst.
    + contradiction.
    + exfalso. exact (Hn _ _ Hlr).
    + exfalso. destruct (live_refresh_unique _ _ _ _ _ _ _ _ (proj1 Hwf1) Hlr Hl') as [_ <-].
      apply refresh_expired_true in He' as (e & Hee & Hlt).
      injection Hee as <-. change (3 + ticks w)%nat with (S (S (S (ticks w)))) in Ht. lia.
    + destruct (live_refresh_unique _ _ _ _ _ _ _ _ (proj1 Hwf1) Hlr Hl') as [_ <-].
      eexists; eexists. split; reflexivity.
    + rewrite (fresh_refreshed_db w1' cid j x (proj1 Hwf1) Hfresh) in Hq'. discriminate.
Qed.

Lemma create_authorization_code_run (w : World) (cid uid oid uri sc ch : string) :
  wf w ->
  create_authorization_code cid uid oid uri sc ch w
  = if unique_ok (add_code (issued_code w cid uid oid uri sc ch) (committed w))
    then (Return (entropy w (draws w)),
          after (add_code (issued_code w cid uid oid uri sc ch) (committed w)) 1 1 w)
    else (Raise IntegrityError, after (committed w) 1 1 w).
Proof.
  intros [Hu Hs].
  unfold create_authorization_code, bind, token_urlsafe, utcnow, modify, commit,
    with_session, ret.
  cbn -[unique_ok AUTHORIZATION_CODE_LIFETIME]. rewrite Hs.
  match goal with
  | |- context [if unique_ok ?d then _ else _] =>
      change d with (add_code (issued_code w cid uid oid uri sc ch) (committed w))
  end.
  destruct (unique_ok (add_code (issued_code w cid uid oid uri sc ch) (committed w)));
    reflexivity.
Qed.

Lemma live_code_row_unique (d : Db) (code cid cid' : string) i j a b :
  unique_ok d = true ->
  live_code d code cid i a -> live_code d code cid' j b -> i = j /\ a = b.
Proof.
  intros Hu (Hi & Ha & _) (Hj & Hb & _).
  destruct (unique_ok_parts _ Hu) as (_ & _ & Hco & _).
  eapply live_code_unique; eauto.
Qed.

(** X10. Round trip of the authorization code. The code
    [create_authorization_code] returns has a live record bound to the
    client, user, organization, redirect URI, scope and challenge given,
    expiring five minutes after now; clients and tokens are untouched. An
    exchange of that code made next is refused exactly when one of these
    fails: the
    client validates, the clock has not passed the expiry, the verifier
    matches the challenge, the redirect URI is the one given; and a
    successful exchange issues a live token record for that client, user,
    organization and scope. *)
Theorem create_authorization_code_then_exchange (w : World)
    (cid uid oid uri sc ch code : string) (w1 : World) :
  wf w ->
  create_authorization_code cid uid oid uri sc ch w = (Return code, w1) ->
  wf w1
  /\ live_code (committed w1) code cid (List.length (codes (committed w)))
       (mkCode code cid uid oid uri sc ch
               (clock w (ticks w) + 5 * 60 * 1000000) None)
  /\ clients (committed w1) = clients (committed w)
  /\ tokens (committed w1) = tokens (committed w)
  /\ forall sec ver uri',
       let res := exchange_code code cid sec ver uri' w1 in
       (fst res = Return None
        <-> ~ (client_validates (committed w) cid sec
               /\ clock w1 (ticks w1) <= clock w (ticks w) + 5 * 60 * 1000000
               /\ _verify_pkce_s256 ver ch = true
               /\ uri' = uri))
       /\ (forall r, fst res = Return (Some r) ->
             scope r = sc
             /\ exists k, In k (tokens (committed (snd res)))
                          /\ tk_token_hash k = _hash (access_token r)
                          /\ tk_client_id k = cid /\ tk_user_id k = uid
                          /\ tk_organization_id k = oid /\ tk_scope k = sc
                          /\ tk_deleted_at k = None).
Proof.
  intros Hwf H. pose proof Hwf as [Hu Hs].
  rewrite (create_authorization_code_run w cid uid oid uri sc ch Hwf) in H.
  set (a := issued_code w cid uid oid uri sc ch) in *.
  destruct (unique_ok (add_code a (committed w))) eqn:Hq; [|discriminate H].
  pose proof (f_equal fst H) as Hr. pose proof (f_equal snd H) as Hw.
  cbn [fst snd] in Hr, Hw. injection Hr as Hr. subst code w1. clear H.
  set (w1 := after (add_code a (committed w)) 1 1 w).
  assert (Hwf1 : wf w1) by (split; [exact Hq | reflexivity]).
  assert (Hl : live_code (committed w1) (entropy w (draws w)) cid
                 (List.length (codes (committed w))) a).
  { split; [|repeat split; reflexivity].
    unfold w1, add_code. cbn [committed after codes with_codes].
    apply nth_error_app_last. }
  split; [exact Hwf1|]. split; [exact Hl|]. split; [reflexivity|]. split; [reflexivity|].
  intros sec ver uri' res.
  pose proof (exchange_code_cases w1 (entropy w (draws w)) cid sec ver uri' Hwf1) as Hcase.
  fold res in Hcase.
  assert (Hcvs : client_validates (committed w1) cid sec
                 <-> client_validates (committed w) cid sec).
  { split; apply client_validates_same_clients; reflexivity. }
  change (clock w1 (ticks w1)) with (clock w (1 + ticks w)%nat) in *.
  change (clock w (ticks w) + 5 * 60 * 1000000) with (ac_expires_at a).
  destruct res as [o w2]. cbn [fst snd] in *.
  inversion Hcase as [Hn | Hcv Hn | i x Hcv Hl' He | i x Hcv Hl' He Hp
                      | i x Hcv Hl' He Hp Hr | i x Hcv Hl' He Hp Hr Hq'
                      | i x Hcv Hl' He Hp Hr Hq']; subst o; try subst w2;
    try (destruct (live_code_row_unique _ _ _ _ _ _ _ _ (proj1 Hwf1) Hl Hl') as [<- <-]).
  - split; [|discriminate]. split; [|reflexivity]. intros _ (Hc & _).
    apply Hn, Hcvs, Hc.
  - exfalso. exact (Hn _ _ Hl).
  - split; [|discriminate]. split; [|reflexivity]. intros _ (_ & Ht & _).
    change (clock w1 (ticks w1)) with (clock w (1 + ticks w)%nat) in He. lia.
  - split; [|discriminate]. split; [|reflexivity]. intros _ (_ & _ & Hv & _).
    change (ac_code_challenge a) with ch in Hp. congruence.
  - split; [|discriminate]. split; [|reflexivity]. intros _ (_ & _ & _ & E).
    apply Hr. now rewrite E.
  - split.
    + split; [discriminate|]. intros Hn. exfalso. apply Hn.
      split; [apply Hcvs, Hcv|]. split; [exact He|]. split; [exact Hp|].
      symmetry. exact Hr.
    + intros r [= <-]. split; [reflexivity|].
      exists (issued_token w1 cid uid oid sc 2). split.
      * eapply nth_error_In. apply exchanged_db_access.
      * repeat split; reflexivity.
  - split; [|discriminate].
    split; [discriminate|]. intros Hn. exfalso. apply Hn.
    split; [apply Hcvs, Hcv|]. split; [exact He|]. split; [exact Hp|].
    symmetry. exact Hr.
Qed.

(* ================================================================== *)
(** * POST /oauth/authorize                                         *)
(* ================================================================== *)

Lemma missing_false (o : option string) :
  missing o = false -> exists s, o = Some s /\ s <> "" /\ field o = s.
Proof.
  destruct o as [s|]; [|discriminate]. simpl. intros H. apply String.eqb_neq in H. eauto.
Qed.

Lemma append_assoc (a b c : string) : ((a ++ b) ++ c = a ++ b ++ c)%string.
Proof. induction a as [|x a IH]; simpl; [reflexivity | now rewrite IH]. Qed.

Lemma append_nil_r (a : string) : (a ++ "" = a)%string.
Proof. induction a as [|x a IH]; simpl; [reflexivity | now rewrite IH]. Qed.

Lemma callback_url_eq (uri code : string) (state : option string) :
  (if negb (missing state)
   then ((uri ++ (if contains_char "?" uri then "&" else "?") ++ "code=" ++ code)
         ++ "&state=" ++ field state)%string
   else (uri ++ (if contains_char "?" uri then "&" else "?") ++ "code=" ++ code)%string)
  = callback_url uri code state.
Proof.
  unfold callback_url. destruct state as [s|]; cbn [missing field negb];
    [destruct (String.eqb s "")|]; cbn [negb];
    rewrite ?append_assoc, ?append_nil_r; reflexivity.
Qed.

(** The two outcomes of [authorize_approve] that are not a refusal at the
    parameters. *)
Lemma authorize_approve_run (w : World) (body : AuthorizeBody) (user : User)
    (organization : Organization) :
  wf w ->
  missing (body_client_id body) || missing (body_redirect_uri body)
  || missing (body_code_challenge body) = false ->
  match body_code_challenge_method body with Some m => m | None => "S256" end = "S256" ->
  let cid := field (body_client_id body) in
  let uri := field (body_redirect_uri body) in
  (~ client_validates (committed w) cid None
   /\ authorize_approve body user organization w
      = (Return (inl (bad_request "Invalid client_id")), w))
  \/ (exists c, In c (clients (committed w)) /\ cl_client_id c = cid
                /\ cl_deleted_at c = None
                /\ authorize_approve body user organization w
                   = if validate_redirect_uri c uri then
                       match create_authorization_code cid (user_id user)
                               (org_id organization) uri
                               match body_scope body with Some s => s | None => "mcp" end
                               (field (body_code_challenge body)) w with
                       | (Return code, w1) =>
                           (Return (inr (callback_url uri code (body_state body))), w1)
                       | (Raise e, w1) => (Raise e, w1)
                       end
                     else (Return (inl (bad_request "Invalid redirect_uri")), w)).
Proof.
  intros [Hu Hs] Hm Hmeth cid uri.
  destruct (unique_ok_parts _ Hu) as (_ & Hcl & _). rewrite <- Hs in Hcl.
  remember (authorize_approve body user organization w) as X eqn:HX.
  unfold authorize_approve in HX. rewrite Hm, Hmeth in HX.
  cbn [String.eqb Ascii.eqb Bool.eqb negb andb] in HX.
  fold cid in HX. fold uri in HX. unfold bind at 1 in HX.
  destruct (validate_client_run w cid None Hcl) as [[c [Hv Hcv]]|[Hv Hcv]];
    rewrite Hv in HX; rewrite Hs in Hcv.
  2:{ left. split; [exact Hcv | exact HX]. }
  right. exists c.
  apply validate_client_some in Hv as (_ & Hin & Hid & Hd & _). rewrite Hs in Hin.
  split; [exact Hin|]. split; [exact Hid|]. split; [exact Hd|].
  destruct (validate_redirect_uri c uri); cbn [negb] in HX; [|exact HX].
  unfold bind at 1 in HX.
  destruct (create_authorization_code cid (user_id user) (org_id organization) uri
              match body_scope body with Some s => s | None => "mcp" end
              (field (body_code_challenge body)) w) as [[code|e] w1]; [|exact HX].
  subst X. unfold ret. now rewrite callback_url_eq.
Qed.

(** A client_id names one client row. *)
Lemma live_client_unique (d : Db) (cid : string) (c c' : OAuthMCPClient) :
  distinct (map cl_client_id (clients d)) = true ->
  In c (clients d) -> cl_client_id c = cid ->
  In c' (clients d) -> cl_client_id c' = cid ->
  c = c'.
Proof.
  intros Hd Hin Hid Hin' Hid'.
  apply In_nth_error in Hin as [i Hi]. apply In_nth_error in Hin' as [j Hj].
  assert (i = j).
  { eapply (distinct_key_inj (fun c => Some (cl_client_id c)) (k := cid))
      with (l := clients d); eauto.
    - now rewrite non_null_map_some.
    - simpl. now f_equal.
    - simpl. now f_equal. }
  subst j. congruence.
Qed.

(** X11. The refusals of [authorize_approve], for a body whose members are
    strings. The checks are made in the order of the source and the first
    one that fails decides the answer, a 400 raised before anything is
    written or drawn: "Missing required parameters" when client_id,
    redirect_uri or code_challenge is absent or empty; "Only S256
    code_challenge_method is supported" when all three are present and a
    method other than S256 is given; "Invalid client_id" when moreover no
    live client has the client_id; "Invalid redirect_uri" when there is
    one and the redirect URI is not among its own. Conversely every
    [HTTPException] it raises is one of these four, with its detail
    telling which check failed and that all the checks before it
    passed. *)
Theorem authorize_approve_refusal (w : World) (body : AuthorizeBody) (user : User)
    (organization : Organization) :
  wf w ->
  let cid := field (body_client_id body) in
  let uri := field (body_redirect_uri body) in
  let absent := missing (body_client_id body) || missing (body_redirect_uri body)
                || missing (body_code_challenge body) in
  let other_method := exists m, body_code_challenge_method body = Some m /\ m <> "S256" in
  let s256 := body_code_challenge_method body = None
              \/ body_code_challenge_method body = Some "S256" in
  let client_not_live := ~ client_validates (committed w) cid None in
  let uri_not_registered :=
    exists c, In c (clients (committed w)) /\ cl_client_id c = cid
              /\ cl_deleted_at c = None
              /\ ~ In uri (json_loads (cl_redirect_uris c)) in
  let refused detail :=
    authorize_approve body user organization w
    = (Return (inl (bad_request detail)), w) in
  (absent = true -> refused "Missing required parameters")
  /\ (absent = false -> other_method ->
      refused "Only S256 code_challenge_method is supported")
  /\ (absent = false -> s256 -> client_not_live -> refused "Invalid client_id")
  /\ (absent = false -> s256 -> uri_not_registered -> refused "Invalid redirect_uri")
  /\ forall e w1,
       authorize_approve body user organization w = (Return (inl e), w1) ->
       w1 = w
       /\ exc_status_code e = 400
       /\ ((exc_detail e = "Missing required parameters" /\ absent = true)
           \/ (exc_detail e = "Only S256 code_challenge_method is supported"
               /\ absent = false /\ other_method)
           \/ (exc_detail e = "Invalid client_id"
               /\ absent = false /\ s256 /\ client_not_live)
           \/ (exc_detail e = "Invalid redirect_uri"
               /\ absent = false /\ s256 /\ uri_not_registered)).
Proof.
  intros Hwf cid uri absent other_method s256 client_not_live uri_not_registered refused.
  assert (Hmeth_ok : s256 ->
            match body_code_challenge_method body with Some m => m | None => "S256" end
            = "S256").
  { intros [E|E]; rewrite E; reflexivity. }
  assert (Hmeth_s : match body_code_challenge_method body with Some m => m | None => "S256" end
                    = "S256" -> s256).
  { unfold s256. destruct (body_code_challenge_method body) as [m|];
      [intros ->; now right | now left]. }
  assert (Huniq : distinct (map cl_client_id (clients (committed w))) = true).
  { destruct Hwf as [Hu _]. now destruct (unique_ok_parts _ Hu) as (_ & Hcl & _). }
  assert (A : absent = true -> refused "Missing required parameters").
  { intros Hm. unfold refused, authorize_approve. fold absent. rewrite Hm. reflexivity. }
  assert (B : absent = false -> other_method ->
              refused "Only S256 code_challenge_method is supported").
  { intros Hm (m & Em & Nm). unfold refused, authorize_approve. fold absent.
    rewrite Hm, Em. apply String.eqb_neq in Nm. rewrite Nm. reflexivity. }
  assert (C : absent = false -> s256 -> client_not_live -> refused "Invalid client_id").
  { intros Hm Hs Hn.
    destruct (authorize_approve_run w body user organization Hwf Hm (Hmeth_ok Hs))
      as [[_ E]|(c & Hin & Hid & Hd & _)]; [exact E|].
    exfalso. apply Hn. exists c. repeat split; auto. discriminate. }
  assert (D : absent = false -> s256 -> uri_not_registered ->
              refused "Invalid redirect_uri").
  { intros Hm Hs (c' & Hin' & Hid' & Hd' & Hn').
    destruct (authorize_approve_run w body user organization Hwf Hm (Hmeth_ok Hs))
      as [[Hn _]|(c & Hin & Hid & Hd & E)].
    - exfalso. apply Hn. exists c'. repeat split; auto. discriminate.
    - assert (c = c') by (eapply live_client_unique; eauto). subst c'.
      unfold refused. rewrite E.
      destruct (validate_redirect_uri c (field (body_redirect_uri body))) eqn:Hv;
        [|reflexivity].
      exfalso. apply Hn'. apply mem_string_In. exact Hv. }
  split; [exact A|]. split; [exact B|]. split; [exact C|]. split; [exact D|].
  intros e w1 H.
  destruct absent eqn:Hm.
  { rewrite (A eq_refl) in H. injection H as <- <-.
    split; [reflexivity|]. split; [reflexivity|]. left. split; reflexivity. }
  destruct (String.eqb match body_code_challenge_method body with
                       | Some m => m | None => "S256" end "S256") eqn:Hmeth.
  2:{ assert (Ho : other_method).
      { apply String.eqb_neq in Hmeth. unfold other_method.
        destruct (body_code_challenge_method body) as [m|]; [eauto | contradiction]. }
      rewrite (B eq_refl Ho) in H. injection H as <- <-.
      split; [reflexivity|]. split; [reflexivity|]. right. left.
      split; [reflexivity|]. split; [reflexivity | exact Ho]. }
  apply String.eqb_eq in Hmeth. pose proof (Hmeth_s Hmeth) as Hs.
  destruct (authorize_approve_run w body user organization Hwf Hm Hmeth)
    as [[Hn E]|(c & Hin & Hid & Hd & E)]; rewrite E in H.
  - injection H as <- <-. split; [reflexivity|]. split; [reflexivity|].
    right. right. left. split; [reflexivity|]. split; [reflexivity|].
    split; [exact Hs | exact Hn].
  - destruct (validate_redirect_uri c (field (body_redirect_uri body))) eqn:Hv.
    + destruct (create_authorization_code _ _ _ _ _ _ w) as [[code|x] w2]; discriminate H.
    + injection H as <- <-. split; [reflexivity|]. split; [reflexivity|].
      right. right. right. split; [reflexivity|]. split; [reflexivity|].
      split; [exact Hs|]. exists c.
      repeat split; auto. intros Hi. apply mem_string_In in Hi.
      unfold validate_redirect_uri in Hv. unfold uri in Hi.
      rewrite Hi in Hv. discriminate Hv.
Qed.

Lemma authorize_approve_success (w : World) (body : AuthorizeBody) (user : User)
    (organization : Organization) (url : string) (w1 : World) :
  wf w ->
  authorize_approve body user organization w = (Return (inr url), w1) ->
  exists cid uri ch c,
    body_client_id body = Some cid /\ body_redirect_uri body = Some uri
    /\ body_code_challenge body = Some ch
    /\ cid <> "" /\ uri <> "" /\ ch <> ""
    /\ (body_code_challenge_method body = None
        \/ body_code_challenge_method body = Some "S256")
    /\ In c (clients (committed w)) /\ cl_client_id c = cid /\ cl_deleted_at c = None
    /\ In uri (json_loads (cl_redirect_uris c))
    /\ url = callback_url uri (entropy w (draws w)) (body_state body)
    /\ unique_ok (add_code (issued_code w cid (user_id user) (org_id organization) uri
                              match body_scope body with Some s => s | None => "mcp" end
                              ch) (committed w)) = true
    /\ w1 = after (add_code (issued_code w cid (user_id user) (org_id organization) uri
                               match body_scope body with Some s => s | None => "mcp" end
                               ch) (committed w)) 1 1 w.
Proof.
  intros Hwf H.
  destruct (missing (body_client_id body) || missing (body_redirect_uri body)
            || missing (body_code_challenge body)) eqn:Hm.
  { unfold authorize_approve in H. rewrite Hm in H. discriminate H. }
  destruct (String.eqb match body_code_challenge_method body with
                       | Some m => m | None => "S256" end "S256") eqn:Hmeth.
  2:{ unfold authorize_approve in H. rewrite Hm, Hmeth in H. discriminate H. }
  apply String.eqb_eq in Hmeth.
  destruct (authorize_approve_run w body user organization Hwf Hm Hmeth)
    as [[Hn E]|(c & Hin & Hid & Hd & E)]; rewrite E in H; [discriminate H|].
  rewrite !orb_false_iff in Hm. destruct Hm as [[M1 M2] M3].
  apply missing_false in M1 as (cid & E1 & N1 & F1).
  apply missing_false in M2 as (uri & E2 & N2 & F2).
  apply missing_false in M3 as (ch & E3 & N3 & F3).
  rewrite F1, F2, F3 in *.
  destruct (validate_redirect_uri c uri) eqn:Hv; [|discriminate H].
  rewrite (create_authorization_code_run w _ _ _ _ _ _ Hwf) in H.
  match type of H with
  | context [if unique_ok ?d then _ else _] => destruct (unique_ok d) eqn:Hq
  end; [|discriminate H].
  pose proof (f_equal fst H) as Hr. pose proof (f_equal snd H) as Hw.
  cbn [fst snd] in Hr, Hw. injection Hr as Hr. subst url w1. clear H.
  exists cid, uri, ch, c.
  split; [exact E1|]. split; [exact E2|]. split; [exact E3|].
  split; [exact N1|]. split; [exact N2|]. split; [exact N3|].
  split.
  { destruct (body_code_challenge_method body) as [m|]; [right; now f_equal | now left]. }
  split; [exact Hin|]. split; [exact Hid|]. split; [exact Hd|].
  split; [apply mem_string_In; exact Hv|]. split; [reflexivity|].
  split; [exact Hq | reflexivity].
Qed.

(** X12. An approval issues one code. When [authorize_approve] answers
    with a URL, the three parameters were present and non-empty, the method
    absent or S256, the client live and the redirect URI one of its own;
    the URL is the redirect URI followed by ? (or & when it already contains
    a ?), code= and the code, then &state= and the state when a non-empty
    state was given; and the code has a live record for the approving user
    and organization, expiring in five minutes. Clients and tokens are
    untouched. *)
Theorem authorize_approve_issues_code (w : World) (body : AuthorizeBody) (user : User)
    (organization : Organization) (url : string) (w1 : World) :
  wf w ->
  authorize_approve body user organization w = (Return (inr url), w1) ->
  exists cid uri ch c,
    body_client_id body = Some cid /\ body_redirect_uri body = Some uri
    /\ body_code_challenge body = Some ch
    /\ cid <> "" /\ uri <> "" /\ ch <> ""
    /\ (body_code_challenge_method body = None
        \/ body_code_challenge_method body = Some "S256")
    /\ In c (clients (committed w)) /\ cl_client_id c = cid /\ cl_deleted_at c = None
    /\ In uri (json_loads (cl_redirect_uris c))
    /\ url = callback_url uri (entropy w (draws w)) (body_state body)
    /\ wf w1
    /\ live_code (committed w1) (entropy w (draws w)) cid
         (List.length (codes (committed w)))
         (mkCode (entropy w (draws w)) cid (user_id user) (org_id organization) uri
                 match body_scope body with Some s => s | None => "mcp" end
                 ch (clock w (ticks w) + 5 * 60 * 1000000) None)
    /\ clients (committed w1) = clients (committed w)
    /\ tokens (committed w1) = tokens (committed w).
Proof.
  intros Hwf H.
  destruct (authorize_approve_success w body user organization url w1 Hwf H)
    as (cid & uri & ch & c & E1 & E2 & E3 & N1 & N2 & N3 & Hm & Hin & Hid & Hd & Hu
        & Hurl & Hq & ->).
  exists cid, uri, ch, c. repeat (split; [assumption|]).
  split; [split; [exact Hq | reflexivity]|].
  split; [|split; reflexivity].
  split; [|repeat split; reflexivity].
  unfold add_code. cbn [committed after codes with_codes]. apply nth_error_app_last.
Qed.

(* ================================================================== *)
(** * POST /oauth/token                                             *)
(* ================================================================== *)

Lemma issued_response_bearer (w : World) (sc : string) :
  bearer_response (issued_response w sc).
Proof.
  repeat split; try reflexivity; apply startswith_app.
Qed.

Lemma length_update_nth {A} (f : A -> A) (i : nat) (l : list A) :
  List.length (update_nth i f l) = List.length l.
Proof.
  revert i. induction l as [|x l IH]; intros [|i]; simpl; auto.
Qed.

Lemma refreshed_db_access (w : World) (cid : string) (i : nat) (k : OAuthMCPAccessToken) :
  nth_error (tokens (refreshed_db w cid i k)) (List.length (tokens (committed w)))
  = Some (issued_token w cid (tk_user_id k) (tk_organization_id k) (tk_scope k)
                       (S (refresh_reads k))).
Proof.
  unfold refreshed_db, tombstone_token. cbn [tokens with_tokens].
  rewrite nth_error_app2; rewrite length_update_nth; [|lia].
  now rewrite Nat.sub_diag.
Qed.

(** A token response of the service is a bearer response backed by a live
    record; a refusal leaves the token table as it was. *)
Lemma exchange_code_result (w : World) code cid sec ver uri :
  wf w ->
  match exchange_code code cid sec ver uri w with
  | (Return (Some r), w1) => bearer_response r /\ token_issued (committed w1) cid r
  | (Return None, w1) => tokens (committed w1) = tokens (committed w)
  | (Raise _, _) => True
  end.
Proof.
  intros Hwf.
  pose proof (exchange_code_cases w code cid sec ver uri Hwf) as Hcase.
  destruct (exchange_code code cid sec ver uri w) as [o w1]. cbn [fst snd] in Hcase.
  inversion Hcase; subst; try reflexivity; try exact I.
  split; [apply issued_response_bearer|].
  eexists. split; [eapply nth_error_In; apply exchanged_db_access|].
  repeat split; reflexivity.
Qed.

Lemma refresh_access_token_result (w : World) rt cid sec :
  wf w ->
  match refresh_access_token rt cid sec w with
  | (Return (Some r), w1) => bearer_response r /\ token_issued (committed w1) cid r
  | (Return None, w1) => tokens (committed w1) = tokens (committed w)
  | (Raise _, _) => True
  end.
Proof.
  intros Hwf.
  pose proof (refresh_access_token_cases w rt cid sec Hwf) as Hcase.
  destruct (refresh_access_token rt cid sec w) as [o w1]. cbn [fst snd] in Hcase.
  inversion Hcase; subst; try reflexivity; try exact I.
  split; [apply issued_response_bearer|].
  eexists. split; [eapply nth_error_In; apply refreshed_db_access|].
  repeat split; reflexivity.
Qed.

(** X13. The token endpoint has two kinds of answer. A 200 carries a
    Bearer response (3600 seconds, prefixes bow_oauth_ and bow_rt_) backed
    by a live token record of the requesting client, and only for the two
    grant types; every other answer is a 400 that leaves the token table as
    it was: invalid_request (a required field missing or empty, nothing
    read or written), invalid_grant (the service refused), or
    unsupported_grant_type (any other grant type, nothing read or
    written). *)
Theorem token_endpoint_responses (w : World) (grant_type : string)
    (code redirect_uri : option string) (client_id : string)
    (client_secret code_verifier rt : option string) (resp : JSONResponse) (w1 : World) :
  wf w ->
  token_endpoint grant_type code redirect_uri client_id client_secret code_verifier rt w
  = (Return resp, w1) ->
  (status_code resp = 200
   /\ (grant_type = "authorization_code" \/ grant_type = "refresh_token")
   /\ exists r, content resp = TokenOk r /\ bearer_response r
                /\ token_issued (committed w1) client_id r)
  \/ (status_code resp = 400
      /\ tokens (committed w1) = tokens (committed w)
      /\ exists e d,
           content resp = ErrorBody e d
           /\ ((e = "invalid_request" /\ w1 = w
                /\ (grant_type = "authorization_code"
                    /\ (missing code = true \/ missing code_verifier = true
                        \/ missing redirect_uri = true)
                    \/ grant_type = "refresh_token" /\ missing rt = true))
               \/ (e = "invalid_grant"
                   /\ (grant_type = "authorization_code" \/ grant_type = "refresh_token"))
               \/ (e = "unsupported_grant_type" /\ d = None /\ w1 = w
                   /\ grant_type <> "authorization_code"
                   /\ grant_type <> "refresh_token"))).
Proof.
  intros Hwf H. unfold token_endpoint in H.
  destruct (String.eqb grant_type "authorization_code") eqn:G1.
  - apply String.eqb_eq in G1.
    destruct (missing code || missing code_verifier || missing redirect_uri) eqn:Hm.
    + unfold ret in H. injection H as <- <-. right.
      split; [reflexivity|]. split; [reflexivity|].
      eexists; eexists. split; [reflexivity|]. left.
      split; [reflexivity|]. split; [reflexivity|]. left. split; [exact G1|].
      rewrite !orb_true_iff in Hm. tauto.
    + unfold bind in H.
      pose proof (exchange_code_result w (field code) client_id client_secret
                    (field code_verifier) (field redirect_uri) Hwf) as Hres.
      destruct (exchange_code (field code) client_id client_secret (field code_verifier)
                  (field redirect_uri) w) as [[[r|]|x] w2]; [| |discriminate H];
        unfold ret in H; injection H as <- <-.
      * left. split; [reflexivity|]. split; [now left|]. exists r.
        split; [reflexivity | exact Hres].
      * right. split; [reflexivity|]. split; [exact Hres|].
        eexists; eexists. split; [reflexivity|]. right. left. auto.
  - destruct (String.eqb grant_type "refresh_token") eqn:G2.
    + apply String.eqb_eq in G2.
      destruct (missing rt) eqn:Hm.
      * unfold ret in H. injection H as <- <-. right.
        split; [reflexivity|]. split; [reflexivity|].
        eexists; eexists. split; [reflexivity|]. left.
        split; [reflexivity|]. split; [reflexivity|]. right. auto.
      * unfold bind in H.
        pose proof (refresh_access_token_result w (field rt) client_id client_secret Hwf)
          as Hres.
        destruct (refresh_access_token (field rt) client_id client_secret w)
          as [[[r|]|x] w2]; [| |discriminate H];
          unfold ret in H; injection H as <- <-.
        -- left. split; [reflexivity|]. split; [now right|]. exists r.
           split; [reflexivity | exact Hres].
        -- right. split; [reflexivity|]. split; [exact Hres|].
           eexists; eexists. split; [reflexivity|]. right. left. auto.
    + unfold ret in H. injection H as <- <-. right.
      split; [reflexivity|]. split; [reflexivity|].
      eexists; eexists. split; [reflexivity|]. right. right.
      apply String.eqb_neq in G1, G2. auto.
Qed.

(* ================================================================== *)
(** * The gateway, every method                                     *)
(* ================================================================== *)


Lemma check_mcp_disabled (organization : Organization) :
  org_settings organization <> Some (Some true) ->
  _check_mcp_enabled organization = Some mcp_disabled.
Proof.
  unfold _check_mcp_enabled.
  destruct (org_settings organization) as [[[|]|]|]; congruence.
Qed.

(** X15. MCP switched off means 403 everywhere. Unless the organization
    has settings whose mcp_enabled value is true, POST /mcp, GET /mcp and
    GET /mcp/tools all raise the same 403, whatever the body: it is not
    looked at, no tool is resolved or executed and the world is
    unchanged. *)
Theorem mcp_disabled_is_forbidden (env : McpEnv) (body : ParsedBody) (user : User)
    (organization : Organization) (w : World) :
  org_settings organization <> Some (Some true) ->
  mcp_endpoint env body (user, organization) w = (inl mcp_disabled, w)
  /\ mcp_get_endpoint (user, organization) = inl mcp_disabled
  /\ get_tools_rest env (user, organization) = inl mcp_disabled
  /\ exc_status_code mcp_disabled = 403.
Proof.
  intros H. apply check_mcp_disabled in H.
  unfold mcp_endpoint, mcp_get_endpoint, get_tools_rest. rewrite H.
  repeat split.
Qed.


(* ================================================================== *)
(** * The dispatcher, every credential                              *)
(* ================================================================== *)

Lemma validate_access_token_reads (w : World) (token : string) :
  wf w ->
  exists r, validate_access_token token w = (Return r, w)
            \/ validate_access_token token w = (Return r, after (committed w) 1 0 w).
Proof.
  intros Hwf.
  destruct (validate_access_token_run w token Hwf) as [[E _]|(i & k & _ & _ & E)];
    rewrite E; eauto.
Qed.

Lemma missing_field (o : option string) : missing o = false -> o = Some (field o).
Proof. destruct o; [reflexivity | discriminate]. Qed.

(** X14. What [mcp_auth] does with credentials. On a store satisfying its
    indexes its three steps always come to an end, having written nothing
    and drawn nothing. Every lookup made is for a credential present in the
    request with the prefix of its scheme: API keys start with bow_ and not
    with bow_oauth_, an OAuth validation is made only for a bearer token
    starting with bow_oauth_. When a pair is resolved it comes from the
    last attempt made, user and organization both from that one credential,
    and [mcp_auth] returns it. When none is resolved, [mcp_auth] reads
    [settings.bow_config.base_url]: it raises AttributeError when the
    settings object has no [bow_config] (the [Settings] class declares
    none), and otherwise returns the 401 whose WWW-Authenticate header
    carries the resource metadata URL. *)
Theorem mcp_auth_credentials (env : AuthEnv) (request : Request) (jwt_user : option User)
    (api_key : option string) (w : World) :
  wf w ->
  exists r trace w1,
    mcp_auth_attempts env request jwt_user api_key w = (Return (r, trace), w1)
    /\ committed w1 = committed w /\ session w1 = session w /\ draws w1 = draws w
    /\ Forall (attempt_allowed request jwt_user api_key) trace
    /\ (forall p, r = Some p ->
          (exists before a, trace = before ++ [a] /\ resolved_by env request w p a)
          /\ mcp_auth env request jwt_user api_key w = (Return (inr p, trace), w1))
    /\ (r = None ->
        (bow_config (settings env) = None ->
         mcp_auth env request jwt_user api_key w = (Raise AttributeError, w1))
        /\ (forall c, bow_config (settings env) = Some c ->
              exists url,
                _resource_metadata_url env request = Return url
                /\ mcp_auth env request jwt_user api_key w
                   = (Return (inl (not_authenticated url), trace), w1)
                /\ exc_status_code (not_authenticated url) = 401
                /\ exists v, exc_headers (not_authenticated url)
                             = [("WWW-Authenticate", v)]
                             /\ startswith v "Bearer resource_metadata=" = true)).
Proof.
  intros Hwf. pose proof Hwf as [_ Hs].
  pose proof (validate_access_token_reads w) as Hval.
  specialize (fun t => Hval t Hwf).
  destruct (mcp_auth_attempts env request jwt_user api_key w) as [o w1] eqn:H.
  assert (Hfinal : forall r trace, o = Return (r, trace) ->
            (forall p, r = Some p ->
               mcp_auth env request jwt_user api_key w = (Return (inr p, trace), w1))
            /\ (r = None ->
                (bow_config (settings env) = None ->
                 mcp_auth env request jwt_user api_key w = (Raise AttributeError, w1))
                /\ (forall c, bow_config (settings env) = Some c ->
                      exists url,
                        _resource_metadata_url env request = Return url
                        /\ mcp_auth env request jwt_user api_key w
                           = (Return (inl (not_authenticated url), trace), w1)
                        /\ exc_status_code (not_authenticated url) = 401
                        /\ exists v, exc_headers (not_authenticated url)
                                     = [("WWW-Authenticate", v)]
                                     /\ startswith v "Bearer resource_metadata=" = true))).
  { intros r trace ->. unfold mcp_auth, bind. rewrite H. split.
    - intros p ->. reflexivity.
    - intros ->. unfold lift, ret, _resource_metadata_url, bow_config_base_url. split.
      + intros ->. reflexivity.
      + intros c ->. eexists. split; [reflexivity|]. split; [reflexivity|].
        split; [reflexivity|]. eexists. split; reflexivity. }
  unfold mcp_auth_attempts, api_key_lookup, is_api_key in H.
  unfold bind, read, ret in H.
  auth_cases H; cbv beta iota in H.
  all: try match goal with
           | Hq : validate_access_token ?t _ = _ |- _ =>
               let r := fresh "r" in let E := fresh "E" in
               destruct (Hval t) as (r & [E|E]); rewrite E in Hq;
               injection Hq as ? ?; subst
           end.
  all: try discriminate.
  all: injection H as <- <-.
  all: eexists; eexists; eexists; split; [reflexivity|].
  all: split; [first [reflexivity | exact Hs | now rewrite Hs]|].
  all: split; [first [reflexivity | exact Hs | now rewrite Hs]|].
  all: split; [reflexivity|].
  all: repeat match goal with
              | Hm : negb (missing ?o) && _ = true |- _ =>
                  apply andb_true_iff in Hm; destruct Hm as [? Hm]
              | Hm : _ && negb _ = true |- _ =>
                  apply andb_true_iff in Hm; destruct Hm as [? Hm]
              | Hm : negb _ = true |- _ => apply negb_true_iff in Hm
              end.
  all: split;
    [ repeat constructor; cbn [attempt_allowed];
      unfold bearer_of;
      repeat match goal with
             | Hq : startswith _ _ = _ |- _ => rewrite Hq
             end;
      auto using missing_field |].
  all: specialize (Hfinal _ _ eq_refl); destruct Hfinal as [Hsome Hnone].
  all: split; [|first [exact Hnone | discriminate]].
  all: first [ discriminate | intros ? [= <-] ].
  all: split; [|exact (Hsome _ eq_refl)].
  all: first [ refine (ex_intro _ [] (ex_intro _ _ (conj eq_refl _)))
             | refine (ex_intro _ [_] (ex_intro _ _ (conj eq_refl _)))
             | refine (ex_intro _ [_; _] (ex_intro _ _ (conj eq_refl _)))
             | refine (ex_intro _ [_; _; _] (ex_intro _ _ (conj eq_refl _)))
             | refine (ex_intro _ [_; _; _; _] (ex_intro _ _ (conj eq_refl _))) ].
  all: cbn [resolved_by fst snd].
  all: try (split; [reflexivity || assumption | assumption]).
  all: try match goal with
           | E : validate_access_token _ _ = _ |- _ => rewrite E; reflexivity
           end.
Qed.

(* ================================================================== *)
(** * Hashes, challenges and the base URL                           *)
(* ================================================================== *)

Lemma hexlify_length (bs : list Z) :
  String.length (hexlify bs) = (2 * List.length bs)%nat.
Proof.
  unfold hexlify. induction bs as [|b bs IH]; [reflexivity|].
  cbn [flat_map app string_of_list_ascii String.length List.length].
  rewrite IH. lia.
Qed.

Lemma hex_digit_is_hex (d : Z) : is_hex_digit (hex_digit d).
Proof.
  unfold is_hex_digit, hex_digit.
  destruct (Nat.lt_ge_cases (Z.to_nat d) 16) as [H|H].
  - apply nth_In. exact H.
  - rewrite nth_overflow by exact H. now left.
Qed.

Lemma list_ascii_of_string_of_list (l : list ascii) :
  list_ascii_of_string (string_of_list_ascii l) = l.
Proof. induction l as [|x l IH]; simpl; [reflexivity | now rewrite IH]. Qed.

Lemma ascii_of_byte_of_ascii (c : ascii) : ascii_of_byte (byte_of_ascii c) = c.
Proof.
  unfold ascii_of_byte, byte_of_ascii. rewrite N2Z.id. apply ascii_N_embedding.
Qed.

Lemma b64url_nopad_length (bs : list Z) :
  List.length (Base64.b64url_nopad bs) = ((4 * List.length bs + 2) / 3)%nat.
Proof.
  induction bs as [| a | a b | a b c l IH] using list_ind3; try reflexivity.
  change (Base64.b64url_nopad (a :: b :: c :: l))
    with (Base64.enc3 a b c ++ Base64.b64url_nopad l).
  rewrite length_app, IH. cbn [List.length Base64.enc3].
  replace (4 * S (S (S (List.length l))) + 2)%nat
    with ((4 * List.length l + 2) + 4 * 3)%nat by lia.
  rewrite Nat.div_add by discriminate. lia.
Qed.

Lemma sextet_char (v : Z) : is_base64url_char (ascii_of_byte (Base64.sextet v)).
Proof.
  unfold Base64.sextet. rewrite ascii_of_byte_of_ascii. apply nth_In.
  pose proof (Z.mod_pos_bound v 64 eq_refl).
  change (List.length Base64.urlsafe_alphabet) with 64%nat. lia.
Qed.

Lemma b64url_nopad_chars (bs : list Z) :
  Forall is_base64url_char (map ascii_of_byte (Base64.b64url_nopad bs)).
Proof.
  induction bs as [| a | a b | a b c l IH] using list_ind3.
  - apply Forall_nil.
  - cbn [Base64.b64url_nopad Base64.enc1 map].
    repeat (apply Forall_cons; [apply sextet_char|]). apply Forall_nil.
  - cbn [Base64.b64url_nopad Base64.enc2 map].
    repeat (apply Forall_cons; [apply sextet_char|]). apply Forall_nil.
  - change (Base64.b64url_nopad (a :: b :: c :: l))
      with (Base64.enc3 a b c ++ Base64.b64url_nopad l).
    rewrite map_app. apply Forall_app. split; [|exact IH].
    cbn [Base64.enc3 map].
    repeat (apply Forall_cons; [apply sextet_char|]). apply Forall_nil.
Qed.

Lemma string_length_of_list (l : list ascii) :
  String.length (string_of_list_ascii l) = List.length l.
Proof. induction l as [|x l IH]; simpl; [reflexivity | now rewrite IH]. Qed.

(** X18. [_hash] always returns sixty-four lowercase hexadecimal digits,
    which is what the String(64) hash columns hold. *)
Theorem hash_is_64_hex_digits (value : string) :
  String.length (_hash value) = 64%nat
  /\ Forall is_hex_digit (list_ascii_of_string (_hash value)).
Proof.
  unfold _hash. split.
  - now rewrite hexlify_length, digest_length.
  - unfold hexlify. rewrite list_ascii_of_string_of_list.
    induction (Sha256.digest (encode value)) as [|b bs IH]; [constructor|].
    cbn [flat_map app]. repeat (apply Forall_cons; [apply hex_digit_is_hex|]). exact IH.
Qed.

(** X19. Only one challenge verifies for a verifier, and it has the shape
    RFC 7636 gives it: forty-three characters of the base64url alphabet, no
    padding. A padded or otherwise longer or shorter challenge is never
    accepted. *)
Theorem verify_pkce_s256_challenge_shape (code_verifier code_challenge : string) :
  _verify_pkce_s256 code_verifier code_challenge = true ->
  String.length code_challenge = 43%nat
  /\ Forall is_base64url_char (list_ascii_of_string code_challenge)
  /\ forall other, _verify_pkce_s256 code_verifier other = true -> other = code_challenge.
Proof.
  intros H. apply verify_pkce_s256_iff in H. unfold pkce_s256 in H. subst code_challenge.
  split; [|split].
  - unfold decode. rewrite string_length_of_list, length_map, b64url_nopad_length,
      digest_length. reflexivity.
  - unfold decode. rewrite list_ascii_of_string_of_list. apply b64url_nopad_chars.
  - intros other Ho. apply verify_pkce_s256_iff in Ho. unfold pkce_s256 in Ho.
    now subst other.
Qed.

Lemma byte_of_ascii_inj (a b : ascii) : byte_of_ascii a = byte_of_ascii b -> a = b.
Proof.
  intros H. rewrite <- (ascii_of_byte_of_ascii a), <- (ascii_of_byte_of_ascii b).
  now rewrite H.
Qed.

Lemma decode_encode (s : string) : decode (encode s) = s.
Proof.
  unfold decode, encode. induction s as [|c s IH]; [reflexivity|].
  cbn [list_ascii_of_string map string_of_list_ascii].
  now rewrite ascii_of_byte_of_ascii, IH.
Qed.

Lemma rstrip_str_cons (c x : ascii) (s : string) :
  rstrip_str c (String x s)
  = match rstrip_str c s with
    | EmptyString => if Ascii.eqb x c then "" else String x ""
    | rest => String x rest
    end.
Proof.
  unfold rstrip_str, encode. cbn [list_ascii_of_string map rstrip].
  destruct (rstrip (byte_of_ascii c) (map byte_of_ascii (list_ascii_of_string s)))
    as [|y r] eqn:E.
  - cbn [decode map string_of_list_ascii].
    destruct (Ascii.eqb x c) eqn:Hx.
    + apply Ascii.eqb_eq in Hx. subst x. now rewrite Z.eqb_refl.
    + destruct (byte_of_ascii x =? byte_of_ascii c) eqn:Hb; [|
        unfold decode; cbn [map string_of_list_ascii];
        now rewrite ascii_of_byte_of_ascii].
      apply Z.eqb_eq, byte_of_ascii_inj in Hb. apply Ascii.eqb_neq in Hx. contradiction.
  - unfold decode. cbn [map string_of_list_ascii]. now rewrite ascii_of_byte_of_ascii.
Qed.

(** [s.rstrip(c)]: [s] is the result followed by a run of [c], and the
    result does not end with [c]. *)
Lemma rstrip_str_spec (c : ascii) (s : string) :
  (exists n, s = (rstrip_str c s ++ chars n c)%string)
  /\ forall t, rstrip_str c s <> (t ++ String c "")%string.
Proof.
  induction s as [|x s [[n IHn] IHe]].
  - split; [exists 0%nat; reflexivity|]. intros [|? ?]; discriminate.
  - rewrite rstrip_str_cons.
    destruct (rstrip_str c s) as [|y r] eqn:E.
    + cbn [String.append] in IHn.
      destruct (Ascii.eqb x c) eqn:Hx.
      * apply Ascii.eqb_eq in Hx. subst x. split.
        -- exists (S n). cbn [String.append chars]. now f_equal.
        -- intros [|? ?]; discriminate.
      * split.
        -- exists n. cbn [String.append]. now f_equal.
        -- intros [|a [|b t]] Ht; cbn [String.append] in Ht; try discriminate.
           injection Ht as ->. now rewrite Ascii.eqb_refl in Hx.
    + split.
      * exists n. cbn [String.append]. f_equal. exact IHn.
      * intros [|a t] Ht; cbn [String.append] in Ht; [discriminate|].
        injection Ht as _ Ht. exact (IHe t Ht).
Qed.

(** X17. The public base URL and the discovery chain, by what the
    settings object has. Without a [bow_config] attribute (the [Settings]
    class of settings/config.py declares none) both copies of the base URL
    logic raise AttributeError, and so do the two well-known metadata
    routes. With one, the URL named by the 401 of [mcp_auth] is the base
    URL of the OAuth routes followed by the well-known path of the
    protected-resource metadata: the two copies agree. That document names
    the base as its only authorization server, which is the issuer of the
    server metadata, whose endpoints are the base followed by their paths.
    A configured URL (non-empty, not the default) is used with all its
    trailing slashes removed, so the base never ends with a slash;
    otherwise the origin of the request is used. *)
Theorem base_url_is_normalised (env : AuthEnv) (request : Request) :
  (bow_config (settings env) = None ->
   _resource_metadata_url env request = Raise AttributeError
   /\ OAuthRoutes._base_url (settings env) request = Raise AttributeError
   /\ OAuthRoutes.protected_resource_metadata (settings env) request
      = Raise AttributeError
   /\ OAuthRoutes.authorization_server_metadata (settings env) request
      = Raise AttributeError)
  /\ (forall c, bow_config (settings env) = Some c ->
      let origin := (req_url_scheme request ++ "://" ++ req_url_netloc request)%string in
      exists base,
        OAuthRoutes._base_url (settings env) request = Return base
        /\ _resource_metadata_url env request
           = Return (base ++ "/.well-known/oauth-protected-resource")%string
        /\ (exists resource server,
              OAuthRoutes.protected_resource_metadata (settings env) request
              = Return (PyDict resource)
              /\ OAuthRoutes.authorization_server_metadata (settings env) request
                 = Return (PyDict server)
              /\ dict_get "resource" resource = Some (PyStr (base ++ "/api/mcp"))
              /\ dict_get "authorization_servers" resource = Some (PyList [PyStr base])
              /\ dict_get "issuer" server = Some (PyStr base)
              /\ dict_get "token_endpoint" server
                 = Some (PyStr (base ++ "/api/oauth/token"))
              /\ dict_get "authorization_endpoint" server
                 = Some (PyStr (base ++ "/authorize")))
        /\ (forall configured,
              bc_base_url c = Some configured ->
              configured <> "" -> configured <> "http://0.0.0.0:3000" ->
              (exists n, configured = (base ++ chars n "/")%string)
              /\ forall t, base <> (t ++ "/")%string)
        /\ (bc_base_url c = None \/ bc_base_url c = Some ""
            \/ bc_base_url c = Some "http://0.0.0.0:3000" ->
            base = origin)).
Proof.
  split.
  - intros H.
    unfold OAuthRoutes.protected_resource_metadata,
      OAuthRoutes.authorization_server_metadata, _resource_metadata_url,
      OAuthRoutes._base_url, bow_config_base_url.
    rewrite H. repeat split.
  - intros c H origin.
    assert (Hb : exists base,
              OAuthRoutes._base_url (settings env) request = Return base
              /\ _resource_metadata_url env request
                 = Return (base ++ "/.well-known/oauth-protected-resource")%string
              /\ (forall configured,
                    bc_base_url c = Some configured ->
                    configured <> "" -> configured <> "http://0.0.0.0:3000" ->
                    (exists n, configured = (base ++ chars n "/")%string)
                    /\ forall t, base <> (t ++ "/")%string)
              /\ (bc_base_url c = None \/ bc_base_url c = Some ""
                  \/ bc_base_url c = Some "http://0.0.0.0:3000" ->
                  base = origin)).
    { unfold _resource_metadata_url, OAuthRoutes._base_url, bow_config_base_url.
      rewrite H.
      destruct (bc_base_url c) as [configured|].
      - destruct (negb (String.eqb configured "")
                  && negb (String.eqb configured "http://0.0.0.0:3000")) eqn:E.
        + eexists. split; [reflexivity|]. split; [reflexivity|]. split.
          * intros ? [= <-] _ _. apply rstrip_str_spec.
          * apply andb_true_iff in E as [E1 E2].
            apply negb_true_iff in E1, E2. apply String.eqb_neq in E1, E2.
            intros [X|[X|X]]; congruence.
        + eexists. split; [reflexivity|]. split; [reflexivity|]. split.
          * intros ? [= <-] H1 H2. apply String.eqb_neq in H1, H2.
            rewrite H1, H2 in E. discriminate E.
          * reflexivity.
      - eexists. split; [reflexivity|]. split; [reflexivity|]. split.
        + discriminate.
        + reflexivity. }
    destruct Hb as (base & H1 & H2 & H3 & H4). exists base.
    split; [exact H1|]. split; [exact H2|]. split; [|split; assumption].
    unfold OAuthRoutes.protected_resource_metadata,
      OAuthRoutes.authorization_server_metadata. rewrite H1.
    eexists; eexists. split; [reflexivity|]. split; [reflexivity|]. repeat split.
Qed.

(* ================================================================== *)
(** * The flow end to end                                           *)
(* ================================================================== *)

(** An exchange whose five conditions hold, with fresh random tokens. *)
Lemma exchange_code_issues (w : World) (code cid : string) (sec : option string)
    (ver uri : string) (i : nat) (a : OAuthMCPAuthorizationCode) :
  wf w -> fresh_tokens w ->
  client_validates (committed w) cid sec ->
  live_code (committed w) code cid i a ->
  clock w (ticks w) <= ac_expires_at a ->
  _verify_pkce_s256 ver (ac_code_challenge a) = true ->
  ac_redirect_uri a = uri ->
  exchange_code code cid sec ver uri w
  = (Return (Some (issued_response w (ac_scope a))),
     after (exchanged_db w cid i a) 4 2 w)
  /\ unique_ok (exchanged_db w cid i a) = true.
Proof.
  intros Hwf Hfresh Hcv Hl He Hp Hr. pose proof Hwf as [Hu Hs].
  pose proof (exchange_code_cases w code cid sec ver uri Hwf) as Hcase.
  destruct (exchange_code code cid sec ver uri w) as [o w1]. cbn [fst snd] in Hcase.
  inversion Hcase as [Hn | Hcv' Hn | j x Hcv' Hl' He' | j x Hcv' Hl' He' Hp'
                      | j x Hcv' Hl' He' Hp' Hr' | j x Hcv' Hl' He' Hp' Hr' Hq'
                      | j x Hcv' Hl' He' Hp' Hr' Hq']; subst o; try subst w1;
    try (destruct (live_code_row_unique _ _ _ _ _ _ _ _ Hu Hl Hl') as [<- <-]).
  - contradiction.
  - exfalso. exact (Hn _ _ Hl).
  - lia.
  - congruence.
  - contradiction.
  - split; [reflexivity | exact Hq'].
  - rewrite (fresh_exchanged_db w cid i a Hu Hfresh) in Hq'. discriminate.
Qed.

Lemma mcp_auth_bearer_oauth (env : AuthEnv) (request : Request) (token : string)
    (w : World) (p : Principal) (w' : World) :
  req_authorization request = Some ("Bearer " ++ token)%string ->
  startswith token "bow_oauth_" = true ->
  validate_access_token token w = (Return (Some p), w') ->
  mcp_auth env request None None w = (Return (inr p, [OAuthValidation token]), w').
Proof.
  intros Hreq Hpre Hval.
  destruct (bearer_token token) as [Hb1 Hb2].
  unfold mcp_auth, mcp_auth_attempts, bind, ret. cbn [missing negb andb field].
  rewrite Hreq. cbn [field].
  rewrite Hb1, Hb2, Hpre, Hval. reflexivity.
Qed.

(** X20. The flow end to end. After an approval by a user for an
    organization, a client that validates, presents the code with a
    non-empty verifier matching the challenge and is in time gets a 200
    with tokens from the token endpoint (the random draws being fresh and
    the code non-empty); and an MCP request carrying the access token as
    bearer, with no session and no API key, is authenticated as that user
    and organization (both existing in the store) by the OAuth validation
    alone, until the access token expires. *)
Theorem consent_flow_authenticates (env : AuthEnv) (w : World) (body : AuthorizeBody)
    (user : User) (organization : Organization) (url : string) (w1 : World)
    (sec : option string) (ver : string) :
  wf w ->
  authorize_approve body user organization w = (Return (inr url), w1) ->
  client_validates (committed w) (field (body_client_id body)) sec ->
  ver <> "" ->
  _verify_pkce_s256 ver (field (body_code_challenge body)) = true ->
  entropy w (draws w) <> "" ->
  fresh_tokens w1 ->
  clock w1 (ticks w1) <= clock w (ticks w) + AUTHORIZATION_CODE_LIFETIME ->
  exists r w2,
    token_endpoint "authorization_code" (Some (entropy w (draws w)))
      (body_redirect_uri body) (field (body_client_id body)) sec (Some ver) None w1
    = (Return (mkJSONResponse 200 (TokenOk r)), w2)
    /\ forall request,
         req_authorization request = Some ("Bearer " ++ access_token r)%string ->
         users (committed w) (user_id user) = Some user ->
         organizations (committed w) (org_id organization) = Some organization ->
         clock w2 (ticks w2) <= clock w1 (2 + ticks w1)%nat + ACCESS_TOKEN_LIFETIME ->
         fst (mcp_auth env request None None w2)
         = Return (inr (user, organization), [OAuthValidation (access_token r)]).
Proof.
  intros Hwf H Hcv Hver Hp Hcode Hfresh Ht.
  destruct (authorize_approve_success w body user organization url w1 Hwf H)
    as (cid & uri & ch & c & E1 & E2 & E3 & N1 & N2 & N3 & _ & _ & _ & _ & _ & _
        & Hq & Hw1).
  rewrite E1, E2, E3 in *. cbn [field] in *.
  set (sc := match body_scope body with Some s => s | None => "mcp" end) in *.
  set (a := issued_code w cid (user_id user) (org_id organization) uri sc ch) in *.
  subst w1. set (w1 := after (add_code a (committed w)) 1 1 w) in *.
  assert (Hwf1 : wf w1) by (split; [exact Hq | reflexivity]).
  assert (Hl : live_code (committed w1) (entropy w (draws w)) cid
                 (List.length (codes (committed w))) a).
  { split; [|repeat split; reflexivity].
    unfold w1, add_code. cbn [committed after codes with_codes].
    apply nth_error_app_last. }
  assert (Hcv1 : client_validates (committed w1) cid sec)
    by (eapply client_validates_same_clients; [|exact Hcv]; reflexivity).
  destruct (exchange_code_issues w1 (entropy w (draws w)) cid sec ver uri _ a
              Hwf1 Hfresh Hcv1 Hl Ht Hp eq_refl) as [Hex Hq2].
  set (w2 := after (exchanged_db w1 cid (List.length (codes (committed w))) a) 4 2 w1)
    in *.
  exists (issued_response w1 sc), w2. split.
  - unfold token_endpoint. cbn [String.eqb Ascii.eqb Bool.eqb].
    rewrite (missing_some _ Hcode), (missing_some _ Hver), (missing_some _ N2).
    cbn [orb field]. unfold bind. rewrite Hex. reflexivity.
  - intros request Hreq Hus Hor Hta.
    assert (Hwf2 : wf w2) by (split; [exact Hq2 | reflexivity]).
    set (k := issued_token w1 cid (user_id user) (org_id organization) sc 2).
    assert (Hla : live_access (committed w2)
                    (_hash (ACCESS_TOKEN_PREFIX ++ entropy w1 (draws w1))%string)
                    (List.length (tokens (committed w1))) k).
    { split; [apply exchanged_db_access | split; reflexivity]. }
    pose proof (issued_access_validates w2 _ _ _ Hwf2 (startswith_app _ _) Hla) as Hval.
    change (tk_expires_at k) with (clock w1 (2 + ticks w1)%nat + ACCESS_TOKEN_LIFETIME)
      in Hval.
    apply Z.ltb_ge in Hta. rewrite Hta in Hval.
    change (users (committed w2) (tk_user_id k))
      with (users (committed w) (user_id user)) in Hval.
    change (organizations (committed w2) (tk_organization_id k))
      with (organizations (committed w) (org_id organization)) in Hval.
    rewrite Hus, Hor in Hval.
    erewrite mcp_auth_bearer_oauth; [reflexivity | exact Hreq | apply startswith_app
                                     | exact Hval].
Qed.

(* ================================================================== *)
(** * The sample deployment, continued                              *)
(* ================================================================== *)

(** X1 at the sample deployment. *)
Lemma service_keeps_every_row_witness :
  wf (Sample.world 900)
  /\ store_extends (committed (Sample.world 900))
                   (committed (run Tour.calls (Sample.world 900))).
Proof.
  split; [apply sample_wf|].
  exact (proj1 (service_keeps_every_row (Sample.world 900) Tour.calls (sample_wf 900))).
Defined.

(** X2 at the sample deployment. *)
Lemma create_client_then_validate_witness :
  wf (Sample.world 900)
  /\ Sample.created = (Return Tour.new_client, snd Sample.created)
  /\ exists c, validate_client "bow_client_AAAA" (Some "bow_secret_BBBB")
                 (snd Sample.created)
               = (Return (Some c), snd Sample.created)
               /\ cl_organization_id c = "org-1".
Proof.
  assert (H : Sample.created = (Return Tour.new_client, snd Sample.created))
    by (vm_compute; reflexivity).
  split; [apply sample_wf|]. split; [exact H|].
  destruct (create_client_then_validate (Sample.world 900) "org-1" "Claude" None
              Tour.new_client (snd Sample.created) (sample_wf 900) H)
    as (_ & (c & Hv & _ & _ & Ho & _) & _).
  exists c. split; [exact Hv | exact Ho].
Defined.

(** X3 at the sample deployment. *)
Lemma delete_client_is_final_witness :
  wf (Sample.world 900)
  /\ Tour.deleted = (Return true, snd Tour.deleted)
  /\ exists i c,
       live_client_row (committed (Sample.world 900)) "c-1" "org-1" i c
       /\ validate_client (cl_client_id c) None (run Tour.calls (snd Tour.deleted))
          = (Return None, run Tour.calls (snd Tour.deleted))
       /\ delete_client "c-1" "org-1" (run Tour.calls (snd Tour.deleted))
          = (Return false, run Tour.calls (snd Tour.deleted)).
Proof.
  assert (H : Tour.deleted = (Return true, snd Tour.deleted)) by (vm_compute; reflexivity).
  split; [apply sample_wf|]. split; [exact H|].
  destruct (delete_client_is_final (Sample.world 900) "c-1" "org-1" (snd Tour.deleted)
              (sample_wf 900) H) as (i & c & Hl & _ & _ & _ & Hafter).
  exists i, c. split; [exact Hl|].
  destruct (Hafter Tour.calls None "org-1") as (H1 & _ & H3 & _).
  split; [exact H1 | exact H3].
Defined.

(** X4 at the sample deployment. *)
Lemma client_of_another_organization_witness :
  wf (Sample.world 900)
  /\ cl_organization_id Sample.client <> org_id Tour.other_org
  /\ delete_client "c-1" "org-2" (Sample.world 900) = (Return false, Sample.world 900)
  /\ rotate_client_secret "c-1" "org-2" (Sample.world 900)
     = (Return None, Sample.world 900).
Proof.
  assert (Hne : cl_organization_id Sample.client <> org_id Tour.other_org)
    by (intros E; discriminate E).
  split; [apply sample_wf|]. split; [exact Hne|].
  destruct (client_of_another_organization (Sample.world 900) "c-1" 0 Sample.client
              Tour.other_org (sample_wf 900) eq_refl eq_refl Hne) as (H1 & H2 & _).
  split; [exact H1 | exact H2].
Defined.

(** X5 at the sample deployment. *)
Lemma rotate_client_secret_replaces_secret_witness :
  wf (Sample.world 900)
  /\ Tour.rotated = (Return (Some Tour.new_secret), snd Tour.rotated)
  /\ (exists c, validate_client "bow_client_A" (Some "bow_secret_AAAA") (snd Tour.rotated)
                = (Return (Some c), snd Tour.rotated))
  /\ ~ (exists c, validate_client "bow_client_A" (Some "bow_secret_S") (snd Tour.rotated)
                  = (Return (Some c), snd Tour.rotated)).
Proof.
  assert (H : Tour.rotated = (Return (Some Tour.new_secret), snd Tour.rotated))
    by (vm_compute; reflexivity).
  split; [apply sample_wf|]. split; [exact H|].
  destruct (rotate_client_secret_replaces_secret (Sample.world 900) "c-1" "org-1"
              Tour.new_secret (snd Tour.rotated) (sample_wf 900) H)
    as (_ & _ & Hiff & _).
  split.
  - exact (proj2 (Hiff "bow_secret_AAAA") eq_refl).
  - intros Hc. apply (proj1 (Hiff "bow_secret_S")) in Hc.
    vm_compute in Hc. discriminate Hc.
Defined.

(** X6 at the sample deployment. *)
Lemma get_client_info_route_witness :
  wf (Sample.world 900)
  /\ exists c, OAuthRoutes.get_client_info "bow_client_A" (Sample.world 900)
               = (Return (inr (mkClientInfo "bow_client_A" (cl_name c))), Sample.world 900).
Proof.
  split; [apply sample_wf|].
  destruct (proj1 (get_client_info_route (Sample.world 900) "bow_client_A" (sample_wf 900))
              (sample_client_validates 900)) as (c & _ & _ & _ & H).
  exists c. exact H.
Defined.

(** X7 at the sample deployment. *)
Lemma refresh_access_token_refusal_witness :
  wf (Sample.world 9001)
  /\ fst (refresh_access_token "bow_rt_R0" "bow_client_A" None (Sample.world 9001))
     = Return None
  /\ committed (snd (refresh_access_token "bow_rt_R0" "bow_client_A" None
                       (Sample.world 9001)))
     = committed (Sample.world 9001).
Proof.
  assert (H : fst (refresh_access_token "bow_rt_R0" "bow_client_A" None
                     (Sample.world 9001)) = Return None) by (vm_compute; reflexivity).
  split; [apply sample_wf|]. split; [exact H|].
  exact (proj1 (proj2 (refresh_access_token_refusal (Sample.world 9001) "bow_rt_R0"
                         "bow_client_A" None (sample_wf 9001)) H)).
Defined.

(** X8 at the sample deployment. *)
Lemma refresh_token_single_use_witness :
  wf (Sample.world 900)
  /\ Sample.refreshed = (Return (Some Sample.tokens_issued), snd Sample.refreshed)
  /\ refresh_access_token "bow_rt_R0" "bow_client_A" None
       (run Tour.calls (snd Sample.refreshed))
     = (Return None, run Tour.calls (snd Sample.refreshed)).
Proof.
  assert (H : Sample.refreshed
              = (Return (Some Sample.tokens_issued), snd Sample.refreshed))
    by (vm_compute; reflexivity).
  split; [apply sample_wf|]. split; [exact H|].
  destruct (refresh_token_single_use (Sample.world 900) "bow_rt_R0" "bow_client_A" None
              Sample.tokens_issued (snd Sample.refreshed) (sample_wf 900) H)
    as (i & k & _ & Hafter).
  exact (proj1 (Hafter Tour.calls) "bow_client_A" None).
Defined.

(** X9 at the sample deployment. *)
Lemma exchange_code_tokens_usable_witness :
  wf (Sample.world 900)
  /\ Sample.exchange 900 Sample.verifier
     = (Return (Some Sample.tokens_issued), snd (Sample.exchange 900 Sample.verifier))
  /\ fst (validate_access_token (access_token Sample.tokens_issued)
            (snd (Sample.exchange 900 Sample.verifier)))
     = Return (Some (Sample.alice, Sample.acme)).
Proof.
  assert (H : Sample.exchange 900 Sample.verifier
              = (Return (Some Sample.tokens_issued),
                 snd (Sample.exchange 900 Sample.verifier)))
    by (vm_compute; reflexivity).
  split; [apply sample_wf|]. split; [exact H|].
  destruct (exchange_code_tokens_usable (Sample.world 900) "code-1" "bow_client_A" None
              Sample.verifier Sample.callback Sample.tokens_issued
              (snd (Sample.exchange 900 Sample.verifier)) (sample_wf 900) H)
    as (i & a & Hl & _ & _ & _ & _ & _ & _ & Hval & _).
  apply sample_codes_row in Hl. subst a.
  apply Hval; [reflexivity | reflexivity | vm_compute; discriminate].
Defined.

(** X10 at the sample deployment. *)
Lemma create_authorization_code_then_exchange_witness :
  wf (Sample.world 900)
  /\ Tour.code_issued = (Return "AAAA", snd Tour.code_issued)
  /\ live_code (committed (snd Tour.code_issued)) "AAAA" "bow_client_A" 1
       (mkCode "AAAA" "bow_client_A" "user-1" "org-1" Sample.callback "mcp"
               Sample.challenge (900 + 300000000) None).
Proof.
  assert (H : Tour.code_issued = (Return "AAAA", snd Tour.code_issued))
    by (vm_compute; reflexivity).
  split; [apply sample_wf|]. split; [exact H|].
  exact (proj1 (proj2 (create_authorization_code_then_exchange (Sample.world 900)
                         "bow_client_A" "user-1" "org-1" Sample.callback "mcp"
                         Sample.challenge "AAAA" (snd Tour.code_issued)
                         (sample_wf 900) H))).
Defined.

(** X11 at the sample deployment: a body with no member. *)
Lemma authorize_approve_refusal_witness :
  wf (Sample.world 900)
  /\ authorize_approve Tour.empty_body Sample.alice Sample.acme (Sample.world 900)
     = (Return (inl (bad_request "Missing required parameters")), Sample.world 900)
  /\ exc_status_code (bad_request "Missing required parameters") = 400.
Proof.
  split; [apply sample_wf|]. split.
  - exact (proj1 (authorize_approve_refusal (Sample.world 900) Tour.empty_body
                    Sample.alice Sample.acme (sample_wf 900)) eq_refl).
  - reflexivity.
Defined.

(** X12 at the sample deployment. *)
Lemma authorize_approve_issues_code_witness :
  wf (Sample.world 900)
  /\ Tour.approved = (Return (inr Tour.redirect), snd Tour.approved)
  /\ exists cid uri ch,
       Tour.redirect = callback_url uri (entropy (Sample.world 900) 0%nat) (Some "xyz")
       /\ live_code (committed (snd Tour.approved)) "AAAA" cid 1
            (mkCode "AAAA" cid "user-1" "org-1" uri "mcp" ch (900 + 300000000) None).
Proof.
  assert (H : Tour.approved = (Return (inr Tour.redirect), snd Tour.approved))
    by (vm_compute; reflexivity).
  split; [apply sample_wf|]. split; [exact H|].
  destruct (authorize_approve_issues_code (Sample.world 900) Tour.consent Sample.alice
              Sample.acme Tour.redirect (snd Tour.approved) (sample_wf 900) H)
    as (cid & uri & ch & c & _ & _ & _ & _ & _ & _ & _ & _ & _ & _ & _ & Hurl & _ & Hl & _).
  exists cid, uri, ch. split; [exact Hurl | exact Hl].
Defined.

(** X13 at the sample deployment. *)
Lemma token_endpoint_responses_witness :
  wf (Sample.world 900)
  /\ Tour.token_request
     = (Return (mkJSONResponse 200 (TokenOk Sample.tokens_issued)), snd Tour.token_request)
  /\ token_issued (committed (snd Tour.token_request)) "bow_client_A" Sample.tokens_issued.
Proof.
  assert (H : Tour.token_request
              = (Return (mkJSONResponse 200 (TokenOk Sample.tokens_issued)),
                 snd Tour.token_request)) by (vm_compute; reflexivity).
  split; [apply sample_wf|]. split; [exact H|].
  destruct (token_endpoint_responses (Sample.world 900) "authorization_code"
              (Some "code-1") (Some Sample.callback) "bow_client_A" None
              (Some Sample.verifier) None _ _ (sample_wf 900) H)
    as [(_ & _ & r & Hc & _ & Hi)|(Hs & _)].
  - cbn [content] in Hc. injection Hc as <-. exact Hi.
  - cbn [status_code] in Hs. discriminate Hs.
Defined.

(** X14 at the sample deployment: bob's key; and no credential at all,
    with the settings as declared. *)
Lemma mcp_auth_credentials_witness :
  wf (Sample.world 900)
  /\ (exists r trace w1,
        mcp_auth_attempts Sample.auth_env Sample.request None (Some "bow_key1")
          (Sample.world 900)
        = (Return (r, trace), w1)
        /\ committed w1 = committed (Sample.world 900)
        /\ Forall (attempt_allowed Sample.request None (Some "bow_key1")) trace)
  /\ mcp_auth Sample.auth_env Sample.request None None (Sample.world 900)
     = (Raise AttributeError, Sample.world 900).
Proof.
  split; [apply sample_wf|]. split.
  - destruct (mcp_auth_credentials Sample.auth_env Sample.request None (Some "bow_key1")
                (Sample.world 900) (sample_wf 900))
      as (r & trace & w1 & H & Hc & _ & _ & Hf & _).
    exists r, trace, w1. split; [exact H|]. split; [exact Hc | exact Hf].
  - destruct (mcp_auth_credentials Sample.auth_env Sample.request None None
                (Sample.world 900) (sample_wf 900))
      as (r & trace & w1 & H & _ & _ & _ & _ & _ & Hnone).
    assert (E : mcp_auth_attempts Sample.auth_env Sample.request None None
                  (Sample.world 900) = (Return (None, []), Sample.world 900))
      by reflexivity.
    rewrite E in H. injection H as <- <- <-.
    exact (proj1 (Hnone eq_refl) eq_refl).
Defined.

(** X15 at the sample deployment. *)
Lemma mcp_disabled_is_forbidden_witness :
  org_settings Tour.other_org <> Some (Some true)
  /\ mcp_endpoint Sample.mcp_env (Parsed (Sample.call "fail"))
       (Sample.alice, Tour.other_org) (Sample.world 900)
     = (inl mcp_disabled, Sample.world 900).
Proof.
  assert (H : org_settings Tour.other_org <> Some (Some true))
    by (intros E; discriminate E).
  split; [exact H|].
  exact (proj1 (mcp_disabled_is_forbidden Sample.mcp_env (Parsed (Sample.call "fail"))
                  Sample.alice Tour.other_org (Sample.world 900) H)).
Defined.


(** X17 at the sample deployment: the settings as declared, and a
    configured URL with two trailing slashes. *)
Lemma base_url_is_normalised_witness :
  _resource_metadata_url Sample.auth_env Sample.request = Raise AttributeError
  /\ OAuthRoutes.protected_resource_metadata declared_settings Sample.request
     = Raise AttributeError
  /\ exists base,
       OAuthRoutes._base_url Tour.configured_settings Sample.request = Return base
       /\ "https://bow.example.com//" = (base ++ chars 2 "/")%string.
Proof.
  destruct (proj1 (base_url_is_normalised Sample.auth_env Sample.request) eq_refl)
    as (H1 & _ & H3 & _).
  split; [exact H1|]. split; [exact H3|].
  destruct (proj2 (base_url_is_normalised Tour.partial_env Sample.request) _ eq_refl)
    as (base & Hb & _).
  exists base. split; [exact Hb|].
  assert (E : OAuthRoutes._base_url Tour.configured_settings Sample.request
              = Return "https://bow.example.com") by (vm_compute; reflexivity).
  change (settings Tour.partial_env) with Tour.configured_settings in Hb.
  rewrite E in Hb. injection Hb as <-. reflexivity.
Defined.

(** X19 at the sample deployment. *)
Lemma verify_pkce_s256_challenge_shape_witness :
  _verify_pkce_s256 Sample.verifier Sample.challenge = true
  /\ String.length Sample.challenge = 43%nat.
Proof.
  assert (H : _verify_pkce_s256 Sample.verifier Sample.challenge = true)
    by (vm_compute; reflexivity).
  split; [exact H|].
  exact (proj1 (verify_pkce_s256_challenge_shape Sample.verifier Sample.challenge H)).
Defined.

(** X20 at the sample deployment. *)
Lemma consent_flow_authenticates_witness :
  wf (Sample.world 900)
  /\ Tour.approved = (Return (inr Tour.redirect), snd Tour.approved)
  /\ exists r w2,
       token_endpoint "authorization_code" (Some "AAAA") (Some Sample.callback)
         "bow_client_A" None (Some Sample.verifier) None (snd Tour.approved)
       = (Return (mkJSONResponse 200 (TokenOk r)), w2)
       /\ fst (mcp_auth Sample.auth_env (Tour.bearer_request (access_token r)) None None w2)
          = Return (inr (Sample.alice, Sample.acme), [OAuthValidation (access_token r)]).
Proof.
  assert (H : Tour.approved = (Return (inr Tour.redirect), snd Tour.approved))
    by (vm_compute; reflexivity).
  split; [apply sample_wf|]. split; [exact H|].
  destruct (consent_flow_authenticates Sample.auth_env (Sample.world 900) Tour.consent
              Sample.alice Sample.acme Tour.redirect (snd Tour.approved) None
              Sample.verifier (sample_wf 900) H (sample_client_validates 900))
    as (r & w2 & Ht & Hauth).
  - intros E; discriminate E.
  - vm_compute. reflexivity.
  - intros E; discriminate E.
  - split; vm_compute; reflexivity.
  - vm_compute. discriminate.
  - exists r, w2. split; [exact Ht|].
    apply Hauth; [reflexivity | reflexivity | reflexivity |].
    clear Hauth.
    pose proof (f_equal (fun x => ticks (snd x)) Ht) as Hticks.
    pose proof (f_equal (fun x => clock (snd x)) Ht) as Hclock.
    cbn [snd] in Hticks, Hclock. rewrite <- Hticks, <- Hclock.
    vm_compute. discriminate.
Defined.
